(** * Ledger contracts of the AI asset marketplace

    A shallow embedding of the three Solidity contracts of the repository
    ([AIAssetNFT], [Marketplace], [LicenseManager]) and the properties of
    the asset-and-order ledger that follow from their code.

    Conventions of the embedding:
    - [uint256] values are [N]; Solidity 0.8 checked arithmetic is written
      out ([checked_add], [checked_sub], [checked_mul] revert on overflow);
    - a [mapping] is a [gmap] read with [m !!0 k], which gives the zero value
      of the value type at an unset key, as Solidity does;
    - a call either returns the new state or reverts with the reason string
      of the failing [require]; a reverted call leaves the caller with the
      state it had;
    - [msg.sender] and [block.timestamp] travel in a [Msg]; [msg.value] is an
      extra argument of the payable functions;
    - events are not modelled; recipients of [transfer] are plain accounts
      (a transfer succeeds exactly when the paying contract holds the
      amount). *)

From Stdlib Require Import NArith Lia ZifyBool ZifyN Sorted.
From stdpp Require Import gmap strings list fin_maps.

Local Open Scope string_scope.
Local Open Scope N_scope.

(** ** The execution environment *)

Module Evm.

Definition address := N.

(** [address(0)] *)
Definition zero_address : address := 0.

(** [type(uint256).max + 1] *)
Definition modulus : N := 2 ^ 256.

Inductive Result (A : Type) : Type :=
| Ok (a : A)
| Revert (reason : string).
Arguments Ok {A} a.
Arguments Revert {A} reason.

Definition bind {A B : Type} (c : Result A) (k : A -> Result B) : Result B :=
  match c with
  | Ok a => k a
  | Revert r => Revert r
  end.

(** [require(cond, reason)] *)
Definition require (cond : bool) (reason : string) : Result unit :=
  if cond then Ok tt else Revert reason.

(** Arithmetic overflow or underflow: [Panic(0x11)]. *)
Definition Panic : string := "Panic(0x11)".

Definition checked_add (a b : N) : Result N :=
  if a + b <? modulus then Ok (a + b) else Revert Panic.

Definition checked_sub (a b : N) : Result N :=
  if b <=? a then Ok (a - b) else Revert Panic.

Definition checked_mul (a b : N) : Result N :=
  if a * b <? modulus then Ok (a * b) else Revert Panic.

(** The zero value of a Solidity type, read from unset storage. *)
Class Zero (A : Type) := zero : A.
#[global] Instance Zero_N : Zero N := 0.
#[global] Instance Zero_bool : Zero bool := false.
#[global] Instance Zero_list {A : Type} : Zero (list A) := [].

(** [mapping[key]] *)
Definition read {K V : Type} `{Countable K} `{Zero V} (m : gmap K V) (key : K) : V :=
  default zero (m !! key).

(** [array.push(x)] *)
Definition push {A : Type} (l : list A) (x : A) : list A := (l ++ [x])%list.

(** [msg.sender] and [block.timestamp] of a call. *)
Record Msg := mkMsg { sender : address; timestamp : N }.

(** Account balances, in wei. *)
Definition balanceOf (bal : gmap address N) (a : address) : N := read bal a.

Definition OutOfFunds : string := "EVM: insufficient balance".

(** Move [amount] from [from] to [to] without any check. *)
Definition move (from to : address) (amount : N) (bal : gmap address N)
  : gmap address N :=
  let bal1 := <[from := balanceOf bal from - amount]> bal in
  <[to := balanceOf bal1 to + amount]> bal1.

(** [payable(to).transfer(amount)] executed by the contract [this]. The
    recipient is taken to accept the payment, as an externally owned
    account does; the three contracts declare no [receive] function, so in
    the code a payment addressed to one of them reverts. *)
Definition transfer (this to : address) (amount : N) (bal : gmap address N)
  : Result (gmap address N) :=
  if amount <=? balanceOf bal this then Ok (move this to amount bal)
  else Revert OutOfFunds.

(** Entry of a payable call: [msg.value] moves from the caller to the
    contract before the body runs. *)
Definition receive (this : address) (m : Msg) (value : N) (bal : gmap address N)
  : Result (gmap address N) :=
  if value <=? balanceOf bal (sender m) then Ok (move (sender m) this value bal)
  else Revert OutOfFunds.

(** Out-of-bounds array access: [Panic(0x32)]. *)
Definition PanicIndex : string := "Panic(0x32)".

(** [new T[](length)]: a memory array of zero values. *)
Definition new_array {A : Type} `{Zero A} (length : N) : list A :=
  replicate (N.to_nat length) zero.

(** [array[index] = x] on a memory array. *)
Definition array_set {A : Type} (array : list A) (index : N) (x : A)
  : Result (list A) :=
  if index <? N.of_nat (length array) then Ok (<[N.to_nat index := x]> array)
  else Revert PanicIndex.

(** [for (uint256 i = start; i < start + n; i++) body]: [n] rounds of a
    loop whose body may revert. *)
Fixpoint for_loop {S : Type} (n : nat) (i : N) (body : N -> S -> Result S)
    (st : S) : Result S :=
  match n with
  | O => Ok st
  | Datatypes.S n' =>
      match body i st with
      | Ok st' => for_loop n' (i + 1) body st'
      | Revert r => Revert r
      end
  end.

(** [array[index]] read from a memory array. *)
Definition array_get {A : Type} (array : list A) (index : N) : Result A :=
  match array !! N.to_nat index with
  | Some x => Ok x
  | None => Revert PanicIndex
  end.

End Evm.

Export Evm.

Notation "m !!0 k" := (read m k) (at level 20).

#[global] Instance Result_bind : MBind Result := fun A B k c => bind c k.
#[global] Instance Result_ret : MRet Result := @Ok.

(** ** The ERC721 base contract *)

Module ERC721.

(** Modelled from the spec: the ERC721 base contract that AIAssetNFT
    inherits is imported from OpenZeppelin and is not among the sources.
    Its storage holds the current owner of each asset (section 3,
    [currentOwner]) and the approvals of ERC-721; it has no access to the
    mappings that AIAssetNFT declares. *)
Record State := mkState {
  _owners : gmap N address;
  _tokenApprovals : gmap N address;
  _operatorApprovals : gmap (address * address) bool
}.

(** Modelled from the spec: the storage of the base contract before any
    asset is minted. *)
Definition empty : State := mkState ∅ ∅ ∅.

(** Modelled from the spec: the current owner of an asset; an asset that
    was never minted has none (section 7, unknown asset id). *)
Definition ownerOf (tokenId : N) (s : State) : Result address :=
  let o := _owners s !!0 tokenId in
  require (negb (o =? zero_address)) "ERC721: invalid token ID" ;;
  Ok o.

(** Modelled from the spec: ERC-721 operator approval, granted by the owner
    for all of the owner's assets. *)
Definition isApprovedForAll (o operator : address) (s : State) : bool :=
  _operatorApprovals s !!0 (o, operator).

(** Modelled from the spec: who may move an asset under ERC-721: its owner,
    an approved operator of the owner or the approved address of the
    asset. *)
Definition _isApprovedOrOwner (spender : address) (tokenId : N) (s : State)
  : Result bool :=
  o ← ownerOf tokenId s ;
  Ok ((spender =? o) || isApprovedForAll o spender s
      || (_tokenApprovals s !!0 tokenId =? spender)).

(** Modelled from the spec: the effect of the transfer primitive of section
    4.1 on the base storage: the current owner becomes [to]; ERC-721 also
    drops the approval of the asset. *)
Definition set_owner_of (tokenId : N) (to : address) (s : State) : State :=
  mkState (<[tokenId := to]> (_owners s))
    (delete tokenId (_tokenApprovals s))
    (_operatorApprovals s).

(** Modelled from the spec: the transfer primitive of section 4.1, which
    fails when [from] is not the current owner; ERC-721 also refuses the
    zero address as the new owner. *)
Definition _transfer (from to : address) (tokenId : N) (s : State)
  : Result State :=
  o ← ownerOf tokenId s ;
  require (o =? from) "ERC721: transfer from incorrect owner" ;;
  require (negb (to =? zero_address)) "ERC721: transfer to the zero address" ;;
  Ok (set_owner_of tokenId to s).

(** Modelled from the spec: the transfer primitive as other contracts call
    it; [caller] is the [msg.sender] and must be allowed to move the
    asset. *)
Definition transferFrom (caller from to : address) (tokenId : N) (s : State)
  : Result State :=
  ok ← _isApprovedOrOwner caller tokenId s ;
  require ok "ERC721: caller is not token owner or approved" ;;
  _transfer from to tokenId s.

(** Modelled from the spec: ERC-721 approval of one address for one asset,
    given by the owner or an approved operator of the owner. *)
Definition approve (caller to : address) (tokenId : N) (s : State)
  : Result State :=
  o ← ownerOf tokenId s ;
  require (negb (to =? o)) "ERC721: approval to current owner" ;;
  require ((caller =? o) || isApprovedForAll o caller s)
    "ERC721: approve caller is not token owner or approved for all" ;;
  Ok (mkState (_owners s) (<[tokenId := to]> (_tokenApprovals s))
        (_operatorApprovals s)).

(** Modelled from the spec: minting makes [to] the first owner of a fresh
    asset id (section 4.1, [currentOwner = creator]). *)
Definition _safeMint (to : address) (tokenId : N) (s : State) : Result State :=
  require (negb (to =? zero_address)) "ERC721: mint to the zero address" ;;
  require ((_owners s !!0 tokenId) =? zero_address) "ERC721: token already minted" ;;
  Ok (mkState (<[tokenId := to]> (_owners s)) (_tokenApprovals s)
        (_operatorApprovals s)).

End ERC721.

(** ** AIAssetNFT *)

Module AIAssetNFT.

Inductive AssetType := MODEL | SCRIPT | DATASET.

Record Asset := mkAsset {
  tokenId : N;
  assetType : AssetType;
  name : string;
  description : string;
  version : string;
  creator : address;
  createdAt : N;
  updatedAt : N;
  ipfsHash : string;
  isPublic : bool;
  royaltyPercentage : N;
  price : N;
  isForSale : bool
}.

Record Version := mkVersion {
  v_version : string;
  v_ipfsHash : string;
  v_timestamp : N;
  v_changelog : string
}.

(** The zero value of [Asset], read from an unset mapping slot. *)
Definition zeroAsset : Asset :=
  mkAsset 0 MODEL "" "" "" zero_address 0 0 "" false 0 0 false.

#[global] Instance Zero_Asset : Zero Asset := zeroAsset.

(** Storage of the contract. [token] is the storage of the inherited
    ERC721 base, [paused] that of Pausable, [owner] that of Ownable and
    [this] is [address(this)]. Token URIs and the enumeration index of the
    other base contracts are left out: no function below reads them. *)
Record State := mkState {
  this : address;
  owner : address;
  paused : bool;
  token : ERC721.State;
  _tokenIdCounter : N;
  assets : gmap N Asset;
  assetVersions : gmap N (list Version);
  creatorAssets : gmap address (list N);
  usedIPFSHashes : gmap string bool
}.

(** State after the constructor ran, deployed by [deployer] at [self]. *)
Definition deploy (self deployer : address) : State :=
  mkState self deployer false ERC721.empty 0 ∅ ∅ ∅ ∅.

Definition DuplicateContent : string := "IPFS hash already used".
Definition InvalidRoyalty : string := "Royalty cannot exceed 10%".
Definition NotOwner : string := "Not the asset owner".
Definition Paused : string := "Pausable: paused".

(** *** Inherited functions

    AIAssetNFT overrides none of the ownership functions of the base, and
    its [_beforeTokenTransfer] only calls [super]: they act on [token] and
    leave the rest of the storage as it is. *)

Definition set_token (t : ERC721.State) (s : State) : State :=
  mkState (this s) (owner s) (paused s) t (_tokenIdCounter s)
    (assets s) (assetVersions s) (creatorAssets s) (usedIPFSHashes s).

Definition ownerOf (tokenId : N) (s : State) : Result address :=
  ERC721.ownerOf tokenId (token s).

Definition _transfer (from to : address) (tokenId : N) (s : State)
  : Result State :=
  t ← ERC721._transfer from to tokenId (token s) ;
  Ok (set_token t s).

(** [caller] is the [msg.sender] of the call. *)
Definition transferFrom (caller from to : address) (tokenId : N) (s : State)
  : Result State :=
  t ← ERC721.transferFrom caller from to tokenId (token s) ;
  Ok (set_token t s).

Definition approve (m : Msg) (to : address) (tokenId : N) (s : State)
  : Result State :=
  t ← ERC721.approve (sender m) to tokenId (token s) ;
  Ok (set_token t s).

Definition _safeMint (to : address) (tokenId : N) (s : State) : Result State :=
  t ← ERC721._safeMint to tokenId (token s) ;
  Ok (set_token t s).

(** *** Modifiers *)

Definition onlyAssetOwner (m : Msg) (tokenId : N) (s : State) : Result unit :=
  o ← ownerOf tokenId s ;
  require (o =? sender m) NotOwner.

Definition whenNotPaused (s : State) : Result unit :=
  require (negb (paused s)) Paused.

Definition validRoyaltyPercentage (royaltyPercentage : N) : Result unit :=
  require (royaltyPercentage <=? 1000) InvalidRoyalty.

(** *** Functions of the contract *)

(** [Counters.increment] is unchecked. The modifier [validAssetType] of
    [mintAsset] holds for every value of the enumeration [AssetType]. *)
Definition increment (c : N) : N := (c + 1) mod modulus.

Definition mintAsset (m : Msg) (assetType : AssetType)
    (name description version ipfsHash : string) (isPublic : bool)
    (royaltyPercentage price : N) (isForSale : bool) (s : State)
  : Result State :=
  whenNotPaused s ;;
  validRoyaltyPercentage royaltyPercentage ;;
  require (0 <? N.of_nat (String.length ipfsHash)) "IPFS hash required" ;;
  require (negb (usedIPFSHashes s !!0 ipfsHash)) DuplicateContent ;;
  require (0 <? N.of_nat (String.length name)) "Name required" ;;
  let tokenId := _tokenIdCounter s in
  s1 ← _safeMint (sender m) tokenId s ;
  let newAsset :=
    mkAsset tokenId assetType name description version (sender m)
      (timestamp m) (timestamp m) ipfsHash isPublic royaltyPercentage
      price isForSale in
  Ok (mkState (this s1) (owner s1) (paused s1) (token s1)
        (increment tokenId)
        (<[tokenId := newAsset]> (assets s1))
        (<[tokenId := push (assetVersions s1 !!0 tokenId)
                        (mkVersion version ipfsHash (timestamp m)
                           "Initial version")]>
           (assetVersions s1))
        (<[sender m := push (creatorAssets s1 !!0 sender m) tokenId]>
           (creatorAssets s1))
        (<[ipfsHash := true]> (usedIPFSHashes s1))).

Definition updateAsset (m : Msg) (tokenId : N)
    (newVersion newIPFSHash changelog : string) (s : State)
  : Result State :=
  onlyAssetOwner m tokenId s ;;
  whenNotPaused s ;;
  require (0 <? N.of_nat (String.length newIPFSHash)) "IPFS hash required" ;;
  require (negb (usedIPFSHashes s !!0 newIPFSHash)) DuplicateContent ;;
  require (0 <? N.of_nat (String.length newVersion)) "Version required" ;;
  let a := assets s !!0 tokenId in
  let a' :=
    mkAsset (AIAssetNFT.tokenId a) (assetType a) (name a) (description a)
      newVersion (creator a) (createdAt a) (timestamp m) newIPFSHash
      (isPublic a) (royaltyPercentage a) (price a) (isForSale a) in
  Ok (mkState (this s) (owner s) (paused s) (token s)
        (_tokenIdCounter s)
        (<[tokenId := a']> (assets s))
        (<[tokenId := push (assetVersions s !!0 tokenId)
                        (mkVersion newVersion newIPFSHash (timestamp m)
                           changelog)]>
           (assetVersions s))
        (creatorAssets s)
        (<[newIPFSHash := true]> (usedIPFSHashes s))).

Definition updateAssetPrice (m : Msg) (tokenId newPrice : N)
    (isForSale : bool) (s : State) : Result State :=
  onlyAssetOwner m tokenId s ;;
  whenNotPaused s ;;
  let a := assets s !!0 tokenId in
  let a' :=
    mkAsset (AIAssetNFT.tokenId a) (assetType a) (name a) (description a)
      (version a) (creator a) (createdAt a) (updatedAt a) (ipfsHash a)
      (isPublic a) (royaltyPercentage a) newPrice isForSale in
  Ok (mkState (this s) (owner s) (paused s) (token s)
        (_tokenIdCounter s)
        (<[tokenId := a']> (assets s))
        (assetVersions s) (creatorAssets s) (usedIPFSHashes s)).

Definition set_assets (f : gmap N Asset) (s : State) : State :=
  mkState (this s) (owner s) (paused s) (token s)
    (_tokenIdCounter s) f
    (assetVersions s) (creatorAssets s) (usedIPFSHashes s).

(** [buyAsset] is payable: [value] is [msg.value]. The asset record is a
    storage reference, so [asset.creator] is read after the update. *)
Definition buyAsset (m : Msg) (value : N) (tokenId : N)
    (w : gmap address N * State) : Result (gmap address N * State) :=
  let s := w.2 in
  bal ← receive (this s) m value w.1 ;
  whenNotPaused s ;;
  let asset := assets s !!0 tokenId in
  require (isForSale asset) "Asset not for sale" ;;
  require (price asset <=? value) "Insufficient payment" ;;
  o ← ownerOf tokenId s ;
  require (negb (o =? sender m)) "Cannot buy own asset" ;;
  seller ← ownerOf tokenId s ;
  let salePrice := price asset in
  p ← checked_mul salePrice (royaltyPercentage asset) ;
  let royaltyAmount := p / 10000 in
  sellerAmount ← checked_sub salePrice royaltyAmount ;
  s1 ← _transfer seller (sender m) tokenId s ;
  let asset' :=
    mkAsset (AIAssetNFT.tokenId asset) (assetType asset) (name asset)
      (description asset) (version asset) (creator asset)
      (createdAt asset) (updatedAt asset) (ipfsHash asset)
      (isPublic asset) (royaltyPercentage asset) 0 false in
  let s2 := set_assets (<[tokenId := asset']> (assets s1)) s1 in
  bal1 ← (if 0 <? royaltyAmount
           then transfer (this s) (creator asset') royaltyAmount bal
           else Ok bal) ;
  bal2 ← transfer (this s) seller sellerAmount bal1 ;
  bal3 ← (if salePrice <? value
           then (excess ← checked_sub value salePrice ;
                 transfer (this s) (sender m) excess bal2)
           else Ok bal2) ;
  Ok (bal3, s2).

Definition getAsset (tokenId : N) (s : State) : Asset := assets s !!0 tokenId.

Definition getAssetVersions (tokenId : N) (s : State) : list Version :=
  assetVersions s !!0 tokenId.

Definition getCreatorAssets (creator : address) (s : State) : list N :=
  creatorAssets s !!0 creator.

(** [_tokenIdCounter.current()] bounds both loops, so [i++] cannot
    overflow. *)
Definition getAllAssets (s : State) : Result (list Asset) :=
  let totalSupply := _tokenIdCounter s in
  for_loop (N.to_nat totalSupply) 0
    (fun i allAssets => array_set allAssets i (assets s !!0 i))
    (new_array totalSupply).

Definition getAssetsForSale (s : State) : Result (list Asset) :=
  let totalSupply := _tokenIdCounter s in
  forSaleCount ←
    for_loop (N.to_nat totalSupply) 0
      (fun i count =>
         if isForSale (assets s !!0 i) then checked_add count 1 else Ok count)
      0 ;
  filled ←
    for_loop (N.to_nat totalSupply) 0
      (fun i st =>
         if isForSale (assets s !!0 i)
         then (arr ← array_set st.1 st.2 (assets s !!0 i) ;
               index ← checked_add st.2 1 ;
               Ok (arr, index))
         else Ok st)
      (new_array forSaleCount, 0) ;
  Ok filled.1.

(** *** Administration *)

Definition NotAdmin : string := "Ownable: caller is not the owner".

Definition onlyOwner (m : Msg) (s : State) : Result unit :=
  require (owner s =? sender m) NotAdmin.

Definition set_paused (b : bool) (s : State) : State :=
  mkState (this s) (owner s) b (token s) (_tokenIdCounter s)
    (assets s) (assetVersions s) (creatorAssets s) (usedIPFSHashes s).

Definition pause (m : Msg) (s : State) : Result State :=
  onlyOwner m s ;;
  require (negb (paused s)) Paused ;;
  Ok (set_paused true s).

Definition unpause (m : Msg) (s : State) : Result State :=
  onlyOwner m s ;;
  require (paused s) "Pausable: not paused" ;;
  Ok (set_paused false s).

(** [payable(owner()).transfer(address(this).balance)] *)
Definition withdraw (m : Msg) (w : gmap address N * State)
  : Result (gmap address N * State) :=
  onlyOwner m w.2 ;;
  bal ← transfer (this w.2) (owner w.2) (balanceOf w.1 (this w.2)) w.1 ;
  Ok (bal, w.2).

(** The calls that change the storage of the contract or the balances;
    [TransferFrom] is called by [msg.sender]. *)
Inductive Call :=
| MintAsset (assetType : AssetType) (name description version ipfsHash : string)
    (isPublic : bool) (royaltyPercentage price : N) (isForSale : bool)
| UpdateAsset (tokenId : N) (newVersion newIPFSHash changelog : string)
| UpdateAssetPrice (tokenId newPrice : N) (isForSale : bool)
| BuyAsset (value tokenId : N)
| Approve (to : address) (tokenId : N)
| TransferFrom (from to : address) (tokenId : N)
| Pause
| Unpause
| Withdraw.

Definition exec (m : Msg) (c : Call) (w : gmap address N * State)
  : Result (gmap address N * State) :=
  match c with
  | MintAsset ty nm desc ver h pub roy pr sale =>
      s ← mintAsset m ty nm desc ver h pub roy pr sale w.2 ; Ok (w.1, s)
  | UpdateAsset t ver h changelog =>
      s ← updateAsset m t ver h changelog w.2 ; Ok (w.1, s)
  | UpdateAssetPrice t pr sale =>
      s ← updateAssetPrice m t pr sale w.2 ; Ok (w.1, s)
  | BuyAsset value t => buyAsset m value t w
  | Approve to t => s ← approve m to t w.2 ; Ok (w.1, s)
  | TransferFrom from to t =>
      s ← transferFrom (sender m) from to t w.2 ; Ok (w.1, s)
  | Pause => s ← pause m w.2 ; Ok (w.1, s)
  | Unpause => s ← unpause m w.2 ; Ok (w.1, s)
  | Withdraw => withdraw m w
  end.

End AIAssetNFT.

(** ** LicenseManager *)

Module LicenseManager.

Inductive LicenseType := COMMERCIAL | NON_COMMERCIAL | RESEARCH | CUSTOM.

Record License := mkLicense {
  licenseId : N;
  assetTokenId : N;
  licensor : address;
  licensee : address;
  licenseType : LicenseType;
  price : N;
  duration : N;
  startTime : N;
  endTime : N;
  isActive : bool;
  terms : string;
  createdAt : N
}.

Record UsageRecord := mkUsageRecord {
  u_licenseId : N;
  u_user : address;
  u_timestamp : N;
  u_action : string;
  u_details : string
}.

Definition zeroLicense : License :=
  mkLicense 0 0 zero_address zero_address COMMERCIAL 0 0 0 0 false "" 0.

#[global] Instance Zero_License : Zero License := zeroLicense.

Record State := mkState {
  this : address;
  owner : address;
  paused : bool;
  licenses : gmap N License;
  licenseUsage : gmap N (list UsageRecord);
  userLicenses : gmap address (list N);
  userIssuedLicenses : gmap address (list N);
  assetLicensable : gmap N bool;
  _licenseIdCounter : N
}.

Definition deploy (self deployer : address) : State :=
  mkState self deployer false ∅ ∅ ∅ ∅ ∅ 0.

Definition NotLicensable : string := "Asset not licensable".
Definition InvalidLicensee : string := "Invalid licensee".
Definition SelfLicense : string := "Cannot license to self".
Definition InsufficientPayment : string := "Insufficient payment".
Definition NotLicensor : string := "Not the license owner".
Definition NotLicensee : string := "Not the licensee".
Definition NotFound : string := "License does not exist".
Definition LicenseInactive : string := "License not active".
Definition LicenseExpired : string := "License expired".
Definition NotAdmin : string := "Ownable: caller is not the owner".
Definition Paused : string := "Pausable: paused".

(** *** Modifiers *)

Definition onlyLicenseOwner (m : Msg) (licenseId : N) (s : State) : Result unit :=
  require (licensor (licenses s !!0 licenseId) =? sender m) NotLicensor.

Definition onlyLicensee (m : Msg) (licenseId : N) (s : State) : Result unit :=
  require (licensee (licenses s !!0 licenseId) =? sender m) NotLicensee.

Definition validLicense (licenseId : N) (s : State) : Result unit :=
  require (negb (LicenseManager.licenseId (licenses s !!0 licenseId) =? 0)) NotFound.

Definition activeLicense (m : Msg) (licenseId : N) (s : State) : Result unit :=
  require (isActive (licenses s !!0 licenseId)) LicenseInactive ;;
  require ((endTime (licenses s !!0 licenseId) =? 0)
           || (timestamp m <=? endTime (licenses s !!0 licenseId)))
    LicenseExpired.

Definition onlyOwner (m : Msg) (s : State) : Result unit :=
  require (owner s =? sender m) NotAdmin.

Definition whenNotPaused (s : State) : Result unit :=
  require (negb (paused s)) Paused.

(** *** Functions of the contract *)

(** [createLicense] is payable: [value] is [msg.value]. *)
Definition createLicense (m : Msg) (value : N) (assetTokenId : N)
    (licensee : address) (licenseType : LicenseType) (price duration : N)
    (terms : string) (w : gmap address N * State)
  : Result (gmap address N * State) :=
  let s := w.2 in
  bal ← receive (this s) m value w.1 ;
  whenNotPaused s ;;
  require (assetLicensable s !!0 assetTokenId) NotLicensable ;;
  require (negb (licensee =? zero_address)) InvalidLicensee ;;
  require (negb (licensee =? sender m)) SelfLicense ;;
  require (price <=? value) InsufficientPayment ;;
  let licenseId := _licenseIdCounter s in
  counter ← checked_add (_licenseIdCounter s) 1 ;
  let startTime := timestamp m in
  endTime ← (if 0 <? duration then checked_add startTime duration else Ok 0) ;
  let newLicense :=
    mkLicense licenseId assetTokenId (sender m) licensee licenseType price
      duration startTime endTime true terms (timestamp m) in
  let s1 :=
    mkState (this s) (owner s) (paused s)
      (<[licenseId := newLicense]> (licenses s))
      (licenseUsage s)
      (<[licensee := push (userLicenses s !!0 licensee) licenseId]>
         (userLicenses s))
      (<[sender m := push (userIssuedLicenses s !!0 sender m) licenseId]>
         (userIssuedLicenses s))
      (assetLicensable s)
      counter in
  bal1 ← (if 0 <? price then transfer (this s) (sender m) price bal
          else Ok bal) ;
  bal2 ← (if price <? value
          then (excess ← checked_sub value price ;
                transfer (this s) (sender m) excess bal1)
          else Ok bal1) ;
  Ok (bal2, s1).

Definition recordUsage (m : Msg) (licenseId : N) (action details : string)
    (s : State) : Result State :=
  validLicense licenseId s ;;
  activeLicense m licenseId s ;;
  onlyLicensee m licenseId s ;;
  let usage := mkUsageRecord licenseId (sender m) (timestamp m) action details in
  Ok (mkState (this s) (owner s) (paused s) (licenses s)
        (<[licenseId := push (licenseUsage s !!0 licenseId) usage]>
           (licenseUsage s))
        (userLicenses s) (userIssuedLicenses s) (assetLicensable s)
        (_licenseIdCounter s)).

(** The loop of [hasValidLicense] over [userLicenseIds], with its early
    [return true]. *)
Fixpoint hasValidLicense_loop (now : N) (assetTokenId : N)
    (lics : gmap N License) (userLicenseIds : list N) : bool :=
  match userLicenseIds with
  | [] => false
  | id :: rest =>
      let license := lics !!0 id in
      if (LicenseManager.assetTokenId license =? assetTokenId)
         && isActive license
         && ((endTime license =? 0) || (now <=? endTime license))
      then true
      else hasValidLicense_loop now assetTokenId lics rest
  end.

(** A view function; [now] is [block.timestamp]. *)
Definition hasValidLicense (now : N) (user : address) (assetTokenId : N)
    (s : State) : bool :=
  hasValidLicense_loop now assetTokenId (licenses s) (userLicenses s !!0 user).

Definition set_isActive (b : bool) (l : License) : License :=
  mkLicense (licenseId l) (assetTokenId l) (licensor l) (licensee l)
    (licenseType l) (price l) (duration l) (startTime l) (endTime l) b
    (terms l) (createdAt l).

Definition deactivateLicense (m : Msg) (licenseId : N) (s : State)
  : Result State :=
  validLicense licenseId s ;;
  onlyLicenseOwner m licenseId s ;;
  Ok (mkState (this s) (owner s) (paused s)
        (<[licenseId := set_isActive false (licenses s !!0 licenseId)]>
           (licenses s))
        (licenseUsage s) (userLicenses s) (userIssuedLicenses s)
        (assetLicensable s) (_licenseIdCounter s)).

Definition set_assetLicensable (f : gmap N bool) (s : State) : State :=
  mkState (this s) (owner s) (paused s) (licenses s) (licenseUsage s)
    (userLicenses s) (userIssuedLicenses s) f (_licenseIdCounter s).

Definition setAssetLicensability (m : Msg) (assetTokenId : N)
    (licensable : bool) (s : State) : Result State :=
  onlyOwner m s ;;
  Ok (set_assetLicensable (<[assetTokenId := licensable]> (assetLicensable s)) s).

Fixpoint batch_loop (ids : list N) (flags : list bool) (f : gmap N bool)
  : gmap N bool :=
  match ids, flags with
  | id :: ids', b :: flags' => batch_loop ids' flags' (<[id := b]> f)
  | _, _ => f
  end.

Definition batchSetAssetLicensability (m : Msg) (assetTokenIds : list N)
    (licensableStatuses : list bool) (s : State) : Result State :=
  onlyOwner m s ;;
  require (N.of_nat (length assetTokenIds) =? N.of_nat (length licensableStatuses))
    "Arrays length mismatch" ;;
  Ok (set_assetLicensable
        (batch_loop assetTokenIds licensableStatuses (assetLicensable s)) s).

Definition set_paused (b : bool) (s : State) : State :=
  mkState (this s) (owner s) b (licenses s) (licenseUsage s)
    (userLicenses s) (userIssuedLicenses s) (assetLicensable s)
    (_licenseIdCounter s).

Definition pause (m : Msg) (s : State) : Result State :=
  onlyOwner m s ;;
  require (negb (paused s)) Paused ;;
  Ok (set_paused true s).

Definition unpause (m : Msg) (s : State) : Result State :=
  onlyOwner m s ;;
  require (paused s) "Pausable: not paused" ;;
  Ok (set_paused false s).

(** The calls that change the storage of the contract. *)
Inductive Call :=
| CreateLicense (value assetTokenId : N) (licensee : address)
    (licenseType : LicenseType) (price duration : N) (terms : string)
| RecordUsage (licenseId : N) (action details : string)
| DeactivateLicense (licenseId : N)
| SetAssetLicensability (assetTokenId : N) (licensable : bool)
| BatchSetAssetLicensability (assetTokenIds : list N)
    (licensableStatuses : list bool)
| Pause
| Unpause.

Definition exec (m : Msg) (c : Call) (w : gmap address N * State)
  : Result (gmap address N * State) :=
  match c with
  | CreateLicense value a l t p d tm => createLicense m value a l t p d tm w
  | RecordUsage id act det => s ← recordUsage m id act det w.2 ; Ok (w.1, s)
  | DeactivateLicense id => s ← deactivateLicense m id w.2 ; Ok (w.1, s)
  | SetAssetLicensability a b => s ← setAssetLicensability m a b w.2 ; Ok (w.1, s)
  | BatchSetAssetLicensability ids bs =>
      s ← batchSetAssetLicensability m ids bs w.2 ; Ok (w.1, s)
  | Pause => s ← pause m w.2 ; Ok (w.1, s)
  | Unpause => s ← unpause m w.2 ; Ok (w.1, s)
  end.

(** States reached from deployment by successful calls, whatever the
    account balances are at each call. *)
Inductive reachable : State -> Prop :=
| reach_deploy self deployer : reachable (deploy self deployer)
| reach_step s m c bal bal' s' :
    reachable s -> exec m c (bal, s) = Ok (bal', s') -> reachable s'.

(** *** Views *)

Definition getUserLicenses (user : address) (s : State) : Result (list License) :=
  let licenseIds := userLicenses s !!0 user in
  for_loop (length licenseIds) 0
    (fun i userLicenseList =>
       id ← array_get licenseIds i ;
       array_set userLicenseList i (licenses s !!0 id))
    (new_array (N.of_nat (length licenseIds))).

Definition getIssuedLicenses (user : address) (s : State) : Result (list License) :=
  let licenseIds := userIssuedLicenses s !!0 user in
  for_loop (length licenseIds) 0
    (fun i issuedLicenseList =>
       id ← array_get licenseIds i ;
       array_set issuedLicenseList i (licenses s !!0 id))
    (new_array (N.of_nat (length licenseIds))).

Definition getLicenseUsage (licenseId : N) (s : State) : list UsageRecord :=
  licenseUsage s !!0 licenseId.

Definition getLicense (licenseId : N) (s : State) : Result License :=
  validLicense licenseId s ;;
  Ok (licenses s !!0 licenseId).

(** A view function; [now] is [block.timestamp]. *)
Definition isLicenseExpired (now : N) (licenseId : N) (s : State) : Result bool :=
  validLicense licenseId s ;;
  let license := licenses s !!0 licenseId in
  Ok (negb (isActive license) || ((0 <? endTime license) && (endTime license <? now))).

(** [payable(owner()).transfer(address(this).balance)] *)
Definition withdraw (m : Msg) (w : gmap address N * State)
  : Result (gmap address N * State) :=
  onlyOwner m w.2 ;;
  bal ← transfer (this w.2) (owner w.2) (balanceOf w.1 (this w.2)) w.1 ;
  Ok (bal, w.2).

End LicenseManager.

(** ** Marketplace *)

Module Marketplace.

Record Order := mkOrder {
  orderId : N;
  assetTokenId : N;
  seller : address;
  buyer : address;
  price : N;
  startTime : N;
  endTime : N;
  isActive : bool;
  isAuction : bool;
  highestBid : N;
  highestBidder : address
}.

Record Bid := mkBid {
  bidder : address;
  amount : N;
  b_timestamp : N
}.

Definition zeroOrder : Order :=
  mkOrder 0 0 zero_address zero_address 0 0 0 false false 0 zero_address.

#[global] Instance Zero_Order : Zero Order := zeroOrder.

(** Storage of the contract; [this] is [address(this)], [owner] and
    [paused] come from Ownable and Pausable. *)
Record State := mkState {
  this : address;
  owner : address;
  paused : bool;
  marketplaceFee : N;
  orders : gmap N Order;
  orderBids : gmap N (list Bid);
  userOrders : gmap address (list N);
  userBids : gmap address (list N);
  _orderIdCounter : N
}.

Definition MAX_FEE : N := 1000.

Definition deploy (self deployer : address) : State :=
  mkState self deployer false 250 ∅ ∅ ∅ ∅ 0.

(** The ledger the marketplace acts on: account balances, the storage of
    the referenced AIAssetNFT contract and its own storage. *)
Record World := mkWorld {
  balances : gmap address N;
  nft : AIAssetNFT.State;
  market : State
}.

Definition NotFound : string := "Order does not exist".
Definition OrderInactive : string := "Order not active".
Definition OrderExpired : string := "Order expired".
Definition WrongOrderKind_auction : string := "This is an auction order".
Definition WrongOrderKind_fixed : string := "This is not an auction order".
Definition InsufficientPayment : string := "Insufficient payment".
Definition SelfTrade_buy : string := "Cannot buy own order".
Definition SelfTrade_bid : string := "Cannot bid on own auction".
Definition BidTooLow_highest : string :=
  "Bid must be higher than current highest bid".
Definition BidTooLow_start : string := "Bid must be at least the starting price".
Definition IsHighestBidder : string := "Cannot withdraw highest bid".
Definition NoBidFound : string := "No bid found".
Definition NotExpired : string := "Auction not ended yet".
Definition AlreadyEnded : string := "Auction already ended".
Definition NoBids : string := "No bids placed".
Definition NotSeller : string := "Not the order owner".
Definition AlreadySold : string := "Order already sold".
Definition NotAdmin : string := "Ownable: caller is not the owner".
Definition Paused : string := "Pausable: paused".

Definition set_orders (f : gmap N Order) (s : State) : State :=
  mkState (this s) (owner s) (paused s) (marketplaceFee s) f (orderBids s)
    (userOrders s) (userBids s) (_orderIdCounter s).

Definition set_market (s : State) (w : World) : World :=
  mkWorld (balances w) (nft w) s.

(** *** Modifiers *)

Definition onlyAssetOwner (m : Msg) (assetTokenId : N) (w : World) : Result unit :=
  o ← AIAssetNFT.ownerOf assetTokenId (nft w) ;
  require (o =? sender m) AIAssetNFT.NotOwner.

Definition validOrder (orderId : N) (s : State) : Result unit :=
  require (negb (Marketplace.orderId (orders s !!0 orderId) =? 0)) NotFound.

Definition activeOrder (m : Msg) (orderId : N) (s : State) : Result unit :=
  require (isActive (orders s !!0 orderId)) OrderInactive ;;
  require (timestamp m <=? endTime (orders s !!0 orderId)) OrderExpired.

Definition whenNotPaused (s : State) : Result unit :=
  require (negb (paused s)) Paused.

Definition onlyOwner (m : Msg) (s : State) : Result unit :=
  require (owner s =? sender m) NotAdmin.

(** *** Creating orders *)

Definition add_order (m : Msg) (o : Order) (counter : N) (s : State) : State :=
  mkState (this s) (owner s) (paused s) (marketplaceFee s)
    (<[orderId o := o]> (orders s))
    (orderBids s)
    (<[sender m := push (userOrders s !!0 sender m) (orderId o)]> (userOrders s))
    (userBids s)
    counter.

Definition createFixedPriceOrder (m : Msg) (assetTokenId price : N) (w : World)
  : Result World :=
  let s := market w in
  onlyAssetOwner m assetTokenId w ;;
  whenNotPaused s ;;
  require (0 <? price) "Price must be greater than 0" ;;
  let orderId := _orderIdCounter s in
  counter ← checked_add (_orderIdCounter s) 1 ;
  let newOrder :=
    mkOrder orderId assetTokenId (sender m) zero_address price (timestamp m)
      0 true false 0 zero_address in
  Ok (set_market (add_order m newOrder counter s) w).

Definition createAuctionOrder (m : Msg) (assetTokenId startingPrice duration : N)
    (w : World) : Result World :=
  let s := market w in
  onlyAssetOwner m assetTokenId w ;;
  whenNotPaused s ;;
  require (0 <? startingPrice) "Starting price must be greater than 0" ;;
  require (0 <? duration) "Duration must be greater than 0" ;;
  let orderId := _orderIdCounter s in
  counter ← checked_add (_orderIdCounter s) 1 ;
  endTime ← checked_add (timestamp m) duration ;
  let newOrder :=
    mkOrder orderId assetTokenId (sender m) zero_address startingPrice
      (timestamp m) endTime true true 0 zero_address in
  Ok (set_market (add_order m newOrder counter s) w).

(** *** Settlement *)

(** The three amounts computed under the comment "Calculate fees" of
    [_executeSale]: marketplace fee, royalty and seller amount. *)
Definition saleAmounts (price marketplaceFee royaltyPercentage : N)
  : Result (N * N * N) :=
  pf ← checked_mul price marketplaceFee ;
  let marketplaceFeeAmount := pf / 10000 in
  pr ← checked_mul price royaltyPercentage ;
  let royaltyAmount := pr / 10000 in
  d ← checked_sub price marketplaceFeeAmount ;
  sellerAmount ← checked_sub d royaltyAmount ;
  Ok (marketplaceFeeAmount, royaltyAmount, sellerAmount).

Definition fill (buyer : address) (o : Order) : Order :=
  mkOrder (orderId o) (assetTokenId o) (seller o) buyer (price o)
    (startTime o) (endTime o) false (isAuction o) (highestBid o)
    (highestBidder o).

Definition _executeSale (orderId : N) (buyer : address) (price : N) (w : World)
  : Result World :=
  let s := market w in
  let order := orders s !!0 orderId in
  let asset := AIAssetNFT.getAsset (assetTokenId order) (nft w) in
  amounts ← saleAmounts price (marketplaceFee s)
              (AIAssetNFT.royaltyPercentage asset) ;
  let '(marketplaceFeeAmount, royaltyAmount, sellerAmount) := amounts in
  nft1 ← AIAssetNFT.transferFrom (this s) (seller order) buyer
           (assetTokenId order) (nft w) ;
  let s1 := set_orders (<[orderId := fill buyer order]> (orders s)) s in
  bal1 ← (if 0 <? royaltyAmount
          then transfer (this s) (AIAssetNFT.creator asset) royaltyAmount
                 (balances w)
          else Ok (balances w)) ;
  bal2 ← transfer (this s) (seller order) sellerAmount bal1 ;
  bal3 ← (if 0 <? marketplaceFeeAmount
          then transfer (this s) (owner s) marketplaceFeeAmount bal2
          else Ok bal2) ;
  Ok (mkWorld bal3 nft1 s1).

(** [value] is [msg.value]; what exceeds the price stays with the
    contract. *)
Definition buyFixedPriceOrder (m : Msg) (value : N) (orderId : N) (w : World)
  : Result World :=
  let s := market w in
  bal ← receive (this s) m value (balances w) ;
  validOrder orderId s ;;
  activeOrder m orderId s ;;
  let order := orders s !!0 orderId in
  require (negb (isAuction order)) WrongOrderKind_auction ;;
  require (price order <=? value) InsufficientPayment ;;
  require (negb (seller order =? sender m)) SelfTrade_buy ;;
  _executeSale orderId (sender m) (price order) (mkWorld bal (nft w) s).

(** *** Auctions *)

Definition raise (m : Msg) (value : N) (o : Order) : Order :=
  mkOrder (orderId o) (assetTokenId o) (seller o) (buyer o) (price o)
    (startTime o) (endTime o) (isActive o) (isAuction o) value (sender m).

Definition placeBid (m : Msg) (value : N) (orderId : N) (w : World)
  : Result World :=
  let s := market w in
  bal ← receive (this s) m value (balances w) ;
  validOrder orderId s ;;
  activeOrder m orderId s ;;
  let order := orders s !!0 orderId in
  require (isAuction order) WrongOrderKind_fixed ;;
  require (negb (sender m =? seller order)) SelfTrade_bid ;;
  require (highestBid order <? value) BidTooLow_highest ;;
  require (price order <=? value) BidTooLow_start ;;
  bal1 ← (if negb (highestBidder order =? zero_address)
          then transfer (this s) (highestBidder order) (highestBid order) bal
          else Ok bal) ;
  let newBid := mkBid (sender m) value (timestamp m) in
  Ok (mkWorld bal1 (nft w)
        (mkState (this s) (owner s) (paused s) (marketplaceFee s)
           (<[orderId := raise m value order]> (orders s))
           (<[orderId := push (orderBids s !!0 orderId) newBid]> (orderBids s))
           (userOrders s)
           (<[sender m := push (userBids s !!0 sender m) orderId]> (userBids s))
           (_orderIdCounter s))).

(** The loop of [withdrawBid]: the amount of the first recorded bid of
    [who], or 0 when there is none. *)
Fixpoint findBid (bids : list Bid) (who : address) : N :=
  match bids with
  | [] => 0
  | b :: rest => if bidder b =? who then amount b else findBid rest who
  end.

Definition withdrawBid (m : Msg) (orderId : N) (w : World) : Result World :=
  let s := market w in
  validOrder orderId s ;;
  let order := orders s !!0 orderId in
  require (isAuction order) WrongOrderKind_fixed ;;
  require (negb (highestBidder order =? sender m)) IsHighestBidder ;;
  let bidAmount := findBid (orderBids s !!0 orderId) (sender m) in
  require (0 <? bidAmount) NoBidFound ;;
  bal ← transfer (this s) (sender m) bidAmount (balances w) ;
  Ok (mkWorld bal (nft w) s).

Definition endAuction (m : Msg) (orderId : N) (w : World) : Result World :=
  let s := market w in
  validOrder orderId s ;;
  let order := orders s !!0 orderId in
  require (isAuction order) WrongOrderKind_fixed ;;
  require (endTime order <=? timestamp m) NotExpired ;;
  require (isActive order) AlreadyEnded ;;
  require (negb (highestBidder order =? zero_address)) NoBids ;;
  _executeSale orderId (highestBidder order) (highestBid order) w.

Definition deactivate (o : Order) : Order :=
  mkOrder (orderId o) (assetTokenId o) (seller o) (buyer o) (price o)
    (startTime o) (endTime o) false (isAuction o) (highestBid o)
    (highestBidder o).

Definition cancelOrder (m : Msg) (orderId : N) (w : World) : Result World :=
  let s := market w in
  validOrder orderId s ;;
  let order := orders s !!0 orderId in
  require (seller order =? sender m) NotSeller ;;
  require (isActive order) OrderInactive ;;
  require (buyer order =? zero_address) AlreadySold ;;
  bal ← (if isAuction order && negb (highestBidder order =? zero_address)
         then transfer (this s) (highestBidder order) (highestBid order)
                (balances w)
         else Ok (balances w)) ;
  Ok (mkWorld bal (nft w)
        (set_orders (<[orderId := deactivate order]> (orders s)) s)).

(** *** Administration *)

Definition setMarketplaceFee (m : Msg) (newFee : N) (s : State) : Result State :=
  onlyOwner m s ;;
  require (newFee <=? MAX_FEE) "Fee too high" ;;
  Ok (mkState (this s) (owner s) (paused s) newFee (orders s) (orderBids s)
        (userOrders s) (userBids s) (_orderIdCounter s)).

Definition getOrder (orderId : N) (s : State) : Result Order :=
  validOrder orderId s ;;
  Ok (orders s !!0 orderId).

(** *** Views *)

Definition getOrderBids (orderId : N) (s : State) : Result (list Bid) :=
  validOrder orderId s ;;
  Ok (orderBids s !!0 orderId).

Definition getUserOrders (user : address) (s : State) : Result (list Order) :=
  let orderIds := userOrders s !!0 user in
  for_loop (length orderIds) 0
    (fun i userOrderList =>
       id ← array_get orderIds i ;
       array_set userOrderList i (orders s !!0 id))
    (new_array (N.of_nat (length orderIds))).

Definition getUserBids (user : address) (s : State) : Result (list Order) :=
  let bidOrderIds := userBids s !!0 user in
  for_loop (length bidOrderIds) 0
    (fun i userBidList =>
       id ← array_get bidOrderIds i ;
       array_set userBidList i (orders s !!0 id))
    (new_array (N.of_nat (length bidOrderIds))).

(** A view function; [now] is [block.timestamp]. [_orderIdCounter] bounds
    both loops, so [i++] cannot overflow. *)
Definition getActiveOrders (now : N) (s : State) : Result (list Order) :=
  let totalOrders := _orderIdCounter s in
  activeCount ←
    for_loop (N.to_nat totalOrders) 0
      (fun i count =>
         if isActive (orders s !!0 i) && (now <=? endTime (orders s !!0 i))
         then checked_add count 1 else Ok count)
      0 ;
  filled ←
    for_loop (N.to_nat totalOrders) 0
      (fun i st =>
         if isActive (orders s !!0 i) && (now <=? endTime (orders s !!0 i))
         then (arr ← array_set st.1 st.2 (orders s !!0 i) ;
               index ← checked_add st.2 1 ;
               Ok (arr, index))
         else Ok st)
      (new_array activeCount, 0) ;
  Ok filled.1.

(** *** Pausing and withdrawing *)

Definition set_paused (b : bool) (s : State) : State :=
  mkState (this s) (owner s) b (marketplaceFee s) (orders s) (orderBids s)
    (userOrders s) (userBids s) (_orderIdCounter s).

Definition pause (m : Msg) (s : State) : Result State :=
  onlyOwner m s ;;
  require (negb (paused s)) Paused ;;
  Ok (set_paused true s).

Definition unpause (m : Msg) (s : State) : Result State :=
  onlyOwner m s ;;
  require (paused s) "Pausable: not paused" ;;
  Ok (set_paused false s).

(** [payable(owner()).transfer(address(this).balance)] *)
Definition withdraw (m : Msg) (w : World) : Result World :=
  let s := market w in
  onlyOwner m s ;;
  bal ← transfer (this s) (owner s) (balanceOf (balances w) (this s)) (balances w) ;
  Ok (mkWorld bal (nft w) s).

(** The calls that change the storage of the marketplace or the
    balances. *)
Inductive Call :=
| CreateFixedPriceOrder (assetTokenId price : N)
| CreateAuctionOrder (assetTokenId startingPrice duration : N)
| BuyFixedPriceOrder (value orderId : N)
| PlaceBid (value orderId : N)
| WithdrawBid (orderId : N)
| EndAuction (orderId : N)
| CancelOrder (orderId : N)
| SetMarketplaceFee (newFee : N)
| Pause
| Unpause
| Withdraw.

Definition exec (m : Msg) (c : Call) (w : World) : Result World :=
  match c with
  | CreateFixedPriceOrder a p => createFixedPriceOrder m a p w
  | CreateAuctionOrder a p d => createAuctionOrder m a p d w
  | BuyFixedPriceOrder value id => buyFixedPriceOrder m value id w
  | PlaceBid value id => placeBid m value id w
  | WithdrawBid id => withdrawBid m id w
  | EndAuction id => endAuction m id w
  | CancelOrder id => cancelOrder m id w
  | SetMarketplaceFee f => s ← setMarketplaceFee m f (market w) ; Ok (set_market s w)
  | Pause => s ← pause m (market w) ; Ok (set_market s w)
  | Unpause => s ← unpause m (market w) ; Ok (set_market s w)
  | Withdraw => withdraw m w
  end.

End Marketplace.

(** ** Transactions, runs and reachable states *)

(** A transaction either commits the state its call returned or, when the
    call reverts, leaves the state as it was and reports the reason. *)
Definition transact {S : Type} (call : S -> Result S) (s : S)
  : S * option string :=
  match call s with
  | Ok s' => (s', None)
  | Revert reason => (s, Some reason)
  end.

(** States of the asset registry reached from deployment by successful
    mints and version updates, and by the calls that change sale terms,
    approvals and ownership. *)
Inductive registry_reachable : AIAssetNFT.State -> Prop :=
| rr_deploy self deployer : registry_reachable (AIAssetNFT.deploy self deployer)
| rr_mint s m ty name desc ver h pub roy price sale s' :
    registry_reachable s ->
    AIAssetNFT.mintAsset m ty name desc ver h pub roy price sale s = Ok s' ->
    registry_reachable s'
| rr_update s m tokenId ver h changelog s' :
    registry_reachable s ->
    AIAssetNFT.updateAsset m tokenId ver h changelog s = Ok s' ->
    registry_reachable s'
| rr_price s m tokenId price sale s' :
    registry_reachable s ->
    AIAssetNFT.updateAssetPrice m tokenId price sale s = Ok s' ->
    registry_reachable s'
| rr_approve s m to tokenId s' :
    registry_reachable s ->
    AIAssetNFT.approve m to tokenId s = Ok s' ->
    registry_reachable s'
| rr_transfer s caller from to tokenId s' :
    registry_reachable s ->
    AIAssetNFT.transferFrom caller from to tokenId s = Ok s' ->
    registry_reachable s'
| rr_buy s m value tokenId bal bal' s' :
    registry_reachable s ->
    AIAssetNFT.buyAsset m value tokenId (bal, s) = Ok (bal', s') ->
    registry_reachable s'.

(** A run of accepted bids on the order [orderId]: each entry is a call of
    [placeBid] with its [msg.value] and the world it returned. *)
Fixpoint bid_chain (orderId : N) (w : Marketplace.World)
    (bids : list (Msg * N * Marketplace.World)) : Prop :=
  match bids with
  | [] => True
  | (m, value, w') :: rest =>
      Marketplace.placeBid m value orderId w = Ok w' /\ bid_chain orderId w' rest
  end.

(** The order [orderId] was filled or cancelled by the call that led from
    [w0] to [w]. *)
Inductive closes (orderId : N) (w0 w : Marketplace.World) : Prop :=
| closes_buy m value :
    Marketplace.buyFixedPriceOrder m value orderId w0 = Ok w -> closes orderId w0 w
| closes_end m :
    Marketplace.endAuction m orderId w0 = Ok w -> closes orderId w0 w
| closes_cancel m :
    Marketplace.cancelOrder m orderId w0 = Ok w -> closes orderId w0 w.

(** The amount of the last recorded bid of [who], following the wording of
    the specification of [withdrawBid]; 0 when there is none. *)
Definition lastBidOf (bids : list Marketplace.Bid) (who : address) : N :=
  Marketplace.findBid (rev bids) who.

(** ** A worked scenario

    Creator [alice] mints asset 0 (royalty 2.5%, listed for direct sale at
    500) and approves the marketplace; she opens a fixed-price order, the
    first order ever and so order 0, then an auction, order 1, at time 50
    for 100 seconds with starting price 1000. [bob] and [carol] bid in turn
    and the auction is ended at its end time ([w_sold]) or cancelled by
    [alice] ([w_cancelled]). In [w_fixed1] order 1 is a second fixed-price
    order instead. The license registry is deployed apart: the
    administrator makes asset 0 licensable and [bob] grants [carol] a
    license for 100 seconds at time 1000. *)
Module Scenario.

Import Marketplace.

Definition nftAddr : address := 100.
Definition marketAddr : address := 200.
Definition licenseAddr : address := 300.
Definition admin : address := 1.
Definition alice : address := 10.
Definition bob : address := 21.
Definition carol : address := 22.

Definition funds : gmap address N :=
  <[bob := 100000]> (<[carol := 100000]> ∅).

Definition w_init : World :=
  mkWorld funds (AIAssetNFT.deploy nftAddr admin) (deploy marketAddr admin).

(** The world a successful call returned; [w_init] stands in for a call
    that reverted. *)
Definition committed (r : Result World) : World :=
  match r with Ok w => w | Revert _ => w_init end.

Definition on_nft (f : AIAssetNFT.State -> Result AIAssetNFT.State) (w : World)
  : Result World :=
  s ← f (nft w) ; Ok (mkWorld (balances w) s (market w)).

Definition w_minted : World :=
  committed (on_nft (AIAssetNFT.mintAsset (mkMsg alice 10) AIAssetNFT.MODEL
                       "Model" "A model" "1.0.0" "QmHash1" true 250 500 true)
               w_init).

Definition w_approved : World :=
  committed (on_nft (AIAssetNFT.approve (mkMsg alice 20) marketAddr 0) w_minted).

Definition w_order0 : World :=
  committed (createFixedPriceOrder (mkMsg alice 30) 0 1000 w_approved).

Definition w_fixed1 : World :=
  committed (createFixedPriceOrder (mkMsg alice 40) 0 1000 w_order0).

Definition w_auction : World :=
  committed (createAuctionOrder (mkMsg alice 50) 0 1000 100 w_order0).

Definition w_bid1 : World :=
  committed (placeBid (mkMsg bob 60) 1000 1 w_auction).

Definition w_bid2 : World :=
  committed (placeBid (mkMsg carol 70) 1500 1 w_bid1).

Definition w_bid3 : World :=
  committed (placeBid (mkMsg bob 80) 2000 1 w_bid2).

Definition w_bid4 : World :=
  committed (placeBid (mkMsg carol 90) 2500 1 w_bid3).

Definition w_sold : World :=
  committed (endAuction (mkMsg bob 150) 1 w_bid2).

Definition w_cancelled : World :=
  committed (cancelOrder (mkMsg alice 100) 1 w_bid2).

(** The three accepted bids on order 1 and the worlds they returned. *)
Definition bids3 : list (Msg * N * World) :=
  [(mkMsg bob 60, 1000, w_bid1); (mkMsg carol 70, 1500, w_bid2);
   (mkMsg bob 80, 2000, w_bid3)].

(** [bob], outbid twice, asks for his bid back. *)
Definition w_withdrawn : World :=
  committed (withdrawBid (mkMsg bob 95) 1 w_bid4).

Definition lic_init : gmap address N * LicenseManager.State :=
  (funds, LicenseManager.deploy licenseAddr admin).

Definition lic_committed
    (r : Result (gmap address N * LicenseManager.State))
  : gmap address N * LicenseManager.State :=
  match r with Ok w => w | Revert _ => lic_init end.

Definition lic_enabled : gmap address N * LicenseManager.State :=
  lic_committed
    (LicenseManager.exec (mkMsg admin 5)
       (LicenseManager.SetAssetLicensability 0 true) lic_init).

Definition lic_granted : gmap address N * LicenseManager.State :=
  lic_committed
    (LicenseManager.createLicense (mkMsg bob 1000) 700 0 carol
       LicenseManager.RESEARCH 500 100 "" lic_enabled).

(** The license granted to [carol] in [lic_granted]. *)
Definition carol_license : LicenseManager.License :=
  LicenseManager.mkLicense 0 0 bob carol LicenseManager.RESEARCH 500 100
    1000 1100 true "" 1000.

(** [bob] grants [alice] a second license, without end, and [alice]
    records a use of it. *)
Definition lic_second : gmap address N * LicenseManager.State :=
  lic_committed
    (LicenseManager.exec (mkMsg bob 1200)
       (LicenseManager.CreateLicense 500 0 alice LicenseManager.COMMERCIAL
          500 0 "") lic_granted).

Definition lic_used : gmap address N * LicenseManager.State :=
  lic_committed
    (LicenseManager.exec (mkMsg alice 1300)
       (LicenseManager.RecordUsage 1 "inference" "batch 1") lic_second).

(** A run of the asset registry after the mint of asset 0: [bob] mints a
    second asset, [alice] publishes a new version of asset 0 and [carol]
    buys it, sending 600 for the price of 500. *)
Definition reg_minted : gmap address N * AIAssetNFT.State :=
  (funds, nft w_minted).

Definition reg_committed (r : Result (gmap address N * AIAssetNFT.State))
  : gmap address N * AIAssetNFT.State :=
  match r with Ok x => x | Revert _ => reg_minted end.

Definition reg_second : gmap address N * AIAssetNFT.State :=
  reg_committed
    (AIAssetNFT.exec (mkMsg bob 20)
       (AIAssetNFT.MintAsset AIAssetNFT.DATASET "Data" "A dataset" "1.0.0"
          "QmHash2" false 0 0 false) reg_minted).

Definition reg_updated : gmap address N * AIAssetNFT.State :=
  reg_committed
    (AIAssetNFT.exec (mkMsg alice 30)
       (AIAssetNFT.UpdateAsset 0 "1.1.0" "QmHash3" "Retrained") reg_second).

Definition reg_bought : gmap address N * AIAssetNFT.State :=
  reg_committed
    (AIAssetNFT.exec (mkMsg carol 40) (AIAssetNFT.BuyAsset 600 0) reg_updated).

(** The platform owner withdraws while the bid of [carol] is in escrow. *)
Definition w_drained : World :=
  committed (withdraw (mkMsg admin 120) w_bid2).

End Scenario.


(** ** Invariants *)

(** Every content hash of every version history is non-empty and marked
    used, and the registry is not paused. *)
Definition hashes_recorded (s : AIAssetNFT.State) : Prop :=
  AIAssetNFT.paused s = false
  /\ forall tokenId v,
       v ∈ AIAssetNFT.getAssetVersions tokenId s ->
       (0 <? N.of_nat (String.length (AIAssetNFT.v_ipfsHash v))) = true
       /\ AIAssetNFT.usedIPFSHashes s !!0 AIAssetNFT.v_ipfsHash v = true.

(** [userLicenses] lists, for each account, exactly the licenses granted to
    it, and every license has an id below the counter. *)
Definition licenses_indexed (s : LicenseManager.State) : Prop :=
  (forall id, is_Some (LicenseManager.licenses s !! id) ->
              id < LicenseManager._licenseIdCounter s)
  /\ forall user id,
       id ∈ LicenseManager.userLicenses s !!0 user
       <-> exists l, LicenseManager.licenses s !! id = Some l
                     /\ LicenseManager.licensee l = user.

(** A license of [user] on [assetTokenId] that is valid at time [now]. *)
Definition valid_license_at (now : N) (user : address) (assetTokenId : N)
    (l : LicenseManager.License) : Prop :=
  LicenseManager.licensee l = user
  /\ LicenseManager.assetTokenId l = assetTokenId
  /\ LicenseManager.isActive l = true
  /\ (LicenseManager.endTime l = 0 \/ now <= LicenseManager.endTime l).


(** ** Runs of the three contracts *)

(** States of the asset registry reached from deployment by successful
    calls, pausing included, whatever the account balances are. *)
Inductive registry_state : AIAssetNFT.State -> Prop :=
| rs_deploy self deployer : registry_state (AIAssetNFT.deploy self deployer)
| rs_call s m c bal bal' s' :
    registry_state s ->
    AIAssetNFT.exec m c (bal, s) = Ok (bal', s') ->
    registry_state s'.

(** Worlds of the marketplace reached from its deployment by successful
    calls of real accounts ([msg.sender] is never the zero address), while
    the balances and the asset registry may change in any way between two
    calls. *)
Inductive market_reachable : Marketplace.World -> Prop :=
| mr_deploy bal nft self deployer :
    market_reachable (Marketplace.mkWorld bal nft (Marketplace.deploy self deployer))
| mr_call w m c w' :
    market_reachable w ->
    sender m <> zero_address ->
    Marketplace.exec m c w = Ok w' ->
    market_reachable w'
| mr_env w bal nft :
    market_reachable w ->
    market_reachable (Marketplace.mkWorld bal nft (Marketplace.market w)).

(** A run of successful calls of the asset registry from one state to
    another. *)
Inductive registry_run : AIAssetNFT.State -> AIAssetNFT.State -> Prop :=
| run_nil s : registry_run s s
| run_cons s m c bal bal' s1 s2 :
    AIAssetNFT.exec m c (bal, s) = Ok (bal', s1) ->
    registry_run s1 s2 ->
    registry_run s s2.

(** The ids [0 .. n-1], the range of the loops over a counter. *)
Definition ids_below (n : N) : list N := map N.of_nat (seq 0 (N.to_nat n)).

(** *** Invariants of the asset registry *)

(** The asset [tokenId] has been minted: it has an owner. *)
Definition minted (s : AIAssetNFT.State) (tokenId : N) : Prop :=
  ERC721._owners (AIAssetNFT.token s) !!0 tokenId <> zero_address.

(** The version history [vs] of the asset record [a]: it starts with the
    version recorded at mint time and ends with the current one. *)
Definition history_of (a : AIAssetNFT.Asset) (vs : list AIAssetNFT.Version)
  : Prop :=
  (exists v0, head vs = Some v0
              /\ AIAssetNFT.v_changelog v0 = "Initial version"
              /\ AIAssetNFT.v_timestamp v0 = AIAssetNFT.createdAt a)
  /\ (exists v, last vs = Some v
                /\ AIAssetNFT.v_ipfsHash v = AIAssetNFT.ipfsHash a
                /\ AIAssetNFT.v_version v = AIAssetNFT.version a
                /\ AIAssetNFT.v_timestamp v = AIAssetNFT.updatedAt a).

Definition registry_inv (s : AIAssetNFT.State) : Prop :=
  (forall t, is_Some (AIAssetNFT.assets s !! t) <-> minted s t)
  /\ (forall t, AIAssetNFT.assetVersions s !!0 t <> [] -> minted s t)
  /\ (forall t a, AIAssetNFT.assets s !! t = Some a ->
                  AIAssetNFT.tokenId a = t
                  /\ AIAssetNFT.royaltyPercentage a <= 1000
                  /\ AIAssetNFT.creator a <> zero_address
                  /\ history_of a (AIAssetNFT.assetVersions s !!0 t))
  /\ (forall t v, v ∈ AIAssetNFT.assetVersions s !!0 t ->
                  AIAssetNFT.usedIPFSHashes s !!0 AIAssetNFT.v_ipfsHash v = true)
  /\ (forall t1 i1 v1 t2 i2 v2,
         (AIAssetNFT.assetVersions s !!0 t1) !! i1 = Some v1 ->
         (AIAssetNFT.assetVersions s !!0 t2) !! i2 = Some v2 ->
         AIAssetNFT.v_ipfsHash v1 = AIAssetNFT.v_ipfsHash v2 ->
         t1 = t2 /\ i1 = i2)
  /\ (forall c t, t ∈ AIAssetNFT.creatorAssets s !!0 c
                  <-> exists a, AIAssetNFT.assets s !! t = Some a
                                /\ AIAssetNFT.creator a = c)
  /\ (forall c, NoDup (AIAssetNFT.creatorAssets s !!0 c)).

(** The fields of an asset record that no call changes after the mint. *)
Definition same_terms (a a' : AIAssetNFT.Asset) : Prop :=
  AIAssetNFT.tokenId a' = AIAssetNFT.tokenId a
  /\ AIAssetNFT.assetType a' = AIAssetNFT.assetType a
  /\ AIAssetNFT.name a' = AIAssetNFT.name a
  /\ AIAssetNFT.description a' = AIAssetNFT.description a
  /\ AIAssetNFT.creator a' = AIAssetNFT.creator a
  /\ AIAssetNFT.createdAt a' = AIAssetNFT.createdAt a
  /\ AIAssetNFT.isPublic a' = AIAssetNFT.isPublic a
  /\ AIAssetNFT.royaltyPercentage a' = AIAssetNFT.royaltyPercentage a.

(** The fields that only a version update changes. *)
Definition same_content (a a' : AIAssetNFT.Asset) : Prop :=
  AIAssetNFT.version a' = AIAssetNFT.version a
  /\ AIAssetNFT.ipfsHash a' = AIAssetNFT.ipfsHash a
  /\ AIAssetNFT.updatedAt a' = AIAssetNFT.updatedAt a.

(** *** Invariants of the marketplace *)

(** The bid log [bids] of the order [o]. *)
Definition bid_log_of (o : Marketplace.Order) (bids : list Marketplace.Bid)
  : Prop :=
  match last bids with
  | Some b => Marketplace.highestBidder o = Marketplace.bidder b
              /\ Marketplace.highestBid o = Marketplace.amount b
  | None => Marketplace.highestBidder o = zero_address
            /\ Marketplace.highestBid o = 0
  end
  /\ StronglySorted N.lt (map Marketplace.amount bids)
  /\ Forall (fun b => Marketplace.price o <= Marketplace.amount b
                      /\ Marketplace.bidder b <> zero_address
                      /\ Marketplace.bidder b <> Marketplace.seller o) bids
  /\ (Marketplace.isAuction o = false -> bids = []).

Definition market_inv (s : Marketplace.State) : Prop :=
  Marketplace.marketplaceFee s <= Marketplace.MAX_FEE
  /\ (forall id o, Marketplace.orders s !! id = Some o ->
                   Marketplace.orderId o = id
                   /\ id < Marketplace._orderIdCounter s
                   /\ 0 < Marketplace.price o
                   /\ Marketplace.seller o <> zero_address
                   /\ (Marketplace.isActive o = true ->
                       Marketplace.buyer o = zero_address)
                   /\ (Marketplace.isAuction o = false ->
                       Marketplace.endTime o = 0)
                   /\ bid_log_of o (Marketplace.orderBids s !!0 id))
  /\ (forall id, Marketplace.orders s !! id = None ->
                 Marketplace.orderBids s !!0 id = [])
  /\ (forall u id, id ∈ Marketplace.userOrders s !!0 u
                   <-> exists o, Marketplace.orders s !! id = Some o
                                 /\ Marketplace.seller o = u)
  /\ (forall u, NoDup (Marketplace.userOrders s !!0 u))
  /\ (forall u id, id ∈ Marketplace.userBids s !!0 u
                   <-> exists b, b ∈ Marketplace.orderBids s !!0 id
                                 /\ Marketplace.bidder b = u).

(** *** Invariants of the license registry *)

(** The fields of a license that no call changes after its creation: all
    but [isActive]. *)
Definition same_license_terms (l l' : LicenseManager.License) : Prop :=
  LicenseManager.set_isActive true l' = LicenseManager.set_isActive true l.

(** Single settings of the licensable flag, one after the other. *)
Fixpoint set_each (m : Msg) (ids : list N) (flags : list bool)
    (s : LicenseManager.State) : Result LicenseManager.State :=
  match ids, flags with
  | id :: ids', b :: flags' =>
      s1 ← LicenseManager.setAssetLicensability m id b s ;
      set_each m ids' flags' s1
  | _, _ => Ok s
  end.

Definition license_inv (s : LicenseManager.State) : Prop :=
  (forall id l, LicenseManager.licenses s !! id = Some l ->
                LicenseManager.licenseId l = id
                /\ id < LicenseManager._licenseIdCounter s
                /\ LicenseManager.licensee l <> zero_address
                /\ LicenseManager.licensee l <> LicenseManager.licensor l
                /\ LicenseManager.startTime l = LicenseManager.createdAt l
                /\ LicenseManager.endTime l
                   = (if 0 <? LicenseManager.duration l
                      then LicenseManager.startTime l + LicenseManager.duration l
                      else 0))
  /\ (forall u id, id ∈ LicenseManager.userIssuedLicenses s !!0 u
                   <-> exists l, LicenseManager.licenses s !! id = Some l
                                 /\ LicenseManager.licensor l = u)
  /\ (forall l, LicenseManager.licenses s !! 0 = Some l ->
                 LicenseManager.isActive l = true)
  /\ (forall u, NoDup (LicenseManager.userLicenses s !!0 u))
  /\ (forall u, NoDup (LicenseManager.userIssuedLicenses s !!0 u))
  /\ (forall id r, r ∈ LicenseManager.licenseUsage s !!0 id ->
                   exists l, LicenseManager.licenses s !! id = Some l
                             /\ id <> 0
                             /\ LicenseManager.u_licenseId r = id
                             /\ LicenseManager.u_user r = LicenseManager.licensee l
                             /\ (LicenseManager.endTime l = 0
                                 \/ LicenseManager.u_timestamp r
                                    <= LicenseManager.endTime l)).

(** * Properties *)

(** ** Reasoning about calls *)

Lemma bind_Ok {A B : Type} (c : Result A) (k : A -> Result B) (b : B) :
  c ≫= k = Ok b -> exists a, c = Ok a /\ k a = Ok b.
Proof.
  destruct c as [a | r]; cbn; intros H; [eauto | discriminate].
Qed.

Lemma require_Ok (cond : bool) (reason : string) (u : unit) :
  require cond reason = Ok u -> cond = true.
Proof. destruct cond; [reflexivity | discriminate]. Qed.

(** Split a successful call into the successful steps it is made of. *)
Ltac inv_ok :=
  repeat match goal with
    | H : _ ≫= _ = Ok _ |- _ =>
        let x := fresh "x" in
        let Hx := fresh "Hx" in
        apply bind_Ok in H; destruct H as (x & Hx & H)
    | H : require _ _ = Ok _ |- _ => apply require_Ok in H
    | H : Ok _ = Ok _ |- _ => injection H as H
    | H : (if ?c then _ else _) = Ok _ |- _ =>
        let E := fresh "E" in destruct c eqn:E
    | H : Revert _ = Ok _ |- _ => discriminate H
    end.

Lemma read_insert {K V : Type} `{Countable K} `{Zero V}
    (m : gmap K V) (k k' : K) (v : V) :
  (<[k := v]> m) !!0 k' = if decide (k = k') then v else m !!0 k'.
Proof.
  unfold read. rewrite lookup_insert. destruct (decide (k = k')); reflexivity.
Qed.

Lemma balanceOf_move (from to : address) (amount : N) (bal : gmap address N)
    (a : address) :
  balanceOf (move from to amount bal) a =
    if decide (to = a)
    then (if decide (from = to) then balanceOf bal from - amount
          else balanceOf bal to) + amount
    else if decide (from = a) then balanceOf bal from - amount
         else balanceOf bal a.
Proof.
  unfold move, balanceOf. rewrite !read_insert.
  repeat case_decide; subst; try congruence; reflexivity.
Qed.

Lemma balanceOf_move_ext (from to : address) (amount : N)
    (bal1 bal2 : gmap address N) :
  (forall a, balanceOf bal1 a = balanceOf bal2 a) ->
  forall a, balanceOf (move from to amount bal1) a
            = balanceOf (move from to amount bal2) a.
Proof.
  intros Hext a. rewrite !balanceOf_move, !Hext. reflexivity.
Qed.

Lemma balanceOf_move_0 (from to : address) (bal : gmap address N) (a : address) :
  balanceOf (move from to 0 bal) a = balanceOf bal a.
Proof.
  rewrite balanceOf_move.
  repeat case_decide; subst; try congruence; lia.
Qed.

Lemma transfer_Ok (this to : address) (amount : N) (bal bal' : gmap address N) :
  transfer this to amount bal = Ok bal' ->
  amount <= balanceOf bal this /\ bal' = move this to amount bal.
Proof.
  unfold transfer. destruct (amount <=? balanceOf bal this) eqn:E; [|discriminate].
  intros [= <-]. split; [lia | reflexivity].
Qed.

Lemma transfer_funded (this to : address) (amount : N) (bal : gmap address N) :
  amount <= balanceOf bal this ->
  transfer this to amount bal = Ok (move this to amount bal).
Proof.
  intros Hle. unfold transfer.
  destruct (amount <=? balanceOf bal this) eqn:E; [reflexivity | lia].
Qed.

Lemma receive_Ok (this : address) (m : Msg) (value : N) (bal bal' : gmap address N) :
  receive this m value bal = Ok bal' ->
  value <= balanceOf bal (sender m) /\ bal' = move (sender m) this value bal.
Proof.
  unfold receive. destruct (value <=? balanceOf bal (sender m)) eqn:E; [|discriminate].
  intros [= <-]. split; [lia | reflexivity].
Qed.

Lemma receive_funded (this : address) (m : Msg) (value : N) (bal : gmap address N) :
  value <= balanceOf bal (sender m) ->
  receive this m value bal = Ok (move (sender m) this value bal).
Proof.
  intros Hle. unfold receive.
  destruct (value <=? balanceOf bal (sender m)) eqn:E; [reflexivity | lia].
Qed.

(** ** Settlement arithmetic *)

Section Settlement.

Import Marketplace.

Lemma bps_share_le (price bps : N) :
  bps <= 1000 -> price * bps / 10000 <= price / 10.
Proof.
  intros Hb.
  transitivity (price * 1000 / 10000).
  - apply N.Div0.div_le_mono. nia.
  - replace 10000 with (1000 * 10) by reflexivity.
    rewrite <- N.Div0.div_div, N.div_mul by lia. reflexivity.
Qed.

Lemma shares_fit (price feeBps royaltyBps : N) :
  feeBps <= 1000 -> royaltyBps <= 1000 ->
  price * feeBps / 10000 + price * royaltyBps / 10000 <= price.
Proof.
  intros Hf Hr.
  pose proof (bps_share_le price feeBps Hf).
  pose proof (bps_share_le price royaltyBps Hr).
  assert (10 * (price / 10) <= price) by (apply N.Div0.mul_div_le).
  lia.
Qed.

Lemma saleAmounts_Ok (price feeBps royaltyBps fee royalty sellerAmount : N) :
  saleAmounts price feeBps royaltyBps = Ok (fee, royalty, sellerAmount) ->
  fee = price * feeBps / 10000
  /\ royalty = price * royaltyBps / 10000
  /\ fee + royalty <= price
  /\ sellerAmount = price - fee - royalty.
Proof.
  unfold saleAmounts, checked_mul, checked_sub. intros H. inv_ok.
  subst. repeat split; lia.
Qed.

Lemma saleAmounts_total (price feeBps royaltyBps : N) :
  feeBps <= 1000 -> royaltyBps <= 1000 ->
  price * feeBps < modulus -> price * royaltyBps < modulus ->
  saleAmounts price feeBps royaltyBps
  = Ok (price * feeBps / 10000, price * royaltyBps / 10000,
        price - price * feeBps / 10000 - price * royaltyBps / 10000).
Proof.
  intros Hf Hr Hof Hor.
  pose proof (shares_fit price feeBps royaltyBps Hf Hr).
  unfold saleAmounts, checked_mul, checked_sub.
  destruct (price * feeBps <? modulus) eqn:E1; [|lia]. cbn.
  destruct (price * royaltyBps <? modulus) eqn:E2; [|lia]. cbn.
  destruct (price * feeBps / 10000 <=? price) eqn:E3; [|lia]. cbn.
  destruct (price * royaltyBps / 10000 <=? price - price * feeBps / 10000) eqn:E4;
    [|lia].
  reflexivity.
Qed.

(** C2. A settled sale at [price], with the fee rate and the royalty rate
    both at most 1000 basis points, pays fee = floor(price*feeBps/10000),
    royalty = floor(price*royaltyBps/10000) and
    sellerAmount = price - fee - royalty: the subtraction does not
    underflow, the three amounts add up to [price] exactly, the amounts
    are computed whenever the two products fit in 256 bits, and they are
    what [_executeSale] pays to the platform owner, the creator and the
    seller. *)
Theorem settlement_conservation (price feeBps royaltyBps : N) :
  feeBps <= 1000 -> royaltyBps <= 1000 ->
  let fee := price * feeBps / 10000 in
  let royalty := price * royaltyBps / 10000 in
  let sellerAmount := price - fee - royalty in
  fee + royalty <= price
  /\ sellerAmount + royalty + fee = price
  /\ (price * feeBps < modulus -> price * royaltyBps < modulus ->
      saleAmounts price feeBps royaltyBps = Ok (fee, royalty, sellerAmount))
  /\ (forall orderId buyer w w',
        marketplaceFee (market w) = feeBps ->
        AIAssetNFT.royaltyPercentage
          (AIAssetNFT.getAsset (assetTokenId (orders (market w) !!0 orderId))
             (nft w)) = royaltyBps ->
        _executeSale orderId buyer price w = Ok w' ->
        let order := orders (market w) !!0 orderId in
        let asset := AIAssetNFT.getAsset (assetTokenId order) (nft w) in
        let self := this (market w) in
        saleAmounts price feeBps royaltyBps = Ok (fee, royalty, sellerAmount)
        /\ forall a,
             balanceOf (balances w') a
             = balanceOf
                 (move self (owner (market w)) fee
                    (move self (seller order) sellerAmount
                       (move self (AIAssetNFT.creator asset) royalty
                          (balances w)))) a).
Proof.
  intros Hf Hr fee royalty sellerAmount.
  pose proof (shares_fit price feeBps royaltyBps Hf Hr) as Hfit.
  split; [exact Hfit|]. split; [subst fee royalty sellerAmount; lia|].
  split; [apply saleAmounts_total; assumption|].
  intros orderId buyer w w' Hfee Hroy Hsale order asset self.
  unfold _executeSale in Hsale. rewrite Hfee, Hroy in Hsale.
  apply bind_Ok in Hsale as ([[fee' royalty'] seller'] & Hamounts & Hsale).
  pose proof (saleAmounts_Ok _ _ _ _ _ _ Hamounts) as (-> & -> & _ & ->).
  split; [exact Hamounts|].
  apply bind_Ok in Hsale as (nft1 & _ & Hsale).
  apply bind_Ok in Hsale as (bal1 & Hpay1 & Hsale).
  apply bind_Ok in Hsale as (bal2 & Hpay2 & Hsale).
  apply bind_Ok in Hsale as (bal3 & Hpay3 & Hsale).
  injection Hsale as <-. cbn [balances].
  fold order asset self fee royalty sellerAmount in Hpay1, Hpay2, Hpay3.
  apply transfer_Ok in Hpay2 as [_ ->].
  assert (forall a, balanceOf bal1 a
                    = balanceOf (move self (AIAssetNFT.creator asset) royalty
                                   (balances w)) a) as Hb1.
  { intros a. destruct (0 <? royalty) eqn:E.
    - apply transfer_Ok in Hpay1 as [_ ->]. reflexivity.
    - injection Hpay1 as <-. replace royalty with 0 by lia.
      rewrite balanceOf_move_0. reflexivity. }
  intros a. destruct (0 <? fee) eqn:E.
  - apply transfer_Ok in Hpay3 as [_ ->].
    apply balanceOf_move_ext, balanceOf_move_ext. exact Hb1.
  - injection Hpay3 as <-. replace fee with 0 by lia.
    rewrite balanceOf_move_0.
    apply balanceOf_move_ext. exact Hb1.
Qed.

End Settlement.

(** ** The order book *)

Section OrderBook.

Import Marketplace.

Lemma read_insert_eq {K V : Type} `{Countable K} `{Zero V}
    (m : gmap K V) (k : K) (v : V) :
  (<[k := v]> m) !!0 k = v.
Proof. rewrite read_insert. case_decide; [reflexivity | congruence]. Qed.

(** What an accepted bid checked and what it changed. *)
Lemma placeBid_Ok (m : Msg) (value orderId : N) (w w' : World) :
  placeBid m value orderId w = Ok w' ->
  let s := market w in
  let o := orders s !!0 orderId in
  let escrow := move (sender m) (this s) value (balances w) in
  (Marketplace.orderId o <> 0 /\ isActive o = true /\ timestamp m <= endTime o
   /\ isAuction o = true /\ sender m <> seller o
   /\ highestBid o < value /\ price o <= value)
  /\ orders (market w') !!0 orderId = raise m value o
  /\ orderBids (market w') !!0 orderId
     = push (orderBids s !!0 orderId) (mkBid (sender m) value (timestamp m))
  /\ this (market w') = this s
  /\ balances w'
     = if negb (highestBidder o =? zero_address)
       then move (this s) (highestBidder o) (highestBid o) escrow
       else escrow.
Proof.
  intros H s o escrow. unfold placeBid, validOrder, activeOrder in H.
  apply bind_Ok in H as (bal & Hrecv & H).
  apply receive_Ok in Hrecv as [_ ->].
  fold s o escrow in H.
  apply bind_Ok in H as (? & Hvalid%require_Ok & H).
  apply bind_Ok in H as (? & Hactive & H).
  apply bind_Ok in Hactive as (? & Hact%require_Ok & Hexp%require_Ok).
  apply bind_Ok in H as (? & Hkind%require_Ok & H).
  apply bind_Ok in H as (? & Hself%require_Ok & H).
  apply bind_Ok in H as (? & Hhigh%require_Ok & H).
  apply bind_Ok in H as (? & Hstart%require_Ok & H).
  apply bind_Ok in H as (bal1 & Hrefund & H).
  injection H as <-. cbn [market orders orderBids this balances].
  rewrite !read_insert_eq.
  split; [repeat split; try assumption; lia|].
  repeat split.
  destruct (negb (highestBidder o =? zero_address)).
  - apply transfer_Ok in Hrefund as [_ ->]. reflexivity.
  - injection Hrefund as <-. reflexivity.
Qed.

Lemma bid_chain_price (orderId : N) (bids : list (Msg * N * World)) :
  forall w0, bid_chain orderId w0 bids ->
  Forall (fun e => price (orders (market e.2) !!0 orderId)
                   = price (orders (market w0) !!0 orderId)) bids.
Proof.
  induction bids as [| [[m value] w1] rest IH]; intros w0 Hchain; [constructor|].
  destruct Hchain as [Hbid Hrest].
  apply placeBid_Ok in Hbid as (_ & Horder & _).
  assert (price (orders (market w1) !!0 orderId)
          = price (orders (market w0) !!0 orderId)) as Hp
    by (rewrite Horder; reflexivity).
  constructor; [exact Hp|].
  eapply Forall_impl; [apply IH, Hrest|].
  intros e He. cbn in He. congruence.
Qed.

(** C5. Along any run of accepted bids on one order, the highest bid is
    strictly increasing, every accepted bid becomes the highest bid, is at
    least the starting price and makes its bidder the highest bidder, and
    the world returned by a bid that displaces the previous bidder already
    holds the refund of that bidder's full bid: its balances are those
    before the bid with the new value moved into the contract and the
    previous bid moved back to the previous bidder. *)
Theorem auction_monotonic (orderId : N) (w0 : World)
    (bids : list (Msg * N * World)) :
  Forall (fun e => sender e.1.1 <> zero_address) bids ->
  bid_chain orderId w0 bids ->
  let order := fun w => orders (market w) !!0 orderId in
  StronglySorted N.lt
    (highestBid (order w0) :: map (fun e => highestBid (order e.2)) bids)
  /\ Forall (fun e =>
               highestBid (order e.2) = e.1.2
               /\ price (order w0) <= e.1.2
               /\ highestBidder (order e.2) = sender e.1.1) bids
  /\ forall i m1 v1 w1 m2 v2 w2,
       bids !! i = Some (m1, v1, w1) ->
       bids !! (S i) = Some (m2, v2, w2) ->
       balances w2
       = move (this (market w1)) (sender m1) v1
           (move (sender m2) (this (market w1)) v2 (balances w1)).
Proof.
  intros Hsenders Hchain order. revert w0 Hsenders Hchain.
  induction bids as [| [[m value] w1] rest IH]; intros w0 Hsenders Hchain.
  - repeat split.
    + repeat constructor.
    + constructor.
    + intros i ? ? ? ? ? ? Hi. rewrite lookup_nil in Hi. discriminate.
  - destruct Hchain as [Hbid Hrest].
    apply Forall_cons in Hsenders as [Hsender Hsenders].
    pose proof (bid_chain_price orderId rest w1 Hrest) as Hprices.
    destruct (IH w1 Hsenders Hrest) as (Hsorted & Heach & Hrefunds).
    apply placeBid_Ok in Hbid as (Hchecks & Horder & _ & _ & _).
    destruct Hchecks as (_ & _ & _ & _ & _ & Hhigh & Hstart).
    assert (highestBid (order w1) = value) as Hhb
      by (unfold order; rewrite Horder; reflexivity).
    assert (highestBidder (order w1) = sender m) as Hbidder
      by (unfold order; rewrite Horder; reflexivity).
    assert (price (order w1) = price (order w0)) as Hprice
      by (unfold order; rewrite Horder; reflexivity).
    split; [|split].
    + cbn [map]. constructor; [exact Hsorted|].
      apply StronglySorted_inv in Hsorted as [_ Hlater].
      cbn [snd]. fold (order w1). rewrite Hhb in *.
      constructor; [exact Hhigh|].
      eapply Forall_impl; [exact Hlater|]. cbn. intros x Hx.
      eapply N.lt_trans; [exact Hhigh | exact Hx].
    + constructor.
      * cbn. fold (order w1). rewrite Hhb, Hbidder. repeat split.
        fold (order w0). exact Hstart.
      * eapply Forall_impl; [exact Heach|]. cbn.
        intros e (He1 & He2 & He3). repeat split; try assumption.
        fold (order w1) in He2. rewrite Hprice in He2. exact He2.
    + intros i m1 v1 w1' m2 v2 w2 Hi HSi. destruct i as [| i].
      * cbn in Hi. injection Hi as -> -> ->.
        destruct rest as [| [[m2' v2'] w2'] rest']; [discriminate|].
        cbn in HSi. injection HSi as -> -> ->.
        destruct Hrest as [Hbid2 _].
        apply placeBid_Ok in Hbid2 as (_ & _ & _ & _ & Hbal).
        fold (order w1') in Hbal. rewrite Hhb, Hbidder in Hbal.
        cbn in Hsender.
        destruct (negb (sender m1 =? zero_address)) eqn:E; [exact Hbal|].
        unfold zero_address in *. lia.
      * cbn in Hi, HSi. eapply Hrefunds; eassumption.
Qed.

(** *** Fixed-price orders *)

Lemma createFixedPriceOrder_Ok (m : Msg) (asset price : N) (w w' : World) :
  createFixedPriceOrder m asset price w = Ok w' ->
  let id := _orderIdCounter (market w) in
  orders (market w') !!0 id
  = mkOrder id asset (sender m) zero_address price (timestamp m) 0
      true false 0 zero_address
  /\ balances w' = balances w /\ nft w' = nft w
  /\ this (market w') = this (market w).
Proof.
  intros H id. unfold createFixedPriceOrder in H.
  apply bind_Ok in H as (? & _ & H).
  apply bind_Ok in H as (? & _ & H).
  apply bind_Ok in H as (? & _ & H).
  apply bind_Ok in H as (counter & _ & H).
  injection H as <-. cbn. rewrite read_insert_eq. repeat split.
Qed.

(** C1 (what the code does instead). A fixed-price order is created with
    [endTime = 0] and [activeOrder] demands [block.timestamp <= endTime]:
    at any positive time a funded [buyFixedPriceOrder] on the order just
    created reverts, with "Order expired" or, for the very first order
    (id 0), with "Order does not exist", whoever the buyer is and whatever
    they pay. *)
Theorem fixed_price_order_cannot_be_bought (m0 : Msg) (asset price : N)
    (w0 w : World) (m : Msg) (value : N) :
  createFixedPriceOrder m0 asset price w0 = Ok w ->
  0 < timestamp m ->
  value <= balanceOf (balances w) (sender m) ->
  let id := _orderIdCounter (market w0) in
  endTime (orders (market w) !!0 id) = 0
  /\ isActive (orders (market w) !!0 id) = true
  /\ buyFixedPriceOrder m value id w
     = Revert (if id =? 0 then NotFound else OrderExpired).
Proof.
  intros Hcreate Htime Hfunds id.
  apply createFixedPriceOrder_Ok in Hcreate as (Horder & _ & _ & _).
  fold id in Horder. rewrite Horder. cbn [endTime isActive].
  split; [reflexivity|]. split; [reflexivity|].
  unfold buyFixedPriceOrder. rewrite (receive_funded _ _ _ _ Hfunds). cbn.
  unfold validOrder, activeOrder. rewrite Horder. cbn [orderId isActive endTime].
  destruct (id =? 0) eqn:E; cbn; [reflexivity|].
  destruct (timestamp m <=? 0) eqn:E'; [lia | reflexivity].
Qed.

(** *** Settlement and ownership *)

Lemma ownerOf_Ok (tokenId : N) (t : ERC721.State) (o : address) :
  ERC721.ownerOf tokenId t = Ok o ->
  o = ERC721._owners t !!0 tokenId /\ o <> zero_address.
Proof.
  unfold ERC721.ownerOf. intros H.
  apply bind_Ok in H as (? & Hnz%require_Ok & H). injection H as <-.
  split; [reflexivity|]. unfold zero_address in *. lia.
Qed.

Lemma _transfer_Ok (from to : address) (tokenId : N) (s s' : AIAssetNFT.State) :
  AIAssetNFT._transfer from to tokenId s = Ok s' ->
  s' = AIAssetNFT.set_token
         (ERC721.set_owner_of tokenId to (AIAssetNFT.token s)) s
  /\ to <> zero_address
  /\ AIAssetNFT.ownerOf tokenId s = Ok from.
Proof.
  unfold AIAssetNFT._transfer, AIAssetNFT.ownerOf, ERC721._transfer. intros H.
  apply bind_Ok in H as (t & H & [= <-]).
  apply bind_Ok in H as (o & Howner & H).
  apply bind_Ok in H as (? & Hfrom%require_Ok & H).
  apply bind_Ok in H as (? & Hto%require_Ok & H).
  injection H as <-. repeat split.
  - unfold zero_address in *. lia.
  - rewrite Howner. f_equal. lia.
Qed.

Lemma ownerOf_set_owner_of (tokenId : N) (to : address) (s : AIAssetNFT.State) :
  to <> zero_address ->
  AIAssetNFT.ownerOf tokenId
    (AIAssetNFT.set_token
       (ERC721.set_owner_of tokenId to (AIAssetNFT.token s)) s) = Ok to.
Proof.
  intros Hto. unfold AIAssetNFT.ownerOf, ERC721.ownerOf, ERC721.set_owner_of. cbn.
  rewrite read_insert_eq.
  destruct (negb (to =? zero_address)) eqn:E; [reflexivity|].
  unfold zero_address in *. lia.
Qed.

Lemma transferFrom_Ok (caller from to : address) (tokenId : N)
    (s s' : AIAssetNFT.State) :
  AIAssetNFT.transferFrom caller from to tokenId s = Ok s' ->
  AIAssetNFT._transfer from to tokenId s = Ok s'
  /\ AIAssetNFT.assets s' = AIAssetNFT.assets s
  /\ AIAssetNFT.ownerOf tokenId s = Ok from
  /\ AIAssetNFT.ownerOf tokenId s' = Ok to.
Proof.
  unfold AIAssetNFT.transferFrom, ERC721.transferFrom. intros H.
  apply bind_Ok in H as (t & H & [= <-]).
  apply bind_Ok in H as (ok & _ & H).
  apply bind_Ok in H as (? & _ & H).
  assert (AIAssetNFT._transfer from to tokenId s = Ok (AIAssetNFT.set_token t s))
    as Htransfer by (unfold AIAssetNFT._transfer; rewrite H; reflexivity).
  split; [exact Htransfer|].
  apply _transfer_Ok in Htransfer as (Hs' & Hto & Hfrom).
  rewrite Hs'. repeat split; [exact Hfrom|]. apply ownerOf_set_owner_of, Hto.
Qed.

Lemma _executeSale_Ok (orderId : N) (buyer : address) (price : N) (w w' : World) :
  _executeSale orderId buyer price w = Ok w' ->
  let o := orders (market w) !!0 orderId in
  orders (market w') !!0 orderId = fill buyer o
  /\ AIAssetNFT.assets (nft w') = AIAssetNFT.assets (nft w)
  /\ AIAssetNFT.ownerOf (assetTokenId o) (nft w) = Ok (seller o)
  /\ AIAssetNFT.ownerOf (assetTokenId o) (nft w') = Ok buyer.
Proof.
  intros H o. unfold _executeSale in H. fold o in H.
  apply bind_Ok in H as ([[fee royalty] sellerAmount] & _ & H).
  apply bind_Ok in H as (nft1 & Hnft & H).
  apply bind_Ok in H as (bal1 & _ & H).
  apply bind_Ok in H as (bal2 & _ & H).
  apply bind_Ok in H as (bal3 & _ & H).
  injection H as <-. cbn [market nft orders set_orders].
  rewrite read_insert_eq.
  apply transferFrom_Ok in Hnft as (_ & Hassets & Hfrom & Hto).
  repeat split; assumption.
Qed.

(** The direct-buy path: [buyAsset] makes the buyer the owner and resets
    the sale terms of the asset. *)
Lemma buyAsset_clears_sale_terms (m : Msg) (value tokenId : N)
    (bal bal' : gmap address N) (s s' : AIAssetNFT.State) :
  AIAssetNFT.buyAsset m value tokenId (bal, s) = Ok (bal', s') ->
  AIAssetNFT.ownerOf tokenId s' = Ok (sender m)
  /\ AIAssetNFT.isForSale (AIAssetNFT.assets s' !!0 tokenId) = false
  /\ AIAssetNFT.price (AIAssetNFT.assets s' !!0 tokenId) = 0.
Proof.
  unfold AIAssetNFT.buyAsset. cbn [fst snd]. intros H.
  apply bind_Ok in H as (bal0 & _ & H).
  apply bind_Ok in H as (? & _ & H).
  apply bind_Ok in H as (? & _ & H).
  apply bind_Ok in H as (? & _ & H).
  apply bind_Ok in H as (o & _ & H).
  apply bind_Ok in H as (? & _ & H).
  apply bind_Ok in H as (seller & _ & H).
  apply bind_Ok in H as (p & _ & H).
  apply bind_Ok in H as (sellerAmount & _ & H).
  apply bind_Ok in H as (s1 & Htransfer & H).
  apply bind_Ok in H as (bal1 & _ & H).
  apply bind_Ok in H as (bal2 & _ & H).
  apply bind_Ok in H as (bal3 & _ & H).
  injection H as _ <-.
  apply _transfer_Ok in Htransfer as (-> & Hto & _).
  split.
  - apply (ownerOf_set_owner_of tokenId (sender m) s Hto).
  - cbn. rewrite read_insert_eq. split; reflexivity.
Qed.

(** C4 (what the code does instead). Settlement through the order book
    makes the buyer the owner of the asset but leaves the asset records
    untouched: an asset that was listed for direct sale keeps its
    [isForSale] flag and its [price] after the sale. *)
Theorem executeSale_keeps_sale_terms (orderId : N) (buyer : address)
    (price : N) (w w' : World) :
  _executeSale orderId buyer price w = Ok w' ->
  let tokenId := assetTokenId (orders (market w) !!0 orderId) in
  AIAssetNFT.ownerOf tokenId (nft w') = Ok buyer
  /\ AIAssetNFT.isForSale (AIAssetNFT.getAsset tokenId (nft w'))
     = AIAssetNFT.isForSale (AIAssetNFT.getAsset tokenId (nft w))
  /\ AIAssetNFT.price (AIAssetNFT.getAsset tokenId (nft w'))
     = AIAssetNFT.price (AIAssetNFT.getAsset tokenId (nft w)).
Proof.
  intros H tokenId.
  apply _executeSale_Ok in H as (_ & Hassets & _ & Howner).
  unfold AIAssetNFT.getAsset. rewrite Hassets. repeat split. exact Howner.
Qed.

(** *** Closed orders *)

Lemma buyFixedPriceOrder_Ok (m : Msg) (value orderId : N) (w w' : World) :
  buyFixedPriceOrder m value orderId w = Ok w' ->
  let o := orders (market w) !!0 orderId in
  Marketplace.orderId o <> 0
  /\ orders (market w') !!0 orderId = fill (sender m) o.
Proof.
  intros H o. unfold buyFixedPriceOrder, validOrder in H. fold o in H.
  apply bind_Ok in H as (bal & _ & H).
  apply bind_Ok in H as (? & Hvalid%require_Ok & H).
  apply bind_Ok in H as (? & _ & H).
  apply bind_Ok in H as (? & _ & H).
  apply bind_Ok in H as (? & _ & H).
  apply bind_Ok in H as (? & _ & H).
  apply _executeSale_Ok in H as (Hfill & _).
  split; [lia | exact Hfill].
Qed.

Lemma endAuction_Ok (m : Msg) (orderId : N) (w w' : World) :
  endAuction m orderId w = Ok w' ->
  let o := orders (market w) !!0 orderId in
  Marketplace.orderId o <> 0
  /\ orders (market w') !!0 orderId = fill (highestBidder o) o.
Proof.
  intros H o. unfold endAuction, validOrder in H. fold o in H.
  apply bind_Ok in H as (? & Hvalid%require_Ok & H).
  apply bind_Ok in H as (? & _ & H).
  apply bind_Ok in H as (? & _ & H).
  apply bind_Ok in H as (? & _ & H).
  apply bind_Ok in H as (? & _ & H).
  apply _executeSale_Ok in H as (Hfill & _).
  split; [lia | exact Hfill].
Qed.

Lemma cancelOrder_Ok (m : Msg) (orderId : N) (w w' : World) :
  cancelOrder m orderId w = Ok w' ->
  let o := orders (market w) !!0 orderId in
  Marketplace.orderId o <> 0
  /\ orders (market w') !!0 orderId = deactivate o.
Proof.
  intros H o. unfold cancelOrder, validOrder in H. fold o in H.
  apply bind_Ok in H as (? & Hvalid%require_Ok & H).
  apply bind_Ok in H as (? & _ & H).
  apply bind_Ok in H as (? & _ & H).
  apply bind_Ok in H as (? & _ & H).
  apply bind_Ok in H as (bal & _ & H).
  injection H as <-. cbn [market orders set_orders].
  rewrite read_insert_eq. split; [lia | reflexivity].
Qed.

Lemma closes_inactive (orderId : N) (w0 w : World) :
  closes orderId w0 w ->
  Marketplace.orderId (orders (market w) !!0 orderId) <> 0
  /\ isActive (orders (market w) !!0 orderId) = false.
Proof.
  intros [m value H | m H | m H].
  - apply buyFixedPriceOrder_Ok in H as (Hid & ->). split; [exact Hid | reflexivity].
  - apply endAuction_Ok in H as (Hid & ->). split; [exact Hid | reflexivity].
  - apply cancelOrder_Ok in H as (Hid & ->). split; [exact Hid | reflexivity].
Qed.

(** Calls on an order that exists and is not active. *)
Lemma inactive_order_calls (m : Msg) (value orderId : N) (w : World) :
  let o := orders (market w) !!0 orderId in
  Marketplace.orderId o <> 0 ->
  isActive o = false ->
  (value <= balanceOf (balances w) (sender m) ->
   buyFixedPriceOrder m value orderId w = Revert OrderInactive)
  /\ cancelOrder m orderId w
     = Revert (if seller o =? sender m then OrderInactive else NotSeller)
  /\ endAuction m orderId w
     = Revert (if isAuction o
               then if endTime o <=? timestamp m then AlreadyEnded
                    else NotExpired
               else WrongOrderKind_fixed).
Proof.
  intros o Hid Hinactive.
  assert (negb (Marketplace.orderId o =? 0) = true) as Hvalid by lia.
  split; [|split].
  - intros Hfunds. unfold buyFixedPriceOrder, validOrder, activeOrder.
    rewrite (receive_funded _ _ _ _ Hfunds). cbn. fold o.
    rewrite Hvalid, Hinactive. reflexivity.
  - unfold cancelOrder, validOrder. fold o. rewrite Hvalid, Hinactive. cbn.
    destruct (seller o =? sender m); reflexivity.
  - unfold endAuction, validOrder. fold o. rewrite Hvalid, Hinactive. cbn.
    destruct (isAuction o); cbn; [|reflexivity].
    destruct (endTime o <=? timestamp m); reflexivity.
Qed.

(** C6 (amended). Once an order has been filled or cancelled, a further
    [buyFixedPriceOrder], [cancelOrder] or [endAuction] on it reverts, so
    the transaction moves no value and leaves the whole state as it was.
    The reason is "Order not active" for a funded [buyFixedPriceOrder] and
    for [cancelOrder] by the seller ("Not the order owner" for another
    caller); for [endAuction] on an auction it is "Auction already ended"
    once the end time is reached and "Auction not ended yet" before it,
    and "This is not an auction order" on a fixed-price order. *)
Theorem no_double_settlement (orderId : N) (w0 w : World) (m : Msg) (value : N) :
  closes orderId w0 w ->
  let o := orders (market w) !!0 orderId in
  (value <= balanceOf (balances w) (sender m) ->
   transact (buyFixedPriceOrder m value orderId) w = (w, Some OrderInactive))
  /\ transact (cancelOrder m orderId) w
     = (w, Some (if seller o =? sender m then OrderInactive else NotSeller))
  /\ transact (endAuction m orderId) w
     = (w, Some (if isAuction o
                 then if endTime o <=? timestamp m then AlreadyEnded
                      else NotExpired
                 else WrongOrderKind_fixed)).
Proof.
  intros Hclosed o.
  apply closes_inactive in Hclosed as [Hid Hinactive].
  destruct (inactive_order_calls m value orderId w Hid Hinactive)
    as (Hbuy & Hcancel & Hend).
  unfold transact. fold o in Hcancel, Hend. rewrite Hcancel, Hend.
  repeat split. intros Hfunds. rewrite (Hbuy Hfunds). reflexivity.
Qed.

(** *** Withdrawing bids *)

Lemma findBid_none (bids : list Bid) (who : address) :
  Forall (fun b => bidder b <> who) bids -> findBid bids who = 0.
Proof.
  induction 1 as [| b rest Hb _ IH]; cbn; [reflexivity|].
  destruct (bidder b =? who) eqn:E; [lia | exact IH].
Qed.

Lemma findBid_first (earlier later : list Bid) (b : Bid) (who : address) :
  Forall (fun b' => bidder b' <> who) earlier ->
  bidder b = who ->
  findBid (earlier ++ b :: later)%list who = amount b.
Proof.
  intros Hearlier Hb.
  induction Hearlier as [| b' rest Hb' _ IH]; cbn.
  - destruct (bidder b =? who) eqn:E; [reflexivity | lia].
  - destruct (bidder b' =? who) eqn:E; [lia | exact IH].
Qed.

Lemma findBid_push (bids : list Bid) (b : Bid) (who : address) :
  0 < findBid bids who -> findBid (push bids b) who = findBid bids who.
Proof.
  unfold push. induction bids as [| b' rest IH]; cbn; [lia|].
  destruct (bidder b' =? who); [reflexivity | exact IH].
Qed.

Lemma withdrawBid_Ok (m : Msg) (orderId : N) (w w' : World) :
  withdrawBid m orderId w = Ok w' ->
  let s := market w in
  let o := orders s !!0 orderId in
  let bidAmount := findBid (orderBids s !!0 orderId) (sender m) in
  Marketplace.orderId o <> 0 /\ isAuction o = true
  /\ highestBidder o <> sender m /\ 0 < bidAmount
  /\ bidAmount <= balanceOf (balances w) (this s)
  /\ w' = mkWorld (move (this s) (sender m) bidAmount (balances w)) (nft w) s.
Proof.
  intros H s o bidAmount. unfold withdrawBid, validOrder in H.
  fold s o bidAmount in H.
  apply bind_Ok in H as (? & Hvalid%require_Ok & H).
  apply bind_Ok in H as (? & Hkind%require_Ok & H).
  apply bind_Ok in H as (? & Hnot%require_Ok & H).
  apply bind_Ok in H as (? & Hfound%require_Ok & H).
  apply bind_Ok in H as (bal & Hpay & H).
  apply transfer_Ok in Hpay as [Hfunds ->]. injection H as <-.
  repeat split; try assumption; lia.
Qed.

Lemma withdrawBid_funded (m : Msg) (orderId : N) (w : World) :
  let s := market w in
  let o := orders s !!0 orderId in
  let bidAmount := findBid (orderBids s !!0 orderId) (sender m) in
  Marketplace.orderId o <> 0 -> isAuction o = true ->
  highestBidder o <> sender m -> 0 < bidAmount ->
  bidAmount <= balanceOf (balances w) (this s) ->
  withdrawBid m orderId w
  = Ok (mkWorld (move (this s) (sender m) bidAmount (balances w)) (nft w) s).
Proof.
  intros s o bidAmount Hid Hkind Hnot Hfound Hfunds.
  unfold withdrawBid, validOrder. fold s o bidAmount.
  assert (negb (Marketplace.orderId o =? 0) = true) as -> by lia.
  rewrite Hkind.
  assert (negb (highestBidder o =? sender m) = true) as -> by lia.
  assert ((0 <? bidAmount) = true) as -> by lia.
  cbn. rewrite (transfer_funded _ _ _ _ Hfunds). reflexivity.
Qed.

(** C3 (amended). On an existing auction order, [withdrawBid] reverts with
    "Cannot withdraw highest bid" when the caller is the highest bidder
    and with "No bid found" when the caller has no recorded bid on the
    order; otherwise, when the contract holds the amount, it pays the
    caller the amount of the caller's first recorded bid on the order and
    changes nothing else. *)
Theorem withdrawBid_refunds_first_bid (m : Msg) (orderId : N) (w : World) :
  let s := market w in
  let o := orders s !!0 orderId in
  let bids := orderBids s !!0 orderId in
  Marketplace.orderId o <> 0 ->
  isAuction o = true ->
  (highestBidder o = sender m ->
   withdrawBid m orderId w = Revert IsHighestBidder)
  /\ (highestBidder o <> sender m ->
      Forall (fun b => bidder b <> sender m) bids ->
      withdrawBid m orderId w = Revert NoBidFound)
  /\ (highestBidder o <> sender m ->
      forall earlier b later,
        bids = (earlier ++ b :: later)%list ->
        Forall (fun b' => bidder b' <> sender m) earlier ->
        bidder b = sender m ->
        0 < amount b ->
        amount b <= balanceOf (balances w) (this s) ->
        withdrawBid m orderId w
        = Ok (mkWorld (move (this s) (sender m) (amount b) (balances w))
                (nft w) s)).
Proof.
  intros s o bids Hid Hkind.
  assert (negb (Marketplace.orderId o =? 0) = true) as Hvalid by lia.
  split; [|split].
  - intros Hhighest. unfold withdrawBid, validOrder. fold s o.
    rewrite Hvalid, Hkind. cbn.
    assert (negb (highestBidder o =? sender m) = false) as -> by lia.
    reflexivity.
  - intros Hnot Hnone. unfold withdrawBid, validOrder. fold s o bids.
    rewrite Hvalid, Hkind. cbn.
    assert (negb (highestBidder o =? sender m) = true) as -> by lia.
    rewrite (findBid_none _ _ Hnone). reflexivity.
  - intros Hnot earlier b later Hbids Hearlier Hb Hpos Hfunds.
    pose proof (findBid_first earlier later b (sender m) Hearlier Hb) as Hfind.
    rewrite <- Hbids in Hfind.
    pose proof (withdrawBid_funded m orderId w) as Hw. cbn zeta in Hw.
    fold s o bids in Hw. rewrite Hfind in Hw.
    apply Hw; assumption.
Qed.

(** C9. A successful [withdrawBid] changes balances only: orders and
    recorded bids stay as they were, so the same call succeeds again with
    the same amount whenever the contract still holds it. A bidder
    displaced by a higher bid was refunded in full by [placeBid], and can
    still have [withdrawBid] pay out the first recorded bid once more. *)
Theorem withdrawBid_keeps_bid_record (orderId : N) :
  (forall m w w',
      withdrawBid m orderId w = Ok w' ->
      let self := this (market w) in
      let bidAmount := findBid (orderBids (market w) !!0 orderId) (sender m) in
      market w' = market w /\ nft w' = nft w
      /\ 0 < bidAmount
      /\ balances w' = move self (sender m) bidAmount (balances w)
      /\ (bidAmount <= balanceOf (balances w') self ->
          withdrawBid m orderId w'
          = Ok (mkWorld (move self (sender m) bidAmount (balances w'))
                  (nft w') (market w'))))
  /\ (forall m value w w1 now,
        placeBid m value orderId w = Ok w1 ->
        let self := this (market w) in
        let o := orders (market w) !!0 orderId in
        let displaced := highestBidder o in
        let bidAmount := findBid (orderBids (market w) !!0 orderId) displaced in
        displaced <> zero_address ->
        displaced <> sender m ->
        0 < bidAmount ->
        bidAmount <= balanceOf (balances w1) self ->
        balances w1
        = move self displaced (highestBid o)
            (move (sender m) self value (balances w))
        /\ withdrawBid (mkMsg displaced now) orderId w1
           = Ok (mkWorld (move self displaced bidAmount (balances w1))
                   (nft w1) (market w1))).
Proof.
  split.
  - intros m w w' H self bidAmount.
    apply withdrawBid_Ok in H
      as (Hid & Hkind & Hnot & Hfound & Hfunds & ->).
    cbn [market nft balances]. fold self bidAmount.
    repeat split; [exact Hfound|].
    intros Hfunds'.
    pose proof (withdrawBid_funded m orderId
                  (mkWorld (move self (sender m) bidAmount (balances w))
                     (nft w) (market w))) as Hw.
    cbn zeta in Hw. cbn [market nft balances] in Hw.
    apply Hw; assumption.
  - intros m value w w1 now Hbid self o displaced bidAmount
           Hnz Hother Hfound Hfunds.
    pose proof Hbid as Hbid'.
    apply placeBid_Ok in Hbid'
      as (Hchecks & Horder & Hbids & Hthis & Hbal).
    destruct Hchecks as (Hid & _ & _ & Hkind & _).
    fold self o displaced in Hbal, Horder.
    assert (negb (displaced =? zero_address) = true) as Hnzb
      by (unfold zero_address in *; lia).
    rewrite Hnzb in Hbal. split; [exact Hbal|].
    pose proof (withdrawBid_funded (mkMsg displaced now) orderId w1) as Hw.
    cbn zeta in Hw. cbn [sender] in Hw.
    rewrite Horder, Hbids, Hthis in Hw. cbn [Marketplace.orderId raise isAuction highestBidder] in Hw.
    rewrite (findBid_push _ _ _ Hfound) in Hw. fold self bidAmount in Hw.
    apply Hw; try assumption. congruence.
Qed.

End OrderBook.

(** ** The asset registry *)

Section Registry.

Import AIAssetNFT.

Lemma hashes_recorded_frame (s s' : State) :
  paused s' = paused s ->
  assetVersions s' = assetVersions s ->
  usedIPFSHashes s' = usedIPFSHashes s ->
  hashes_recorded s -> hashes_recorded s'.
Proof.
  unfold hashes_recorded, getAssetVersions. intros -> -> ->. tauto.
Qed.

Lemma hashes_recorded_push (s s' : State) (tokenId : N) (v : Version) :
  hashes_recorded s ->
  paused s' = paused s ->
  (0 <? N.of_nat (String.length (v_ipfsHash v))) = true ->
  assetVersions s'
  = <[tokenId := push (assetVersions s !!0 tokenId) v]> (assetVersions s) ->
  usedIPFSHashes s' = <[v_ipfsHash v := true]> (usedIPFSHashes s) ->
  hashes_recorded s'.
Proof.
  intros [Hpaused Hinv] Hp Hlen Hversions Hused.
  split; [congruence|].
  intros tokenId' v'. unfold getAssetVersions. rewrite Hversions, Hused.
  rewrite !read_insert. intros Hin.
  assert (v' = v \/ v' ∈ getAssetVersions tokenId' s) as [-> | Hold].
  { destruct (decide (tokenId = tokenId')) as [<- | _]; [|right; exact Hin].
    unfold push in Hin. apply elem_of_app in Hin as [Hin | Hin].
    - right. exact Hin.
    - left. apply list_elem_of_singleton in Hin. exact Hin. }
  - split; [exact Hlen|]. destruct (decide (v_ipfsHash v = v_ipfsHash v));
      [reflexivity | congruence].
  - destruct (Hinv _ _ Hold) as [Hlen' Hused'].
    split; [exact Hlen'|].
    destruct (decide (v_ipfsHash v = v_ipfsHash v')); [reflexivity | exact Hused'].
Qed.

Lemma mintAsset_Ok m ty nm desc ver h pub roy pr sale (s s' : State) :
  mintAsset m ty nm desc ver h pub roy pr sale s = Ok s' ->
  paused s' = paused s
  /\ (0 <? N.of_nat (String.length h)) = true
  /\ assetVersions s'
     = <[_tokenIdCounter s :=
           push (assetVersions s !!0 _tokenIdCounter s)
             (mkVersion ver h (timestamp m) "Initial version")]>
         (assetVersions s)
  /\ usedIPFSHashes s' = <[h := true]> (usedIPFSHashes s).
Proof.
  unfold mintAsset. intros H.
  apply bind_Ok in H as (? & _ & H).
  apply bind_Ok in H as (? & _ & H).
  apply bind_Ok in H as (? & Hlen%require_Ok & H).
  apply bind_Ok in H as (? & _ & H).
  apply bind_Ok in H as (? & _ & H).
  apply bind_Ok in H as (s1 & Hmint & H).
  unfold _safeMint in Hmint.
  apply bind_Ok in Hmint as (t & _ & [= <-]).
  injection H as <-. cbn.
  repeat split. exact Hlen.
Qed.

Lemma updateAsset_Ok m tokenId ver h changelog (s s' : State) :
  updateAsset m tokenId ver h changelog s = Ok s' ->
  paused s' = paused s
  /\ (0 <? N.of_nat (String.length h)) = true
  /\ assetVersions s'
     = <[tokenId := push (assetVersions s !!0 tokenId)
                      (mkVersion ver h (timestamp m) changelog)]>
         (assetVersions s)
  /\ usedIPFSHashes s' = <[h := true]> (usedIPFSHashes s).
Proof.
  unfold updateAsset. intros H.
  apply bind_Ok in H as (? & _ & H).
  apply bind_Ok in H as (? & _ & H).
  apply bind_Ok in H as (? & Hlen%require_Ok & H).
  apply bind_Ok in H as (? & _ & H).
  apply bind_Ok in H as (? & _ & H).
  injection H as <-. cbn. repeat split. exact Hlen.
Qed.

Lemma registry_reachable_hashes_recorded (s : State) :
  registry_reachable s -> hashes_recorded s.
Proof.
  induction 1 as [self deployer
                 | s m ty nm desc ver h pub roy pr sale s' _ IH Hstep
                 | s m tokenId ver h changelog s' _ IH Hstep
                 | s m tokenId pr sale s' _ IH Hstep
                 | s m to tokenId s' _ IH Hstep
                 | s caller from to tokenId s' _ IH Hstep
                 | s m value tokenId bal bal' s' _ IH Hstep].
  - split; [reflexivity|]. intros tokenId v Hin.
    unfold getAssetVersions, deploy, read in Hin. cbn in Hin.
    rewrite lookup_empty in Hin. cbn in Hin. inversion Hin.
  - apply mintAsset_Ok in Hstep as (Hp & Hlen & Hv & Hu).
    eapply (hashes_recorded_push s s' _ (mkVersion ver h (timestamp m) _));
      eassumption.
  - apply updateAsset_Ok in Hstep as (Hp & Hlen & Hv & Hu).
    eapply (hashes_recorded_push s s' _ (mkVersion ver h (timestamp m) _));
      eassumption.
  - unfold updateAssetPrice in Hstep.
    apply bind_Ok in Hstep as (? & _ & Hstep).
    apply bind_Ok in Hstep as (? & _ & Hstep).
    injection Hstep as <-.
    apply (hashes_recorded_frame s); [reflexivity.. | exact IH].
  - unfold approve in Hstep.
    apply bind_Ok in Hstep as (t & _ & [= <-]).
    apply (hashes_recorded_frame s); [reflexivity.. | exact IH].
  - unfold transferFrom in Hstep.
    apply bind_Ok in Hstep as (t & _ & [= <-]).
    apply (hashes_recorded_frame s); [reflexivity.. | exact IH].
  - unfold buyAsset in Hstep. cbn [fst snd] in Hstep.
    repeat (apply bind_Ok in Hstep as (? & ? & Hstep)).
    injection Hstep as _ <-.
    match goal with
    | H : _transfer _ _ _ _ = Ok _ |- _ => apply _transfer_Ok in H as (-> & _)
    end.
    apply (hashes_recorded_frame s); [reflexivity.. | exact IH].
Qed.

(** A mint of a recorded hash reverts whatever its royalty is; the
    royalty modifier runs before the body, so a royalty above 1000 basis
    points is what the call is turned away for. *)
Lemma mintAsset_recorded_hash (s : State) (m : Msg) (ty : AssetType)
    (nm desc ver h : string) (pub : bool) (roy pr : N) (sale : bool)
    (tokenId : N) (v : Version) :
  registry_reachable s ->
  v ∈ getAssetVersions tokenId s ->
  v_ipfsHash v = h ->
  transact (mintAsset m ty nm desc ver h pub roy pr sale) s
  = (s, Some (if roy <=? 1000 then DuplicateContent else InvalidRoyalty)).
Proof.
  intros Hreach Hin <-.
  apply registry_reachable_hashes_recorded in Hreach as [Hpaused Hinv].
  destruct (Hinv _ _ Hin) as [Hlen Hused].
  unfold transact, mintAsset, whenNotPaused, validRoyaltyPercentage.
  rewrite Hpaused. cbn.
  destruct (roy <=? 1000); cbn; [|reflexivity].
  rewrite Hlen, Hused. reflexivity.
Qed.

(** C7. In every state reached by mints and version updates, a mint with a
    royalty of at most 1000 basis points whose content hash already appears
    in the version history of any asset, whether it came from a mint or
    from a version update, reverts with "IPFS hash already used" and leaves
    the registry unchanged. *)
Theorem mint_duplicate_rejected (s : State) (m : Msg) (ty : AssetType)
    (nm desc ver h : string) (pub : bool) (roy pr : N) (sale : bool)
    (tokenId : N) (v : Version) :
  registry_reachable s ->
  v ∈ getAssetVersions tokenId s ->
  v_ipfsHash v = h ->
  roy <= 1000 ->
  transact (mintAsset m ty nm desc ver h pub roy pr sale) s
  = (s, Some DuplicateContent).
Proof.
  intros Hreach Hin Hhash Hroy.
  rewrite (mintAsset_recorded_hash s m ty nm desc ver h pub roy pr sale
             tokenId v Hreach Hin Hhash).
  destruct (roy <=? 1000) eqn:E; [reflexivity | lia].
Qed.

End Registry.

(** ** The license registry *)

Section Licenses.

Import LicenseManager.

Lemma createLicense_Ok m value asset to ty pr dur tm bal s bal' s' :
  createLicense m value asset to ty pr dur tm (bal, s) = Ok (bal', s') ->
  exists endTime counter,
    let id := _licenseIdCounter s in
    let l := mkLicense id asset (sender m) to ty pr dur (timestamp m) endTime
               true tm (timestamp m) in
    (value <= balanceOf bal (sender m) /\ pr <= value /\ counter = id + 1)
    /\ endTime = (if 0 <? dur then timestamp m + dur else 0)
    /\ s' = mkState (this s) (owner s) (paused s)
              (<[id := l]> (licenses s)) (licenseUsage s)
              (<[to := push (userLicenses s !!0 to) id]> (userLicenses s))
              (<[sender m := push (userIssuedLicenses s !!0 sender m) id]>
                 (userIssuedLicenses s))
              (assetLicensable s) counter
    /\ bal' = (let bal0 := move (sender m) (this s) value bal in
               let bal1 := if 0 <? pr then move (this s) (sender m) pr bal0
                           else bal0 in
               if pr <? value then move (this s) (sender m) (value - pr) bal1
               else bal1).
Proof.
  unfold createLicense. cbn [fst snd]. intros H.
  apply bind_Ok in H as (bal0 & Hrecv & H).
  apply receive_Ok in Hrecv as [Hfunds ->].
  apply bind_Ok in H as (? & _ & H).
  apply bind_Ok in H as (? & _ & H).
  apply bind_Ok in H as (? & _ & H).
  apply bind_Ok in H as (? & _ & H).
  apply bind_Ok in H as (? & Hpay%require_Ok & H).
  apply bind_Ok in H as (counter & Hcounter & H).
  apply bind_Ok in H as (endTime & Hend & H).
  apply bind_Ok in H as (bal1 & Hb1 & H).
  apply bind_Ok in H as (bal2 & Hb2 & H).
  injection H as <- <-.
  exists endTime, counter. cbn zeta.
  assert (counter = _licenseIdCounter s + 1) as Hc.
  { unfold checked_add in Hcounter.
    destruct (_licenseIdCounter s + 1 <? modulus); [|discriminate].
    injection Hcounter as <-. reflexivity. }
  assert (endTime = if 0 <? dur then timestamp m + dur else 0) as He.
  { destruct (0 <? dur).
    - unfold checked_add in Hend.
      destruct (timestamp m + dur <? modulus); [|discriminate].
      injection Hend as <-. reflexivity.
    - injection Hend as <-. reflexivity. }
  split; [repeat split; [exact Hfunds | lia | exact Hc]|].
  split; [exact He|]. split; [reflexivity|].
  assert (bal1 = if 0 <? pr
                 then move (this s) (sender m) pr
                        (move (sender m) (this s) value bal)
                 else move (sender m) (this s) value bal) as ->.
  { destruct (0 <? pr).
    - apply transfer_Ok in Hb1 as [_ ->]. reflexivity.
    - injection Hb1 as <-. reflexivity. }
  destruct (pr <? value) eqn:E.
  - apply bind_Ok in Hb2 as (excess & Hex & Hb2).
    unfold checked_sub in Hex. destruct (pr <=? value); [|discriminate].
    injection Hex as <-. apply transfer_Ok in Hb2 as [_ ->]. reflexivity.
  - injection Hb2 as <-. reflexivity.
Qed.

(** C10. In a successful [createLicense] the licensor recorded in the new
    license is the caller, who is also the payer: the price and the excess
    both go back to the caller, so every balance, the caller's and the
    licensee's included, is what it was before the call. *)
Theorem createLicense_net_zero m value asset to ty pr dur tm bal s bal' s' :
  createLicense m value asset to ty pr dur tm (bal, s) = Ok (bal', s') ->
  licensor (licenses s' !!0 _licenseIdCounter s) = sender m
  /\ licensee (licenses s' !!0 _licenseIdCounter s) = to
  /\ to <> sender m
  /\ forall a, balanceOf bal' a = balanceOf bal a.
Proof.
  intros H. pose proof H as H'.
  apply createLicense_Ok in H as (endTime & counter & Hchecks & _ & -> & ->).
  destruct Hchecks as (Hfunds & Hpay & _).
  cbn [licenses]. rewrite read_insert_eq. cbn [licensor licensee].
  split; [reflexivity|]. split; [reflexivity|]. split.
  - unfold createLicense in H'. cbn [fst snd] in H'.
    apply bind_Ok in H' as (? & _ & H').
    apply bind_Ok in H' as (? & _ & H').
    apply bind_Ok in H' as (? & _ & H').
    apply bind_Ok in H' as (? & _ & H').
    apply bind_Ok in H' as (? & Hself%require_Ok & _). lia.
  - intros a. cbn zeta. clear H'.
    set (caller := sender m) in *. set (self := this s) in *.
    clearbody caller self.
    destruct (0 <? pr) eqn:E1, (pr <? value) eqn:E2;
      rewrite ?balanceOf_move; repeat case_decide; subst;
      try congruence; lia.
Qed.

(** *** The license index *)

Lemma licenses_indexed_frame (s s' : State) :
  licenses s' = licenses s ->
  userLicenses s' = userLicenses s ->
  _licenseIdCounter s' = _licenseIdCounter s ->
  licenses_indexed s -> licenses_indexed s'.
Proof. unfold licenses_indexed. intros -> -> ->. tauto. Qed.

Lemma licenses_indexed_create m value asset to ty pr dur tm bal s bal' s' :
  createLicense m value asset to ty pr dur tm (bal, s) = Ok (bal', s') ->
  licenses_indexed s -> licenses_indexed s'.
Proof.
  intros H [Hbound Hindex].
  apply createLicense_Ok in H as (endTime & counter & Hchecks & _ & -> & _).
  destruct Hchecks as (_ & _ & ->).
  set (id := _licenseIdCounter s) in *.
  assert (licenses s !! id = None) as Hfresh.
  { destruct (licenses s !! id) eqn:E; [|reflexivity].
    assert (id < id) by (apply Hbound; rewrite E; eauto). lia. }
  split; cbn [licenses userLicenses LicenseManager._licenseIdCounter].
  - intros id' Hsome. rewrite lookup_insert in Hsome.
    destruct (decide (id = id')) as [<- | _]; [lia|].
    specialize (Hbound _ Hsome). lia.
  - intros user id'. rewrite read_insert, lookup_insert.
    destruct (decide (to = user)) as [<- | Hother].
    + unfold push. rewrite elem_of_app, list_elem_of_singleton, Hindex.
      destruct (decide (id = id')) as [<- | Hne]; cbn.
      * split; [|tauto]. intros _. eexists. split; reflexivity.
      * split; [intros [Hold | ->]; [exact Hold | congruence]|].
        intros Hold. left. exact Hold.
    + rewrite Hindex.
      destruct (decide (id = id')) as [<- | Hne]; cbn; [|reflexivity].
      split.
      * intros (l & Hl & _). congruence.
      * intros (l & [= <-] & Hl). cbn in Hl. congruence.
Qed.

Lemma licenses_indexed_deactivate m id s s' :
  deactivateLicense m id s = Ok s' ->
  licenses_indexed s -> licenses_indexed s'.
Proof.
  unfold deactivateLicense, validLicense. intros H [Hbound Hindex].
  apply bind_Ok in H as (? & Hvalid%require_Ok & H).
  apply bind_Ok in H as (? & _ & H).
  injection H as <-.
  assert (exists l0, licenses s !! id = Some l0) as [l0 Hl0].
  { unfold read in Hvalid. destruct (licenses s !! id) eqn:E; [eauto|].
    cbn in Hvalid. discriminate. }
  assert (licenses s !!0 id = l0) as -> by (unfold read; rewrite Hl0; reflexivity).
  split; cbn [licenses userLicenses LicenseManager._licenseIdCounter].
  - intros id' Hsome. rewrite lookup_insert in Hsome.
    destruct (decide (id = id')) as [<- | _]; [|apply Hbound, Hsome].
    apply Hbound. rewrite Hl0. eauto.
  - intros user id'. rewrite Hindex, lookup_insert.
    destruct (decide (id = id')) as [<- | _]; cbn; [|reflexivity].
    split.
    + intros (l & Hl & Hu). eexists. split; [reflexivity|].
      cbn. congruence.
    + intros (l & [= <-] & Hu). eexists. split; [exact Hl0 | exact Hu].
Qed.

Lemma reachable_licenses_indexed (s : State) :
  reachable s -> licenses_indexed s.
Proof.
  induction 1 as [self deployer | s m c bal bal' s' _ IH Hstep].
  - split.
    + intros id [l Hl]. cbn in Hl. rewrite lookup_empty in Hl. discriminate.
    + intros user id. unfold read. cbn. rewrite !lookup_empty. cbn.
      split; [intros Hin; inversion Hin | intros (l & Hl & _); discriminate].
  - destruct c; cbn [exec fst snd] in Hstep.
    + eapply licenses_indexed_create; eassumption.
    + apply bind_Ok in Hstep as (s1 & Hcall & [= _ <-]).
      unfold recordUsage in Hcall.
      apply bind_Ok in Hcall as (? & _ & Hcall).
      apply bind_Ok in Hcall as (? & _ & Hcall).
      apply bind_Ok in Hcall as (? & _ & Hcall).
      injection Hcall as <-.
      apply (licenses_indexed_frame s); [reflexivity.. | exact IH].
    + apply bind_Ok in Hstep as (s1 & Hcall & [= _ <-]).
      eapply licenses_indexed_deactivate; eassumption.
    + apply bind_Ok in Hstep as (s1 & Hcall & [= _ <-]).
      unfold setAssetLicensability in Hcall.
      apply bind_Ok in Hcall as (? & _ & Hcall). injection Hcall as <-.
      apply (licenses_indexed_frame s); [reflexivity.. | exact IH].
    + apply bind_Ok in Hstep as (s1 & Hcall & [= _ <-]).
      unfold batchSetAssetLicensability in Hcall.
      apply bind_Ok in Hcall as (? & _ & Hcall).
      apply bind_Ok in Hcall as (? & _ & Hcall). injection Hcall as <-.
      apply (licenses_indexed_frame s); [reflexivity.. | exact IH].
    + apply bind_Ok in Hstep as (s1 & Hcall & [= _ <-]).
      unfold pause in Hcall.
      apply bind_Ok in Hcall as (? & _ & Hcall).
      apply bind_Ok in Hcall as (? & _ & Hcall). injection Hcall as <-.
      apply (licenses_indexed_frame s); [reflexivity.. | exact IH].
    + apply bind_Ok in Hstep as (s1 & Hcall & [= _ <-]).
      unfold unpause in Hcall.
      apply bind_Ok in Hcall as (? & _ & Hcall).
      apply bind_Ok in Hcall as (? & _ & Hcall). injection Hcall as <-.
      apply (licenses_indexed_frame s); [reflexivity.. | exact IH].
Qed.

Lemma hasValidLicense_loop_true (now asset : N) (lics : gmap N License)
    (ids : list N) :
  hasValidLicense_loop now asset lics ids = true
  <-> exists id, id ∈ ids
                 /\ assetTokenId (lics !!0 id) = asset
                 /\ isActive (lics !!0 id) = true
                 /\ (endTime (lics !!0 id) = 0 \/ now <= endTime (lics !!0 id)).
Proof.
  induction ids as [| id rest IH]; cbn.
  - split; [discriminate | intros (id & Hin & _); inversion Hin].
  - destruct ((assetTokenId (lics !!0 id) =? asset) && isActive (lics !!0 id)
              && ((endTime (lics !!0 id) =? 0) || (now <=? endTime (lics !!0 id))))
      eqn:E.
    + split; [intros _ | reflexivity].
      exists id. split; [left|].
      apply andb_true_iff in E as [E Et]. apply andb_true_iff in E as [Ea Ei].
      repeat split; [lia | exact Ei | lia].
    + rewrite IH. split.
      * intros (id' & Hin & H). exists id'. split; [right; exact Hin | exact H].
      * intros (id' & Hin & Ha & Hi & Ht).
        apply elem_of_cons in Hin as [-> | Hin]; [|eauto 6].
        exfalso. rewrite Hi in E.
        assert ((assetTokenId (lics !!0 id) =? asset) = true) as Ea by lia.
        assert ((endTime (lics !!0 id) =? 0) || (now <=? endTime (lics !!0 id))
                = true) as Et by lia.
        rewrite Ea, Et in E. discriminate.
Qed.

(** C8. In every state of the license registry reached from deployment,
    [hasValidLicense(user, assetId)] at time [now] is true exactly when
    some license granted to [user] on [assetId] is active and has
    [endTime = 0] or [now <= endTime]. In particular an active license
    with an end time makes it true at that end time, and it is false one
    second later unless another license of the pair is still valid. *)
Theorem hasValidLicense_iff (s : State) (now : N) (user : address) (asset : N) :
  reachable s ->
  (hasValidLicense now user asset s = true
   <-> exists id l, licenses s !! id = Some l
                    /\ valid_license_at now user asset l)
  /\ forall id l,
       licenses s !! id = Some l ->
       licensee l = user -> assetTokenId l = asset -> isActive l = true ->
       endTime l <> 0 ->
       hasValidLicense (endTime l) user asset s = true
       /\ ((forall id' l',
              licenses s !! id' = Some l' ->
              licensee l' = user -> assetTokenId l' = asset ->
              isActive l' = true ->
              endTime l' <> 0 /\ endTime l' <= endTime l) ->
           hasValidLicense (endTime l + 1) user asset s = false).
Proof.
  intros Hreach.
  apply reachable_licenses_indexed in Hreach as [_ Hindex].
  assert (forall t, hasValidLicense t user asset s = true
                    <-> exists id l, licenses s !! id = Some l
                                     /\ valid_license_at t user asset l) as Hiff.
  { intros t. unfold hasValidLicense. rewrite hasValidLicense_loop_true. split.
    - intros (id & Hin & Ha & Hi & Ht).
      apply Hindex in Hin as (l & Hl & Hu).
      assert (licenses s !!0 id = l) as Hread
        by (unfold read; rewrite Hl; reflexivity).
      rewrite Hread in *. exists id, l. split; [exact Hl|].
      repeat split; assumption.
    - intros (id & l & Hl & Hu & Ha & Hi & Ht).
      assert (licenses s !!0 id = l) as Hread
        by (unfold read; rewrite Hl; reflexivity).
      exists id. rewrite Hread. split; [|repeat split; assumption].
      apply Hindex. exists l. split; assumption. }
  split; [apply Hiff|].
  intros id l Hl Hu Ha Hi Hend. split.
  - apply Hiff. exists id, l. split; [exact Hl|].
    repeat split; try assumption. right. lia.
  - intros Hothers.
    destruct (hasValidLicense (endTime l + 1) user asset s) eqn:E; [|reflexivity].
    apply Hiff in E as (id' & l' & Hl' & Hu' & Ha' & Hi' & Ht').
    destruct (Hothers id' l' Hl' Hu' Ha' Hi') as [Hnz Hle]. lia.
Qed.

End Licenses.

(** ** The properties on the worked scenario *)

Section ScenarioChecks.

Import Marketplace Scenario.

(** The auction of the scenario settles at 1500 with both rates at 250
    basis points: fee 37, royalty 37, seller 1426. *)
Lemma settlement_conservation_witness :
  250 <= 1000
  /\ saleAmounts 1500 250 250 = Ok (37, 37, 1426)
  /\ 1426 + 37 + 37 = 1500
  /\ _executeSale 1 carol 1500 w_bid2 = Ok w_sold
  /\ balanceOf (balances w_sold) alice
     = balanceOf (balances w_bid2) alice + 1426 + 37
  /\ balanceOf (balances w_sold) admin
     = balanceOf (balances w_bid2) admin + 37
  /\ balanceOf (balances w_sold) marketAddr + 1500
     = balanceOf (balances w_bid2) marketAddr.
Proof.
  assert (250 <= 1000) as Hbps by lia.
  assert (_executeSale 1 carol 1500 w_bid2 = Ok w_sold) as Hsale
    by (vm_compute; reflexivity).
  destruct (settlement_conservation 1500 250 250 Hbps Hbps)
    as (_ & Hsum & Hamounts & Hpaid).
  destruct (Hpaid 1 carol w_bid2 w_sold eq_refl eq_refl Hsale) as [_ Hbal].
  split; [exact Hbps|]. split; [apply Hamounts; vm_compute; reflexivity|].
  split; [exact Hsum|]. split; [exact Hsale|].
  rewrite !Hbal. vm_compute. repeat split.
Defined.

(** [bob] offers the full price for the fixed-price order 1 five seconds
    after it was created. *)
Lemma fixed_price_order_cannot_be_bought_witness :
  createFixedPriceOrder (mkMsg alice 40) 0 1000 w_order0 = Ok w_fixed1
  /\ 0 < timestamp (mkMsg bob 45)
  /\ 1000 <= balanceOf (balances w_fixed1) (sender (mkMsg bob 45))
  /\ sender (mkMsg bob 45) <> seller (orders (market w_fixed1) !!0 1)
  /\ price (orders (market w_fixed1) !!0 1) <= 1000
  /\ buyFixedPriceOrder (mkMsg bob 45) 1000 1 w_fixed1 = Revert OrderExpired.
Proof.
  assert (createFixedPriceOrder (mkMsg alice 40) 0 1000 w_order0 = Ok w_fixed1)
    as Hcreate by (vm_compute; reflexivity).
  assert (0 < timestamp (mkMsg bob 45)) as Htime by (cbn; lia).
  assert (1000 <= balanceOf (balances w_fixed1) (sender (mkMsg bob 45)))
    as Hfunds by (vm_compute; discriminate).
  destruct (fixed_price_order_cannot_be_bought _ _ _ _ _ _ _ Hcreate Htime Hfunds)
    as (_ & _ & Hbuy).
  split; [exact Hcreate|]. split; [exact Htime|]. split; [exact Hfunds|].
  split; [vm_compute; discriminate|]. split; [vm_compute; discriminate|].
  exact Hbuy.
Defined.

(** After the auction is settled [carol] owns asset 0, which is still listed
    for direct sale at 500. *)
Lemma executeSale_keeps_sale_terms_witness :
  _executeSale 1 carol 1500 w_bid2 = Ok w_sold
  /\ AIAssetNFT.ownerOf 0 (nft w_bid2) = Ok alice
  /\ AIAssetNFT.ownerOf 0 (nft w_sold) = Ok carol
  /\ AIAssetNFT.isForSale (AIAssetNFT.getAsset 0 (nft w_sold)) = true
  /\ AIAssetNFT.price (AIAssetNFT.getAsset 0 (nft w_sold)) = 500.
Proof.
  assert (_executeSale 1 carol 1500 w_bid2 = Ok w_sold) as Hsale
    by (vm_compute; reflexivity).
  destruct (executeSale_keeps_sale_terms 1 carol 1500 w_bid2 w_sold Hsale)
    as (Howner & Hflag & Hprice).
  split; [exact Hsale|]. split; [vm_compute; reflexivity|].
  split; [exact Howner|].
  split; [refine (eq_trans Hflag _) | refine (eq_trans Hprice _)];
    vm_compute; reflexivity.
Defined.

(** The three bids of the scenario. *)
Lemma auction_monotonic_witness :
  Forall (fun e => sender e.1.1 <> zero_address) bids3
  /\ bid_chain 1 w_auction bids3
  /\ StronglySorted N.lt [0; 1000; 1500; 2000]
  /\ highestBidder (orders (market w_bid3) !!0 1) = bob
  /\ balances w_bid2
     = move marketAddr bob 1000 (move carol marketAddr 1500 (balances w_bid1))
  /\ balances w_bid3
     = move marketAddr carol 1500 (move bob marketAddr 2000 (balances w_bid2)).
Proof.
  assert (Forall (fun e => sender e.1.1 <> zero_address) bids3) as Hsenders
    by (repeat constructor; vm_compute; discriminate).
  assert (bid_chain 1 w_auction bids3) as Hchain
    by (cbn; repeat split; vm_compute; reflexivity).
  destruct (auction_monotonic 1 w_auction bids3 Hsenders Hchain)
    as (Hsorted & Heach & Hrefunds).
  split; [exact Hsenders|]. split; [exact Hchain|].
  split; [exact Hsorted|].
  split.
  - apply Forall_cons in Heach as [_ Heach].
    apply Forall_cons in Heach as [_ Heach].
    apply Forall_cons in Heach as [(_ & _ & Hbidder) _]. exact Hbidder.
  - split.
    + exact (Hrefunds 0%nat _ _ _ _ _ _ eq_refl eq_refl).
    + exact (Hrefunds 1%nat _ _ _ _ _ _ eq_refl eq_refl).
Defined.

(** C3, counterexample. [bob] bid 1000 and later 2000 on order 1 and is
    not the highest bidder; his last recorded bid is 2000, yet
    [withdrawBid] pays him 1000, the amount of his first recorded bid. *)
Lemma withdrawBid_last_bid_counterexample :
  isAuction (orders (market w_bid4) !!0 1) = true
  /\ highestBidder (orders (market w_bid4) !!0 1) <> bob
  /\ lastBidOf (orderBids (market w_bid4) !!0 1) bob = 2000
  /\ withdrawBid (mkMsg bob 95) 1 w_bid4 = Ok w_withdrawn
  /\ balanceOf (balances w_withdrawn) bob
     = balanceOf (balances w_bid4) bob + 1000
  /\ ~ (forall w',
           withdrawBid (mkMsg bob 95) 1 w_bid4 = Ok w' ->
           balanceOf (balances w') bob
           = balanceOf (balances w_bid4) bob
             + lastBidOf (orderBids (market w_bid4) !!0 1) bob).
Proof.
  assert (withdrawBid (mkMsg bob 95) 1 w_bid4 = Ok w_withdrawn) as Hcall
    by (vm_compute; reflexivity).
  split; [vm_compute; reflexivity|]. split; [vm_compute; discriminate|].
  split; [vm_compute; reflexivity|]. split; [exact Hcall|].
  split; [vm_compute; reflexivity|].
  intros Hclaim. specialize (Hclaim w_withdrawn Hcall).
  vm_compute in Hclaim. discriminate Hclaim.
Qed.

(** The three outcomes of [withdrawBid] after the fourth bid: [carol] is the
    highest bidder, [alice] never bid, [bob] is paid his first bid. *)
Lemma withdrawBid_refunds_first_bid_witness :
  orderId (orders (market w_bid4) !!0 1) <> 0
  /\ isAuction (orders (market w_bid4) !!0 1) = true
  /\ withdrawBid (mkMsg carol 95) 1 w_bid4 = Revert IsHighestBidder
  /\ withdrawBid (mkMsg alice 95) 1 w_bid4 = Revert NoBidFound
  /\ withdrawBid (mkMsg bob 95) 1 w_bid4
     = Ok (mkWorld (move marketAddr bob 1000 (balances w_bid4))
             (nft w_bid4) (market w_bid4)).
Proof.
  assert (orderId (orders (market w_bid4) !!0 1) <> 0) as Hid
    by (vm_compute; discriminate).
  assert (isAuction (orders (market w_bid4) !!0 1) = true) as Hkind
    by (vm_compute; reflexivity).
  split; [exact Hid|]. split; [exact Hkind|]. split; [|split].
  - destruct (withdrawBid_refunds_first_bid (mkMsg carol 95) 1 w_bid4 Hid Hkind)
      as (Hhighest & _ & _).
    apply Hhighest. vm_compute. reflexivity.
  - destruct (withdrawBid_refunds_first_bid (mkMsg alice 95) 1 w_bid4 Hid Hkind)
      as (_ & Hnone & _).
    apply Hnone; [vm_compute; discriminate|].
    vm_compute. repeat constructor; discriminate.
  - destruct (withdrawBid_refunds_first_bid (mkMsg bob 95) 1 w_bid4 Hid Hkind)
      as (_ & _ & Hfirst).
    apply (Hfirst ltac:(vm_compute; discriminate)
             [] (mkBid bob 1000 60)
             [mkBid carol 1500 70; mkBid bob 2000 80; mkBid carol 2500 90]).
    + vm_compute. reflexivity.
    + constructor.
    + reflexivity.
    + vm_compute. reflexivity.
    + vm_compute. discriminate.
Defined.

(** C6, counterexample. Order 1, an auction, was cancelled by its seller;
    a later [endAuction] at the end time reverts with "Auction already
    ended", which is neither "Order not active" nor "Order already
    sold". *)
Lemma endAuction_twice_counterexample :
  closes 1 w_bid2 w_cancelled
  /\ endAuction (mkMsg bob 150) 1 w_cancelled = Revert AlreadyEnded
  /\ ~ (endAuction (mkMsg bob 150) 1 w_cancelled = Revert OrderInactive
        \/ endAuction (mkMsg bob 150) 1 w_cancelled = Revert AlreadySold).
Proof.
  assert (endAuction (mkMsg bob 150) 1 w_cancelled = Revert AlreadyEnded)
    as Hend by (vm_compute; reflexivity).
  split; [apply (closes_cancel 1 w_bid2 w_cancelled (mkMsg alice 100));
          vm_compute; reflexivity|].
  split; [exact Hend|].
  rewrite Hend. intros [H | H]; vm_compute in H; discriminate H.
Qed.

(** Further calls on order 1 once the auction is settled. *)
Lemma no_double_settlement_witness :
  closes 1 w_bid2 w_sold
  /\ 1500 <= balanceOf (balances w_sold) bob
  /\ transact (buyFixedPriceOrder (mkMsg bob 160) 1500 1) w_sold
     = (w_sold, Some OrderInactive)
  /\ transact (cancelOrder (mkMsg alice 160) 1) w_sold
     = (w_sold, Some OrderInactive)
  /\ transact (endAuction (mkMsg bob 160) 1) w_sold
     = (w_sold, Some AlreadyEnded).
Proof.
  assert (closes 1 w_bid2 w_sold) as Hclosed
    by (apply (closes_end 1 w_bid2 w_sold (mkMsg bob 150));
        vm_compute; reflexivity).
  assert (1500 <= balanceOf (balances w_sold) bob) as Hfunds
    by (vm_compute; discriminate).
  split; [exact Hclosed|]. split; [exact Hfunds|].
  split; [|split].
  - destruct (no_double_settlement 1 w_bid2 w_sold (mkMsg bob 160) 1500 Hclosed)
      as (Hbuy & _ & _).
    exact (Hbuy Hfunds).
  - destruct (no_double_settlement 1 w_bid2 w_sold (mkMsg alice 160) 0 Hclosed)
      as (_ & Hcancel & _).
    exact Hcancel.
  - destruct (no_double_settlement 1 w_bid2 w_sold (mkMsg bob 160) 0 Hclosed)
      as (_ & _ & Hend).
    exact Hend.
Defined.

(** [bob] withdraws twice in a row after the fourth bid, and withdraws right
    after [carol] displaced him and [placeBid] refunded him. *)
Lemma withdrawBid_keeps_bid_record_witness :
  withdrawBid (mkMsg bob 95) 1 w_bid4 = Ok w_withdrawn
  /\ orderBids (market w_withdrawn) = orderBids (market w_bid4)
  /\ (exists w2,
         withdrawBid (mkMsg bob 96) 1 w_withdrawn = Ok w2
         /\ balanceOf (balances w2) bob
            = balanceOf (balances w_bid4) bob + 1000 + 1000)
  /\ placeBid (mkMsg carol 70) 1500 1 w_bid1 = Ok w_bid2
  /\ balanceOf (balances w_bid2) bob = balanceOf (balances w_bid1) bob + 1000
  /\ (exists w2,
         withdrawBid (mkMsg bob 75) 1 w_bid2 = Ok w2
         /\ balanceOf (balances w2) bob
            = balanceOf (balances w_bid2) bob + 1000).
Proof.
  destruct (withdrawBid_keeps_bid_record 1) as [Hagain Hdisplaced].
  assert (withdrawBid (mkMsg bob 95) 1 w_bid4 = Ok w_withdrawn) as Hcall
    by (vm_compute; reflexivity).
  assert (placeBid (mkMsg carol 70) 1500 1 w_bid1 = Ok w_bid2) as Hbid
    by (vm_compute; reflexivity).
  destruct (Hagain (mkMsg bob 95) w_bid4 w_withdrawn Hcall)
    as (Hmarket & _ & _ & _ & Hsecond).
  destruct (Hdisplaced (mkMsg carol 70) 1500 w_bid1 w_bid2 75 Hbid
              ltac:(vm_compute; discriminate) ltac:(vm_compute; discriminate)
              ltac:(vm_compute; reflexivity) ltac:(vm_compute; discriminate))
    as [Hrefund Hpaid].
  split; [exact Hcall|]. split; [rewrite Hmarket; reflexivity|].
  split; [|split; [exact Hbid|split]].
  - eexists. split.
    + exact (Hsecond ltac:(vm_compute; discriminate)).
    + vm_compute. reflexivity.
  - rewrite Hrefund. vm_compute. reflexivity.
  - eexists. split; [exact Hpaid|]. vm_compute. reflexivity.
Defined.

(** Minting the hash of asset 0 again, with the royalty of the first mint
    and with the highest royalty allowed. *)
Lemma mint_duplicate_rejected_witness :
  registry_reachable (nft w_minted)
  /\ AIAssetNFT.mkVersion "1.0.0" "QmHash1" 10 "Initial version"
     ∈ AIAssetNFT.getAssetVersions 0 (nft w_minted)
  /\ 250 <= 1000
  /\ transact (AIAssetNFT.mintAsset (mkMsg bob 20) AIAssetNFT.MODEL "Copy" ""
                 "1.0" "QmHash1" true 250 0 false) (nft w_minted)
     = (nft w_minted, Some AIAssetNFT.DuplicateContent)
  /\ transact (AIAssetNFT.mintAsset (mkMsg bob 20) AIAssetNFT.DATASET "Copy" ""
                 "1.0" "QmHash1" false 1000 0 false) (nft w_minted)
     = (nft w_minted, Some AIAssetNFT.DuplicateContent).
Proof.
  assert (registry_reachable (nft w_minted)) as Hreach.
  { eapply (rr_mint _ (mkMsg alice 10) AIAssetNFT.MODEL "Model" "A model"
              "1.0.0" "QmHash1" true 250 500 true);
      [apply (rr_deploy nftAddr admin) | vm_compute; reflexivity]. }
  assert (AIAssetNFT.mkVersion "1.0.0" "QmHash1" 10 "Initial version"
          ∈ AIAssetNFT.getAssetVersions 0 (nft w_minted)) as Hin
    by (vm_compute; left).
  assert (250 <= 1000) as Hroy by lia.
  split; [exact Hreach|]. split; [exact Hin|]. split; [exact Hroy|]. split.
  - exact (mint_duplicate_rejected (nft w_minted) (mkMsg bob 20)
             AIAssetNFT.MODEL "Copy" "" "1.0" "QmHash1" true 250 0 false 0 _
             Hreach Hin eq_refl Hroy).
  - apply (mint_duplicate_rejected (nft w_minted) (mkMsg bob 20)
             AIAssetNFT.DATASET "Copy" "" "1.0" "QmHash1" false 1000 0 false 0 _
             Hreach Hin eq_refl).
    lia.
Defined.

(** The license of [carol] ends at 1100: valid at 1100, not at 1101. *)
Lemma hasValidLicense_iff_witness :
  LicenseManager.reachable lic_granted.2
  /\ LicenseManager.licenses lic_granted.2 !! 0 = Some carol_license
  /\ LicenseManager.hasValidLicense 1100 carol 0 lic_granted.2 = true
  /\ LicenseManager.hasValidLicense 1101 carol 0 lic_granted.2 = false.
Proof.
  assert (LicenseManager.reachable lic_granted.2) as Hreach.
  { apply (LicenseManager.reach_step lic_enabled.2 (mkMsg bob 1000)
             (LicenseManager.CreateLicense 700 0 carol LicenseManager.RESEARCH
                500 100 "") lic_enabled.1 lic_granted.1).
    - apply (LicenseManager.reach_step lic_init.2 (mkMsg admin 5)
               (LicenseManager.SetAssetLicensability 0 true)
               lic_init.1 lic_enabled.1).
      + apply (LicenseManager.reach_deploy licenseAddr admin).
      + vm_compute. reflexivity.
    - vm_compute. reflexivity. }
  assert (LicenseManager.licenses lic_granted.2 = {[0 := carol_license]})
    as Hlicenses by (vm_compute; reflexivity).
  assert (LicenseManager.licenses lic_granted.2 !! 0 = Some carol_license)
    as Hlookup by (vm_compute; reflexivity).
  destruct (hasValidLicense_iff lic_granted.2 1100 carol 0 Hreach)
    as [_ Hwindow].
  destruct (Hwindow 0 carol_license Hlookup eq_refl eq_refl eq_refl
              ltac:(vm_compute; discriminate)) as [Hat Hafter].
  split; [exact Hreach|]. split; [exact Hlookup|]. split; [exact Hat|].
  apply Hafter. intros id' l' Hl' _ _ _. rewrite Hlicenses in Hl'.
  apply lookup_singleton_Some in Hl' as [_ <-].
  split; vm_compute; discriminate.
Defined.

(** [bob] sends 700 for a license priced 500 and gets all of it back. *)
Lemma createLicense_net_zero_witness :
  LicenseManager.createLicense (mkMsg bob 1000) 700 0 carol
    LicenseManager.RESEARCH 500 100 "" lic_enabled = Ok lic_granted
  /\ LicenseManager.licensor (LicenseManager.licenses lic_granted.2 !!0 0) = bob
  /\ balanceOf lic_granted.1 bob = balanceOf lic_enabled.1 bob
  /\ balanceOf lic_granted.1 carol = balanceOf lic_enabled.1 carol
  /\ balanceOf lic_granted.1 licenseAddr = balanceOf lic_enabled.1 licenseAddr.
Proof.
  assert (LicenseManager.createLicense (mkMsg bob 1000) 700 0 carol
            LicenseManager.RESEARCH 500 100 "" (lic_enabled.1, lic_enabled.2)
          = Ok (lic_granted.1, lic_granted.2)) as Hcall
    by (vm_compute; reflexivity).
  destruct (createLicense_net_zero _ _ _ _ _ _ _ _ _ _ _ _ Hcall)
    as (Hlicensor & _ & _ & Hbal).
  split; [exact Hcall|]. split; [exact Hlicensor|].
  repeat split; apply Hbal.
Defined.

End ScenarioChecks.

(** ** Runs of the asset registry *)

Section RegistryRuns.

Import AIAssetNFT.

Lemma read_Some {K V : Type} `{Countable K} `{Zero V}
    (m : gmap K V) (k : K) (v : V) :
  m !! k = Some v -> m !!0 k = v.
Proof. unfold read. intros ->. reflexivity. Qed.

Lemma read_None {K V : Type} `{Countable K} `{Zero V} (m : gmap K V) (k : K) :
  m !! k = None -> m !!0 k = zero.
Proof. unfold read. intros ->. reflexivity. Qed.

Lemma mintAsset_state m ty nm desc ver h pub roy pr sale (s s' : State) :
  mintAsset m ty nm desc ver h pub roy pr sale s = Ok s' ->
  let t := _tokenIdCounter s in
  (paused s = false /\ roy <= 1000 /\ sender m <> zero_address
   /\ ERC721._owners (token s) !!0 t = zero_address
   /\ usedIPFSHashes s !!0 h = false)
  /\ s' = mkState (this s) (owner s) (paused s)
            (ERC721.mkState (<[t := sender m]> (ERC721._owners (token s)))
               (ERC721._tokenApprovals (token s))
               (ERC721._operatorApprovals (token s)))
            (increment t)
            (<[t := mkAsset t ty nm desc ver (sender m) (timestamp m)
                      (timestamp m) h pub roy pr sale]> (assets s))
            (<[t := push (assetVersions s !!0 t)
                      (mkVersion ver h (timestamp m) "Initial version")]>
               (assetVersions s))
            (<[sender m := push (creatorAssets s !!0 sender m) t]>
               (creatorAssets s))
            (<[h := true]> (usedIPFSHashes s)).
Proof.
  intros H t. unfold mintAsset, whenNotPaused, validRoyaltyPercentage in H.
  apply bind_Ok in H as (? & Hp%require_Ok & H).
  apply bind_Ok in H as (? & Hroy%require_Ok & H).
  apply bind_Ok in H as (? & _ & H).
  apply bind_Ok in H as (? & Hused%require_Ok & H).
  apply bind_Ok in H as (? & _ & H).
  apply bind_Ok in H as (s1 & Hmint & H).
  unfold _safeMint, ERC721._safeMint in Hmint.
  apply bind_Ok in Hmint as (tk & Hmint & [= <-]).
  apply bind_Ok in Hmint as (? & Hto%require_Ok & Hmint).
  apply bind_Ok in Hmint as (? & Hfree%require_Ok & [= <-]).
  injection H as <-. fold t in Hfree. split; [|reflexivity].
  repeat split.
  - destruct (paused s); [discriminate | reflexivity].
  - lia.
  - unfold zero_address in *. lia.
  - unfold zero_address in *. lia.
  - destruct (usedIPFSHashes s !!0 h); [discriminate | reflexivity].
Qed.

Lemma updateAsset_state m t ver h changelog (s s' : State) :
  updateAsset m t ver h changelog s = Ok s' ->
  let a := assets s !!0 t in
  (paused s = false /\ ownerOf t s = Ok (sender m)
   /\ usedIPFSHashes s !!0 h = false)
  /\ s' = mkState (this s) (owner s) (paused s) (token s) (_tokenIdCounter s)
            (<[t := mkAsset (tokenId a) (assetType a) (name a) (description a)
                      ver (creator a) (createdAt a) (timestamp m) h
                      (isPublic a) (royaltyPercentage a) (price a)
                      (isForSale a)]> (assets s))
            (<[t := push (assetVersions s !!0 t)
                      (mkVersion ver h (timestamp m) changelog)]>
               (assetVersions s))
            (creatorAssets s)
            (<[h := true]> (usedIPFSHashes s)).
Proof.
  intros H a. unfold updateAsset, onlyAssetOwner, whenNotPaused in H.
  apply bind_Ok in H as (? & Hown & H).
  apply bind_Ok in Hown as (o & Ho & Heq%require_Ok).
  apply bind_Ok in H as (? & Hp%require_Ok & H).
  apply bind_Ok in H as (? & _ & H).
  apply bind_Ok in H as (? & Hused%require_Ok & H).
  apply bind_Ok in H as (? & _ & H).
  injection H as <-. split; [|reflexivity].
  repeat split.
  - destruct (paused s); [discriminate | reflexivity].
  - rewrite Ho. f_equal. lia.
  - destruct (usedIPFSHashes s !!0 h); [discriminate | reflexivity].
Qed.

Lemma ownerOf_minted (t : N) (s : State) (o : address) :
  ownerOf t s = Ok o -> minted s t.
Proof.
  unfold ownerOf. intros H. apply ownerOf_Ok in H as [-> Hnz]. exact Hnz.
Qed.

Lemma read_empty {K V : Type} `{Countable K} `{Zero V} (k : K) :
  (∅ : gmap K V) !!0 k = zero.
Proof. unfold read. rewrite lookup_empty. reflexivity. Qed.

Lemma registry_inv_deploy (self deployer : address) :
  registry_inv (deploy self deployer).
Proof.
  unfold registry_inv, deploy, minted. cbn.
  refine (conj _ (conj _ (conj _ (conj _ (conj _ (conj _ _)))))).
  - intros t. rewrite lookup_empty, read_empty. split.
    + intros [a Ha]. discriminate.
    + intros Hm. exfalso. apply Hm. reflexivity.
  - intros t Hne. rewrite read_empty in Hne. exfalso. apply Hne. reflexivity.
  - intros t a Ha. rewrite lookup_empty in Ha. discriminate.
  - intros t v Hin. rewrite read_empty in Hin. inversion Hin.
  - intros t1 i1 v1 t2 i2 v2 H1. rewrite read_empty in H1.
    cbn in H1. discriminate.
  - intros c t. rewrite read_empty. split.
    + intros Hin. inversion Hin.
    + intros (a & Ha & _). rewrite lookup_empty in Ha. discriminate.
  - intros c. rewrite read_empty. constructor.
Qed.

End RegistryRuns.

Section RegistryFrame.

Import AIAssetNFT.

Lemma registry_inv_frame (s s' : State) :
  registry_inv s ->
  (forall t, minted s' t <-> minted s t) ->
  assetVersions s' = assetVersions s ->
  usedIPFSHashes s' = usedIPFSHashes s ->
  creatorAssets s' = creatorAssets s ->
  (forall t, assets s' !! t = None <-> assets s !! t = None) ->
  (forall t a a', assets s !! t = Some a -> assets s' !! t = Some a' ->
                  same_terms a a' /\ same_content a a') ->
  registry_inv s'.
Proof.
  intros (Hminted & Hhist & Hwf & Hused & Huniq & Hindex & Hnodup)
         Hm Hv Hu Hc Hnone Hsame.
  assert (forall t a', assets s' !! t = Some a' ->
                       exists a, assets s !! t = Some a
                                 /\ same_terms a a' /\ same_content a a') as Hback.
  { intros t a' Ha'. destruct (assets s !! t) as [a|] eqn:Ha.
    - exists a. split; [reflexivity|]. eapply Hsame; eassumption.
    - apply Hnone in Ha. congruence. }
  unfold registry_inv. rewrite Hv, Hu, Hc.
  refine (conj _ (conj _ (conj _ (conj Hused (conj Huniq (conj _ Hnodup)))))).
  - intros t. rewrite Hm, <- Hminted. rewrite <- !not_eq_None_Some, Hnone.
    reflexivity.
  - intros t Hne. apply Hm, Hhist, Hne.
  - intros t a' Ha'. destruct (Hback t a' Ha') as (a & Ha & Ht & Hco).
    destruct (Hwf t a Ha) as (Hid & Hroy & Hcr & Hh0 & Hhl).
    destruct Ht as (-> & _ & _ & _ & -> & Hcreated & _ & ->).
    destruct Hco as (Hver & Hhash & Hupd).
    repeat split; try assumption.
    + destruct Hh0 as (v0 & ? & ? & ?). exists v0. repeat split; congruence.
    + destruct Hhl as (v & ? & ? & ? & ?). exists v. repeat split; congruence.
  - intros c t. rewrite Hindex. split.
    + intros (a & Ha & Hcr). destruct (assets s' !! t) as [a'|] eqn:Ha'.
      * exists a'. split; [reflexivity|].
        destruct (Hsame t a a' Ha Ha') as [(_ & _ & _ & _ & -> & _) _]. exact Hcr.
      * apply Hnone in Ha'. congruence.
    + intros (a' & Ha' & Hcr). destruct (Hback t a' Ha') as (a & Ha & Ht & _).
      exists a. split; [exact Ha|].
      destruct Ht as (_ & _ & _ & _ & <- & _). exact Hcr.
Qed.

End RegistryFrame.

Section RegistryCalls.

Import AIAssetNFT.

(** Appending a version with an unused hash keeps the hashes of all
    histories used and pairwise distinct. *)
Lemma push_version_hashes (versions : gmap N (list Version))
    (used : gmap string bool) (t : N) (v : Version) :
  (forall t' v', v' ∈ versions !!0 t' -> used !!0 v_ipfsHash v' = true) ->
  (forall t1 i1 v1 t2 i2 v2,
      (versions !!0 t1) !! i1 = Some v1 -> (versions !!0 t2) !! i2 = Some v2 ->
      v_ipfsHash v1 = v_ipfsHash v2 -> t1 = t2 /\ i1 = i2) ->
  used !!0 v_ipfsHash v = false ->
  let versions' := <[t := push (versions !!0 t) v]> versions in
  let used' := <[v_ipfsHash v := true]> used in
  (forall t' v', v' ∈ versions' !!0 t' -> used' !!0 v_ipfsHash v' = true)
  /\ (forall t1 i1 v1 t2 i2 v2,
         (versions' !!0 t1) !! i1 = Some v1 -> (versions' !!0 t2) !! i2 = Some v2 ->
         v_ipfsHash v1 = v_ipfsHash v2 -> t1 = t2 /\ i1 = i2).
Proof.
  intros Hused Huniq Hfresh versions' used'.
  assert (forall t' i v',
             (versions' !!0 t') !! i = Some v' ->
             (versions !!0 t') !! i = Some v'
             \/ (t' = t /\ i = length (versions !!0 t) /\ v' = v)) as Hsplit.
  { intros t' i v' Hl. unfold versions' in Hl. rewrite read_insert in Hl.
    destruct (decide (t = t')) as [<- | _]; [|left; exact Hl].
    unfold push in Hl. apply lookup_app_Some in Hl as [Hl | [Hge Hl]].
    - left. exact Hl.
    - right. destruct (i - length (versions !!0 t))%nat eqn:E; [|discriminate].
      cbn in Hl. injection Hl as <-. repeat split. lia. }
  assert (forall t' i v', (versions !!0 t') !! i = Some v' ->
                          v_ipfsHash v' <> v_ipfsHash v) as Hold.
  { intros t' i v' Hl Heq.
    assert (used !!0 v_ipfsHash v' = true) as Hu
      by (eapply Hused, list_elem_of_lookup_2, Hl).
    rewrite Heq in Hu. congruence. }
  split.
  - intros t' v' Hin. apply list_elem_of_lookup in Hin as [i Hl].
    unfold used'. rewrite read_insert.
    destruct (decide (v_ipfsHash v = v_ipfsHash v')); [reflexivity|].
    apply Hsplit in Hl as [Hl | (_ & _ & ->)]; [|congruence].
    eapply Hused, list_elem_of_lookup_2, Hl.
  - intros t1 i1 v1 t2 i2 v2 H1 H2 Heq.
    apply Hsplit in H1 as [H1 | (-> & -> & ->)];
      apply Hsplit in H2 as [H2 | (-> & -> & ->)].
    + eapply Huniq; eassumption.
    + exfalso. eapply Hold; eassumption.
    + exfalso. eapply Hold; [eassumption | symmetry; exact Heq].
    + split; reflexivity.
Qed.

Lemma registry_inv_mint m ty nm desc ver h pub roy pr sale (s s' : State) :
  registry_inv s ->
  mintAsset m ty nm desc ver h pub roy pr sale s = Ok s' ->
  registry_inv s'.
Proof.
  intros (Hminted & Hhist & Hwf & Hused & Huniq & Hindex & Hnodup) H.
  apply mintAsset_state in H as (Hchecks & ->).
  destruct Hchecks as (_ & Hroy & Hsender & Hfree & Hfresh).
  set (t := _tokenIdCounter s) in *.
  assert (assets s !! t = None) as Hnone.
  { destruct (assets s !! t) eqn:E; [|reflexivity].
    exfalso. assert (minted s t) as Hm by (apply Hminted; rewrite E; eauto).
    apply Hm, Hfree. }
  assert (assetVersions s !!0 t = []) as Hempty.
  { destruct (assetVersions s !!0 t) eqn:E; [reflexivity|].
    exfalso. assert (minted s t) as Hm by (apply Hhist; rewrite E; discriminate).
    apply Hm, Hfree. }
  set (v := mkVersion ver h (timestamp m) "Initial version").
  destruct (push_version_hashes (assetVersions s) (usedIPFSHashes s) t v
              Hused Huniq Hfresh) as [Hused' Huniq'].
  unfold registry_inv, minted. cbn [assets assetVersions usedIPFSHashes
                                     creatorAssets token ERC721._owners].
  refine (conj _ (conj _ (conj _ (conj Hused' (conj Huniq' (conj _ _)))))).
  - intros t'. rewrite lookup_insert, read_insert.
    destruct (decide (t = t')) as [<- | _]; [|apply Hminted].
    split; [intros _; exact Hsender | intros _; eauto].
  - intros t'. rewrite !read_insert.
    destruct (decide (t = t')) as [<- | _]; [intros _; exact Hsender | apply Hhist].
  - intros t' a'. rewrite lookup_insert, read_insert.
    destruct (decide (t = t')) as [<- | _]; [|apply Hwf].
    intros [= <-]. cbn. rewrite Hempty. repeat split; try assumption.
    + exists v. repeat split.
    + exists v. repeat split.
  - intros c t'. rewrite read_insert, lookup_insert.
    destruct (decide (sender m = c)) as [<- | Hc].
    + unfold push. rewrite elem_of_app, list_elem_of_singleton, Hindex.
      destruct (decide (t = t')) as [<- | Hne]; cbn.
      * split; [intros _; eexists; split; reflexivity | tauto].
      * split; [intros [Hold | ->]; [exact Hold | congruence] | tauto].
    + rewrite Hindex. destruct (decide (t = t')) as [<- | Hne]; cbn; [|reflexivity].
      split.
      * intros (a & Ha & _). congruence.
      * intros (a & [= <-] & Ha). cbn in Ha. congruence.
  - intros c. rewrite read_insert.
    destruct (decide (sender m = c)) as [<- | _]; [|apply Hnodup].
    unfold push. apply NoDup_app. repeat split.
    + apply Hnodup.
    + intros x Hx Hx'. apply list_elem_of_singleton in Hx' as ->.
      apply Hindex in Hx as (a & Ha & _). congruence.
    + apply NoDup_singleton.
Qed.

Lemma registry_inv_update m t ver h changelog (s s' : State) :
  registry_inv s ->
  updateAsset m t ver h changelog s = Ok s' ->
  registry_inv s'.
Proof.
  intros (Hminted & Hhist & Hwf & Hused & Huniq & Hindex & Hnodup) H.
  apply updateAsset_state in H as (Hchecks & ->).
  destruct Hchecks as (_ & Howner & Hfresh).
  apply ownerOf_minted in Howner.
  destruct (proj2 (Hminted t) Howner) as [a Ha].
  rewrite (read_Some _ _ _ Ha).
  destruct (Hwf t a Ha) as (Hid & Hroy & Hcr & Hh0 & Hhl).
  set (v := mkVersion ver h (timestamp m) changelog).
  destruct (push_version_hashes (assetVersions s) (usedIPFSHashes s) t v
              Hused Huniq Hfresh) as [Hused' Huniq'].
  unfold registry_inv, minted. cbn [assets assetVersions usedIPFSHashes
                                     creatorAssets token].
  refine (conj _ (conj _ (conj _ (conj Hused' (conj Huniq' (conj _ Hnodup)))))).
  - intros t'. rewrite lookup_insert.
    destruct (decide (t = t')) as [<- | _]; [|apply Hminted].
    split; [intros _; exact Howner | intros _; eauto].
  - intros t'. rewrite read_insert.
    destruct (decide (t = t')) as [<- | _]; [intros _; exact Howner | apply Hhist].
  - intros t' a'. rewrite lookup_insert, read_insert.
    destruct (decide (t = t')) as [<- | _]; [|apply Hwf].
    intros [= <-]. cbn. repeat split; try assumption.
    + destruct Hh0 as (v0 & Hhead & Hlog & Htime). exists v0.
      repeat split; try assumption. unfold push.
      destruct (assetVersions s !!0 t); [discriminate | exact Hhead].
    + exists v. unfold push. rewrite last_snoc. repeat split.
  - intros c t'. rewrite Hindex, lookup_insert.
    destruct (decide (t = t')) as [<- | _]; cbn; [|reflexivity].
    split.
    + intros (a0 & Ha0 & Hc). eexists. split; [reflexivity|]. cbn. congruence.
    + intros (a0 & [= <-] & Hc). exists a. split; [exact Ha | exact Hc].
Qed.

End RegistryCalls.

Section RegistryInvariant.

Import AIAssetNFT.

Lemma buyAsset_state m value t bal s bal' s' :
  buyAsset m value t (bal, s) = Ok (bal', s') ->
  let a := assets s !!0 t in
  let royalty := price a * royaltyPercentage a / 10000 in
  exists seller,
    (paused s = false /\ isForSale a = true /\ price a <= value
     /\ value <= balanceOf bal (sender m)
     /\ ownerOf t s = Ok seller /\ seller <> sender m
     /\ sender m <> zero_address /\ royalty <= price a)
    /\ s' = set_assets
              (<[t := mkAsset (tokenId a) (assetType a) (name a) (description a)
                        (version a) (creator a) (createdAt a) (updatedAt a)
                        (ipfsHash a) (isPublic a) (royaltyPercentage a) 0 false]>
                 (assets s))
              (set_token (ERC721.set_owner_of t (sender m) (token s)) s)
    /\ (let bal0 := move (sender m) (this s) value bal in
        let bal1 := if 0 <? royalty then move (this s) (creator a) royalty bal0
                    else bal0 in
        let bal2 := move (this s) seller (price a - royalty) bal1 in
        ((0 <? royalty) = true -> royalty <= balanceOf bal0 (this s))
        /\ price a - royalty <= balanceOf bal1 (this s)
        /\ ((price a <? value) = true -> value - price a <= balanceOf bal2 (this s))
        /\ bal' = if price a <? value
                  then move (this s) (sender m) (value - price a) bal2
                  else bal2).
Proof.
  intros H a royalty. unfold buyAsset, whenNotPaused in H. cbn [fst snd] in H.
  fold a in H.
  apply bind_Ok in H as (bal0 & Hrecv & H).
  apply receive_Ok in Hrecv as [Hfunds ->].
  apply bind_Ok in H as (? & Hp%require_Ok & H).
  apply bind_Ok in H as (? & Hsale%require_Ok & H).
  apply bind_Ok in H as (? & Hpay%require_Ok & H).
  apply bind_Ok in H as (o & Ho & H).
  apply bind_Ok in H as (? & Hself%require_Ok & H).
  apply bind_Ok in H as (seller & Hseller & H).
  apply bind_Ok in H as (p & Hmul & H).
  apply bind_Ok in H as (sellerAmount & Hsub & H).
  apply bind_Ok in H as (s1 & Htransfer & H).
  apply bind_Ok in H as (bal1 & Hb1 & H).
  apply bind_Ok in H as (bal2 & Hb2 & H).
  apply bind_Ok in H as (bal3 & Hb3 & H).
  injection H as <- <-.
  assert (o = seller) as -> by congruence.
  unfold checked_mul in Hmul.
  destruct (price a * royaltyPercentage a <? modulus); [|discriminate].
  injection Hmul as <-. fold royalty in Hsub, Hb1.
  unfold checked_sub in Hsub. destruct (royalty <=? price a) eqn:Hle; [|discriminate].
  injection Hsub as <-.
  apply _transfer_Ok in Htransfer as (-> & Hto & _).
  exists seller. split; [|split; [reflexivity|]].
  { repeat split; try assumption; try lia. }
  cbn zeta. cbn [creator] in Hb1.
  assert (bal1 = (if 0 <? royalty
                  then move (this s) (creator a) royalty
                         (move (sender m) (this s) value bal)
                  else move (sender m) (this s) value bal)
          /\ ((0 <? royalty) = true ->
              royalty <= balanceOf (move (sender m) (this s) value bal) (this s)))
    as [-> Hf1].
  { destruct (0 <? royalty).
    - apply transfer_Ok in Hb1 as [Hf ->]. split; [reflexivity | intros _; exact Hf].
    - injection Hb1 as <-. split; [reflexivity | discriminate]. }
  apply transfer_Ok in Hb2 as [Hf2 ->].
  split; [exact Hf1|]. split; [exact Hf2|].
  destruct (price a <? value) eqn:E.
  - apply bind_Ok in Hb3 as (excess & Hex & Hb3).
    unfold checked_sub in Hex. destruct (price a <=? value); [|discriminate].
    injection Hex as <-. apply transfer_Ok in Hb3 as [Hf3 ->].
    split; [intros _; exact Hf3 | reflexivity].
  - injection Hb3 as <-. split; [discriminate | reflexivity].
Qed.

Lemma minted_set_owner_of (s : State) (t : N) (to : address) :
  minted s t -> to <> zero_address ->
  forall t', minted (set_token (ERC721.set_owner_of t to (token s)) s) t'
             <-> minted s t'.
Proof.
  intros Hm Hto t'. unfold minted, set_token, ERC721.set_owner_of in *. cbn.
  rewrite read_insert. destruct (decide (t = t')) as [<- | _]; tauto.
Qed.

Lemma registry_inv_exec m c bal s bal' s' :
  registry_inv s ->
  exec m c (bal, s) = Ok (bal', s') ->
  registry_inv s'.
Proof.
  intros Hinv H.
  destruct c as [ty nm desc ver h pub roy pr sale | t ver h changelog
                | t pr sale | value t | to t | from to t | | | ];
    cbn [exec fst snd] in H.
  - apply bind_Ok in H as (s1 & H & [= _ <-]). eapply registry_inv_mint; eassumption.
  - apply bind_Ok in H as (s1 & H & [= _ <-]). eapply registry_inv_update; eassumption.
  - apply bind_Ok in H as (s1 & H & [= _ <-]).
    unfold updateAssetPrice, onlyAssetOwner in H.
    apply bind_Ok in H as (? & Hown & H).
    apply bind_Ok in Hown as (o & Ho%ownerOf_minted & _).
    apply bind_Ok in H as (? & _ & [= <-]).
    destruct Hinv as (Hminted & Hrest).
    destruct (proj2 (Hminted t) Ho) as [a Ha].
    rewrite (read_Some _ _ _ Ha).
    apply (registry_inv_frame s); [exact (conj Hminted Hrest) | reflexivity..| |].
    + intros t0. cbn. rewrite lookup_insert.
      destruct (decide (t = t0)) as [<- | _]; [|reflexivity].
      split; [discriminate | congruence].
    + intros t0 a0 a'. cbn. rewrite lookup_insert.
      destruct (decide (t = t0)) as [<- | _].
      * intros Ha0 [= <-]. assert (a0 = a) as -> by congruence.
        repeat split.
      * intros Ha0 Ha'. assert (a' = a0) as -> by congruence. repeat split.
  - apply buyAsset_state in H as (seller & Hchecks & -> & _).
    destruct Hchecks as (_ & _ & _ & _ & Ho%ownerOf_minted & _ & Hsender & _).
    destruct Hinv as (Hminted & Hrest).
    destruct (proj2 (Hminted t) Ho) as [a Ha].
    rewrite (read_Some _ _ _ Ha).
    apply (registry_inv_frame s); [exact (conj Hminted Hrest) | | reflexivity..| |].
    + apply minted_set_owner_of; assumption.
    + intros t0. cbn. rewrite lookup_insert.
      destruct (decide (t = t0)) as [<- | _]; [|reflexivity].
      split; [discriminate | congruence].
    + intros t0 a0 a'. cbn. rewrite lookup_insert.
      destruct (decide (t = t0)) as [<- | _].
      * intros Ha0 [= <-]. assert (a0 = a) as -> by congruence.
        repeat split.
      * intros Ha0 Ha'. assert (a' = a0) as -> by congruence. repeat split.
  - apply bind_Ok in H as (s1 & H & [= _ <-]).
    unfold approve, ERC721.approve in H.
    apply bind_Ok in H as (tk & H & [= <-]).
    apply bind_Ok in H as (o & _ & H).
    apply bind_Ok in H as (? & _ & H).
    apply bind_Ok in H as (? & _ & [= <-]).
    apply (registry_inv_frame s); [exact Hinv | | reflexivity..| |].
    + intros t0. reflexivity.
    + intros t0. reflexivity.
    + intros t0 a a' Ha Ha'. cbn in Ha'. assert (a' = a) as -> by congruence.
      repeat split.
  - apply bind_Ok in H as (s1 & H & [= _ <-]).
    apply transferFrom_Ok in H as (H & _ & Ho%ownerOf_minted & _).
    apply _transfer_Ok in H as (-> & Hto & _).
    apply (registry_inv_frame s); [exact Hinv | | reflexivity..| |].
    + apply minted_set_owner_of; assumption.
    + intros t0. reflexivity.
    + intros t0 a a' Ha Ha'. cbn in Ha'. assert (a' = a) as -> by congruence.
      repeat split.
  - apply bind_Ok in H as (s1 & H & [= _ <-]). unfold pause in H.
    apply bind_Ok in H as (? & _ & H). apply bind_Ok in H as (? & _ & [= <-]).
    apply (registry_inv_frame s); [exact Hinv | | reflexivity..| |].
    + intros t0. reflexivity.
    + intros t0. reflexivity.
    + intros t0 a a' Ha Ha'. cbn in Ha'. assert (a' = a) as -> by congruence.
      repeat split.
  - apply bind_Ok in H as (s1 & H & [= _ <-]). unfold unpause in H.
    apply bind_Ok in H as (? & _ & H). apply bind_Ok in H as (? & _ & [= <-]).
    apply (registry_inv_frame s); [exact Hinv | | reflexivity..| |].
    + intros t0. reflexivity.
    + intros t0. reflexivity.
    + intros t0 a a' Ha Ha'. cbn in Ha'. assert (a' = a) as -> by congruence.
      repeat split.
  - unfold withdraw in H. cbn [fst snd] in H.
    apply bind_Ok in H as (? & _ & H). apply bind_Ok in H as (? & _ & [= _ <-]).
    exact Hinv.
Qed.

Lemma registry_state_inv (s : State) : registry_state s -> registry_inv s.
Proof.
  induction 1 as [self deployer | s m c bal bal' s' _ IH Hstep].
  - apply registry_inv_deploy.
  - eapply registry_inv_exec; eassumption.
Qed.

End RegistryInvariant.

Section RegistryHistory.

Import AIAssetNFT.

Lemma same_terms_refl (a : Asset) : same_terms a a.
Proof. repeat split. Qed.

Lemma same_terms_trans (a b c : Asset) :
  same_terms a b -> same_terms b c -> same_terms a c.
Proof.
  unfold same_terms. intros (?&?&?&?&?&?&?&?) (?&?&?&?&?&?&?&?).
  repeat split; congruence.
Qed.

Lemma exec_same_terms m c bal s bal' s' t a :
  registry_inv s ->
  exec m c (bal, s) = Ok (bal', s') ->
  assets s !! t = Some a ->
  exists a', assets s' !! t = Some a' /\ same_terms a a'.
Proof.
  intros Hinv H Ha.
  assert (forall t0 a0, assets s !! t0 = Some a0 -> assets s !!0 t0 = a0) as Hread
    by (intros; apply read_Some; assumption).
  destruct c as [ty nm desc ver h pub roy pr sale | t0 ver h changelog
                | t0 pr sale | value t0 | to t0 | from to t0 | | | ];
    cbn [exec fst snd] in H.
  - apply bind_Ok in H as (s1 & H & [= _ <-]).
    apply mintAsset_state in H as (Hchecks & ->).
    destruct Hchecks as (_ & _ & _ & Hfree & _).
    cbn [assets]. rewrite lookup_insert.
    destruct (decide (_tokenIdCounter s = t)) as [<- | _].
    + exfalso. destruct Hinv as (Hminted & _).
      assert (minted s (_tokenIdCounter s)) as Hm
        by (apply Hminted; rewrite Ha; eauto).
      apply Hm, Hfree.
    + exists a. split; [exact Ha | apply same_terms_refl].
  - apply bind_Ok in H as (s1 & H & [= _ <-]).
    apply updateAsset_state in H as (_ & ->).
    cbn [assets]. rewrite lookup_insert.
    destruct (decide (t0 = t)) as [-> | _].
    + rewrite (Hread _ _ Ha). eexists. split; [reflexivity|]. repeat split.
    + exists a. split; [exact Ha | apply same_terms_refl].
  - apply bind_Ok in H as (s1 & H & [= _ <-]).
    unfold updateAssetPrice in H.
    apply bind_Ok in H as (? & _ & H). apply bind_Ok in H as (? & _ & [= <-]).
    cbn [assets]. rewrite lookup_insert.
    destruct (decide (t0 = t)) as [-> | _].
    + rewrite (Hread _ _ Ha). eexists. split; [reflexivity|]. repeat split.
    + exists a. split; [exact Ha | apply same_terms_refl].
  - apply buyAsset_state in H as (seller & _ & -> & _).
    cbn [assets set_assets set_token]. rewrite lookup_insert.
    destruct (decide (t0 = t)) as [-> | _].
    + rewrite (Hread _ _ Ha). eexists. split; [reflexivity|]. repeat split.
    + exists a. split; [exact Ha | apply same_terms_refl].
  - apply bind_Ok in H as (s1 & H & [= _ <-]). unfold approve in H.
    apply bind_Ok in H as (tk & _ & [= <-]).
    exists a. split; [exact Ha | apply same_terms_refl].
  - apply bind_Ok in H as (s1 & H & [= _ <-]). unfold transferFrom in H.
    apply bind_Ok in H as (tk & _ & [= <-]).
    exists a. split; [exact Ha | apply same_terms_refl].
  - apply bind_Ok in H as (s1 & H & [= _ <-]). unfold pause in H.
    apply bind_Ok in H as (? & _ & H). apply bind_Ok in H as (? & _ & [= <-]).
    exists a. split; [exact Ha | apply same_terms_refl].
  - apply bind_Ok in H as (s1 & H & [= _ <-]). unfold unpause in H.
    apply bind_Ok in H as (? & _ & H). apply bind_Ok in H as (? & _ & [= <-]).
    exists a. split; [exact Ha | apply same_terms_refl].
  - unfold withdraw in H. cbn [fst snd] in H.
    apply bind_Ok in H as (? & _ & H). apply bind_Ok in H as (? & _ & [= _ <-]).
    exists a. split; [exact Ha | apply same_terms_refl].
Qed.

(** X1. In every state of the registry reached from deployment, a content
    hash occurs at most once over the version histories of all assets, and
    two assets never have the same current content hash. *)
Theorem content_hashes_unique (s : State) :
  registry_state s ->
  (forall t1 i1 v1 t2 i2 v2,
      getAssetVersions t1 s !! i1 = Some v1 ->
      getAssetVersions t2 s !! i2 = Some v2 ->
      v_ipfsHash v1 = v_ipfsHash v2 ->
      t1 = t2 /\ i1 = i2)
  /\ (forall t1 a1 t2 a2,
         assets s !! t1 = Some a1 -> assets s !! t2 = Some a2 ->
         ipfsHash a1 = ipfsHash a2 -> t1 = t2).
Proof.
  intros Hstate.
  apply registry_state_inv in Hstate as (_ & _ & Hwf & _ & Huniq & _).
  split; [exact Huniq|].
  intros t1 a1 t2 a2 Ha1 Ha2 Heq.
  destruct (Hwf t1 a1 Ha1) as (_ & _ & _ & _ & v1 & Hl1 & Hh1 & _).
  destruct (Hwf t2 a2 Ha2) as (_ & _ & _ & _ & v2 & Hl2 & Hh2 & _).
  rewrite last_lookup in Hl1, Hl2.
  destruct (Huniq _ _ _ _ _ _ Hl1 Hl2) as [-> _]; congruence.
Qed.

(** X2. In every state reached from deployment the version history of a
    minted asset is not empty: its first entry is the "Initial version"
    recorded at [createdAt] and its last entry carries the version label,
    the content hash and the [updatedAt] time that [getAsset] returns. *)
Theorem history_matches_asset (s : State) (t : N) (o : address) :
  registry_state s ->
  ownerOf t s = Ok o ->
  let a := getAsset t s in
  tokenId a = t
  /\ (exists v0, head (getAssetVersions t s) = Some v0
                 /\ v_changelog v0 = "Initial version"
                 /\ v_timestamp v0 = createdAt a)
  /\ (exists v, last (getAssetVersions t s) = Some v
                /\ v_ipfsHash v = ipfsHash a
                /\ v_version v = version a
                /\ v_timestamp v = updatedAt a).
Proof.
  intros Hstate Howner a.
  apply registry_state_inv in Hstate as (Hminted & _ & Hwf & _).
  apply ownerOf_minted in Howner.
  destruct (proj2 (Hminted t) Howner) as [a0 Ha0].
  assert (a = a0) as -> by (apply read_Some; exact Ha0).
  destruct (Hwf t a0 Ha0) as (Hid & _ & _ & Hhead & Hlast).
  split; [exact Hid|]. split; [exact Hhead | exact Hlast].
Qed.

(** X3. Over any run of calls from a state reached from deployment, the
    record of an asset stays in place and keeps its id, type, name,
    description, creator, creation time, visibility and royalty rate, and
    the royalty rate is at most 1000 basis points. *)
Theorem asset_terms_immutable (s s' : State) (t : N) (a : Asset) :
  registry_state s ->
  registry_run s s' ->
  assets s !! t = Some a ->
  exists a', assets s' !! t = Some a'
             /\ same_terms a a'
             /\ royaltyPercentage a' <= 1000
             /\ creator a' <> zero_address.
Proof.
  intros Hstate Hrun. apply registry_state_inv in Hstate. revert a.
  induction Hrun as [s | s m c bal bal' s1 s2 Hstep _ IH]; intros a Ha.
  - exists a. destruct Hstate as (_ & _ & Hwf & _).
    destruct (Hwf t a Ha) as (_ & Hroy & Hcr & _).
    repeat split; try assumption.
  - destruct (exec_same_terms _ _ _ _ _ _ _ _ Hstate Hstep Ha) as (a1 & Ha1 & Hsame).
    destruct (IH (registry_inv_exec _ _ _ _ _ _ Hstate Hstep) a1 Ha1)
      as (a' & Ha' & Hsame' & Hroy & Hcr).
    exists a'. split; [exact Ha'|]. split; [|split; assumption].
    eapply same_terms_trans; eassumption.
Qed.

(** X4. [getCreatorAssets(creator)] lists, each once, exactly the assets
    whose record names [creator] as creator, whoever owns them now. *)
Theorem getCreatorAssets_exact (s : State) (c : address) :
  registry_state s ->
  NoDup (getCreatorAssets c s)
  /\ forall t, t ∈ getCreatorAssets c s
               <-> exists a, assets s !! t = Some a /\ creator a = c.
Proof.
  intros Hstate.
  apply registry_state_inv in Hstate as (_ & _ & _ & _ & _ & Hindex & Hnodup).
  split; [apply Hnodup | apply Hindex].
Qed.

End RegistryHistory.

Section RegistryPayments.

Import AIAssetNFT.

(** X5. In a successful [buyAsset] the buyer pays exactly the listed price:
    the royalty floor(price * royaltyPercentage / 10000) goes to the creator
    and the rest of the price to the previous owner, what was sent above
    the price comes back, the contract keeps nothing, and the buyer becomes
    the owner. *)
Theorem buyAsset_payment_split m value t bal s bal' s' :
  buyAsset m value t (bal, s) = Ok (bal', s') ->
  let a := getAsset t s in
  let royalty := price a * royaltyPercentage a / 10000 in
  exists seller,
    ownerOf t s = Ok seller
    /\ seller <> sender m
    /\ royalty <= price a <= value
    /\ ownerOf t s' = Ok (sender m)
    /\ forall x,
         balanceOf bal' x
         = balanceOf (move (sender m) seller (price a - royalty)
                        (move (sender m) (creator a) royalty bal)) x.
Proof.
  intros H a royalty.
  apply buyAsset_state in H as (seller & Hchecks & -> & Hbal).
  fold (getAsset t s) in Hchecks, Hbal. fold a royalty in Hchecks, Hbal.
  destruct Hchecks as (_ & _ & Hpay & Hfunds & Howner & Hne & Hsender & Hroy).
  exists seller. split; [exact Howner|]. split; [exact Hne|].
  split; [lia|]. split.
  { apply (ownerOf_set_owner_of t (sender m) s Hsender). }
  cbn zeta in Hbal. destruct Hbal as (Hf1 & Hf2 & Hf3 & ->).
  intros x.
  set (buyer := sender m) in *. set (self := this s) in *.
  set (cr := creator a) in *. set (p := price a) in *.
  clearbody buyer self cr p royalty. clear Howner Hsender Hne.
  destruct (0 <? royalty) eqn:E1, (p <? value) eqn:E2;
    try specialize (Hf1 eq_refl); try specialize (Hf3 eq_refl);
    rewrite ?balanceOf_move in *;
    repeat case_decide; subst; try congruence; lia.
Qed.

End RegistryPayments.

(** ** Loops over arrays *)

Section Loops.

Context {A : Type} `{Zero A}.

Local Open Scope list_scope.

Lemma checked_add_Ok (a b : N) :
  a + b < modulus -> checked_add a b = Ok (a + b).
Proof.
  intros Hlt. unfold checked_add. destruct (a + b <? modulus) eqn:E; [reflexivity | lia].
Qed.

Lemma array_set_Ok (array : list A) (i : nat) (x : A) :
  (i < length array)%nat ->
  array_set array (N.of_nat i) x = Ok (<[i := x]> array).
Proof.
  intros Hi. unfold array_set.
  destruct (N.of_nat i <? N.of_nat (length array)) eqn:E; [|lia].
  rewrite Nat2N.id. reflexivity.
Qed.

Lemma insert_first_zero (done : list A) (n i : nat) (x : A) :
  i = length done ->
  <[i := x]> (done ++ replicate (S n) zero)
  = (done ++ [x]) ++ replicate n zero.
Proof.
  intros ->. rewrite insert_app_r_alt by lia. rewrite Nat.sub_diag. cbn.
  rewrite <- app_assoc. reflexivity.
Qed.

(** The loop that copies [f i] into slot [i] for the ids [k .. k+n-1]. *)
Lemma for_loop_tabulate (f : N -> A) (n k : nat) (done : list A) :
  length done = k ->
  for_loop n (N.of_nat k) (fun i array => array_set array i (f i))
    (done ++ replicate n zero)
  = Ok (done ++ map f (map N.of_nat (seq k n))).
Proof.
  revert k done. induction n as [| n IH]; intros k done <-; cbn [for_loop].
  - cbn. reflexivity.
  - rewrite array_set_Ok by (rewrite length_app, length_replicate; lia).
    rewrite insert_first_zero by reflexivity.
    replace (N.of_nat (length done) + 1)
      with (N.of_nat (length (done ++ [f (N.of_nat (length done))])))
      by (rewrite length_app; cbn; lia).
    rewrite IH by reflexivity.
    rewrite length_app. cbn [seq map length]. rewrite <- app_assoc.
    replace (length done + 1)%nat with (S (length done)) by lia. reflexivity.
Qed.

(** The loop that copies [f ids[i]] into slot [i]. *)
Lemma for_loop_map (f : N -> A) (ids done_ids rest : list N) :
  ids = (done_ids ++ rest)%list ->
  for_loop (length rest) (N.of_nat (length done_ids))
    (fun i array => id ← array_get ids i ; array_set array i (f id))
    (map f done_ids ++ replicate (length rest) zero)
  = Ok (map f ids).
Proof.
  revert done_ids. induction rest as [| id rest IH]; intros done_ids ->;
    cbn [for_loop length].
  - cbn. rewrite !app_nil_r. reflexivity.
  - unfold array_get at 1. rewrite Nat2N.id.
    rewrite lookup_app_r by lia. rewrite Nat.sub_diag. cbn [lookup list_lookup].
    cbn [mbind Result_bind bind].
    rewrite array_set_Ok
      by (rewrite length_app, length_map, length_replicate; lia).
    rewrite insert_first_zero by (rewrite length_map; reflexivity).
    replace (N.of_nat (length done_ids) + 1)
      with (N.of_nat (length (done_ids ++ [id]))) by (rewrite length_app; cbn; lia).
    replace (map f done_ids ++ [f id]) with (map f (done_ids ++ [id]))
      by (rewrite map_app; reflexivity).
    rewrite IH by (rewrite <- app_assoc; reflexivity).
    reflexivity.
Qed.

(** The counting loop of the two filtered views. *)
Lemma for_loop_count (P : N -> bool) (n k : nat) (count : N) :
  count + N.of_nat n < modulus ->
  for_loop n (N.of_nat k)
    (fun i count => if P i then checked_add count 1 else Ok count) count
  = Ok (count + N.of_nat (length (List.filter P (map N.of_nat (seq k n))))).
Proof.
  revert k count. induction n as [| n IH]; intros k count Hbound; cbn [for_loop].
  - cbn. f_equal. lia.
  - replace (N.of_nat k + 1) with (N.of_nat (S k)) by lia.
    cbn [seq map List.filter]. destruct (P (N.of_nat k)).
    + rewrite checked_add_Ok by lia.
      rewrite IH by lia. cbn [length]. f_equal. lia.
    + rewrite IH by lia. reflexivity.
Qed.

Lemma filter_length_le (P : N -> bool) (l : list N) :
  (length (List.filter P l) <= length l)%nat.
Proof.
  induction l as [| x l IH]; cbn; [lia|]. destruct (P x); cbn; lia.
Qed.

(** The filling loop of the two filtered views. *)
Lemma for_loop_fill (P : N -> bool) (f : N -> A) (n k : nat) (done : list A) :
  N.of_nat (length done) + N.of_nat n < modulus ->
  for_loop n (N.of_nat k)
    (fun i st =>
       if P i
       then (arr ← array_set st.1 st.2 (f i) ;
             index ← checked_add st.2 1 ;
             Ok (arr, index))
       else Ok st)
    (done ++ replicate (length (List.filter P (map N.of_nat (seq k n)))) zero,
     N.of_nat (length done))
  = Ok (done ++ map f (List.filter P (map N.of_nat (seq k n))),
        N.of_nat (length done
                  + length (List.filter P (map N.of_nat (seq k n))))).
Proof.
  revert k done. induction n as [| n IH]; intros k done Hbound; cbn [for_loop].
  - cbn. rewrite Nat.add_0_r. reflexivity.
  - replace (N.of_nat k + 1) with (N.of_nat (S k)) by lia.
    cbn [seq map List.filter]. destruct (P (N.of_nat k)).
    + cbn [length replicate fst snd].
      rewrite array_set_Ok by (rewrite length_app; cbn; lia).
      change (?x :: replicate ?n zero) with (replicate (S n) (@zero A _)).
      rewrite insert_first_zero by reflexivity.
      rewrite checked_add_Ok by lia. cbn [mbind Result_bind bind].
      replace (N.of_nat (length done) + 1)
        with (N.of_nat (length (done ++ [f (N.of_nat k)])))
        by (rewrite length_app; cbn; lia).
      rewrite IH by (rewrite length_app; cbn; lia).
      rewrite length_app. cbn [length map]. rewrite <- app_assoc.
      f_equal. f_equal. lia.
    + rewrite IH by lia. reflexivity.
Qed.

End Loops.

Section RegistryViews.

Import AIAssetNFT.

Lemma filter_map_comm {B : Type} (P : B -> bool) (f : N -> B) (l : list N) :
  map f (List.filter (fun i => P (f i)) l) = List.filter P (map f l).
Proof.
  induction l as [| x l IH]; cbn; [reflexivity|].
  destruct (P (f x)); cbn; rewrite IH; reflexivity.
Qed.

Lemma ids_below_length (n : N) : length (ids_below n) = N.to_nat n.
Proof. unfold ids_below. rewrite length_map, length_seq. reflexivity. Qed.

(** X6. [getAllAssets] and [getAssetsForSale] never run out of their
    arrays: the first returns the records at the ids below the counter in
    id order, the second exactly those of them that are listed for sale,
    in the same order. *)
Theorem registry_views_exact (s : State) :
  _tokenIdCounter s < modulus ->
  getAllAssets s = Ok (map (fun i => assets s !!0 i) (ids_below (_tokenIdCounter s)))
  /\ getAssetsForSale s
     = Ok (List.filter isForSale
             (map (fun i => assets s !!0 i) (ids_below (_tokenIdCounter s)))).
Proof.
  intros Hbound. split.
  - unfold getAllAssets, new_array, ids_below.
    exact (for_loop_tabulate (fun i => assets s !!0 i)
             (N.to_nat (_tokenIdCounter s)) 0 [] eq_refl).
  - unfold getAssetsForSale, new_array, ids_below.
    rewrite (for_loop_count (fun i => isForSale (assets s !!0 i))
               (N.to_nat (_tokenIdCounter s)) 0 0) by lia.
    cbn [mbind Result_bind bind]. rewrite N.add_0_l, Nat2N.id.
    pose proof (filter_length_le (fun i => isForSale (assets s !!0 i))
                  (map N.of_nat (seq 0 (N.to_nat (_tokenIdCounter s))))) as Hle.
    rewrite length_map, length_seq in Hle.
    pose proof (for_loop_fill (fun i => isForSale (assets s !!0 i))
                  (fun i => assets s !!0 i)
                  (N.to_nat (_tokenIdCounter s)) 0 []) as Hfill.
    cbn [app length] in Hfill. change (N.of_nat 0) with 0 in Hfill.
    rewrite Hfill by lia.
    cbn [mbind Result_bind bind fst]. rewrite filter_map_comm. reflexivity.
Qed.

(** X7. While the registry is paused, minting, version updates and price
    updates by the owner of the asset and funded direct purchases all
    revert with "Pausable: paused"; the owner of the contract, and nobody
    else, can pause, and unpausing returns exactly the state before the
    pause. *)
Theorem registry_pause (s : State) (m : Msg) :
  (paused s = true ->
   (forall ty nm desc ver h pub roy pr sale,
       mintAsset m ty nm desc ver h pub roy pr sale s = Revert Paused)
   /\ (forall t ver h changelog,
          ownerOf t s = Ok (sender m) ->
          updateAsset m t ver h changelog s = Revert Paused)
   /\ (forall t pr sale,
          ownerOf t s = Ok (sender m) ->
          updateAssetPrice m t pr sale s = Revert Paused)
   /\ (forall bal value t,
          value <= balanceOf bal (sender m) ->
          buyAsset m value t (bal, s) = Revert Paused))
  /\ (paused s = false ->
      pause m s = (if owner s =? sender m then Ok (set_paused true s)
                   else Revert NotAdmin)
      /\ forall m', owner s = sender m' ->
                    unpause m' (set_paused true s) = Ok s).
Proof.
  split.
  - intros Hp. repeat split.
    + intros. unfold mintAsset, whenNotPaused. rewrite Hp. reflexivity.
    + intros t ver h changelog Ho.
      unfold updateAsset, onlyAssetOwner, whenNotPaused. rewrite Ho, Hp. cbn.
      rewrite N.eqb_refl. reflexivity.
    + intros t pr sale Ho.
      unfold updateAssetPrice, onlyAssetOwner, whenNotPaused. rewrite Ho, Hp. cbn.
      rewrite N.eqb_refl. reflexivity.
    + intros bal value t Hfunds. unfold buyAsset, whenNotPaused. cbn [fst snd].
      rewrite (receive_funded _ _ _ _ Hfunds), Hp. reflexivity.
  - intros Hp. split.
    + unfold pause, onlyOwner. destruct (owner s =? sender m); cbn; [|reflexivity].
      rewrite Hp. reflexivity.
    + intros m' Ho. unfold unpause, onlyOwner. cbn. rewrite Ho, N.eqb_refl. cbn.
      destruct s. cbn in *. subst. reflexivity.
Qed.

End RegistryViews.

(** ** Runs of the license registry *)

Section LicenseRuns.

Import LicenseManager.

Lemma validLicense_Some (id : N) (s : State) (u : unit) :
  validLicense id s = Ok u ->
  exists l, licenses s !! id = Some l /\ licenses s !!0 id = l
            /\ licenseId l <> 0.
Proof.
  unfold validLicense. intros Hvalid%require_Ok.
  destruct (licenses s !! id) as [l|] eqn:E.
  - exists l. rewrite (read_Some _ _ _ E) in *. repeat split. lia.
  - rewrite (read_None _ _ E) in Hvalid. discriminate.
Qed.

Lemma recordUsage_state m id action details (s s' : State) :
  recordUsage m id action details s = Ok s' ->
  exists l,
    (licenses s !! id = Some l /\ licenseId l <> 0 /\ isActive l = true
     /\ (endTime l = 0 \/ timestamp m <= endTime l)
     /\ licensee l = sender m)
    /\ s' = mkState (this s) (owner s) (paused s) (licenses s)
              (<[id := push (licenseUsage s !!0 id)
                         (mkUsageRecord id (sender m) (timestamp m) action details)]>
                 (licenseUsage s))
              (userLicenses s) (userIssuedLicenses s) (assetLicensable s)
              (_licenseIdCounter s).
Proof.
  unfold recordUsage, activeLicense, onlyLicensee. intros H.
  apply bind_Ok in H as (? & Hvalid & H).
  apply validLicense_Some in Hvalid as (l & Hl & Hread & Hid).
  rewrite Hread in H.
  apply bind_Ok in H as (? & Hact & H).
  apply bind_Ok in Hact as (? & Hactive%require_Ok & Htime%require_Ok).
  apply bind_Ok in H as (? & Hlic%require_Ok & [= <-]).
  exists l. split; [|reflexivity].
  repeat split; try assumption; lia.
Qed.

Lemma deactivateLicense_state m id (s s' : State) :
  deactivateLicense m id s = Ok s' ->
  exists l,
    (licenses s !! id = Some l /\ licenseId l <> 0 /\ licensor l = sender m)
    /\ s' = mkState (this s) (owner s) (paused s)
              (<[id := set_isActive false l]> (licenses s))
              (licenseUsage s) (userLicenses s) (userIssuedLicenses s)
              (assetLicensable s) (_licenseIdCounter s).
Proof.
  unfold deactivateLicense, onlyLicenseOwner. intros H.
  apply bind_Ok in H as (? & Hvalid & H).
  apply validLicense_Some in Hvalid as (l & Hl & Hread & Hid).
  rewrite Hread in H.
  apply bind_Ok in H as (? & Hown%require_Ok & [= <-]).
  exists l. split; [|reflexivity]. repeat split; try assumption. lia.
Qed.

(** The calls other than [createLicense], [recordUsage] and
    [deactivateLicense] leave licenses, indexes and usage logs as they
    are. *)
Lemma exec_admin_frame m c bal s bal' s' :
  exec m c (bal, s) = Ok (bal', s') ->
  match c with
  | CreateLicense _ _ _ _ _ _ _ | RecordUsage _ _ _ | DeactivateLicense _ => True
  | _ => licenses s' = licenses s /\ licenseUsage s' = licenseUsage s
         /\ userLicenses s' = userLicenses s
         /\ userIssuedLicenses s' = userIssuedLicenses s
         /\ _licenseIdCounter s' = _licenseIdCounter s
  end.
Proof.
  intros H. destruct c; cbn [exec fst snd] in H; try exact I.
  - apply bind_Ok in H as (s1 & H & [= _ <-]). unfold setAssetLicensability in H.
    apply bind_Ok in H as (? & _ & [= <-]). repeat split.
  - apply bind_Ok in H as (s1 & H & [= _ <-]).
    unfold batchSetAssetLicensability in H.
    apply bind_Ok in H as (? & _ & H). apply bind_Ok in H as (? & _ & [= <-]).
    repeat split.
  - apply bind_Ok in H as (s1 & H & [= _ <-]). unfold pause in H.
    apply bind_Ok in H as (? & _ & H). apply bind_Ok in H as (? & _ & [= <-]).
    repeat split.
  - apply bind_Ok in H as (s1 & H & [= _ <-]). unfold unpause in H.
    apply bind_Ok in H as (? & _ & H). apply bind_Ok in H as (? & _ & [= <-]).
    repeat split.
Qed.

Lemma license_inv_frame (s s' : State) :
  licenses s' = licenses s -> licenseUsage s' = licenseUsage s ->
  userLicenses s' = userLicenses s ->
  userIssuedLicenses s' = userIssuedLicenses s ->
  _licenseIdCounter s' = _licenseIdCounter s ->
  license_inv s -> license_inv s'.
Proof. unfold license_inv. intros -> -> -> -> ->. tauto. Qed.

Lemma license_inv_create m value asset to ty pr dur tm bal s bal' s' :
  createLicense m value asset to ty pr dur tm (bal, s) = Ok (bal', s') ->
  licenses_indexed s -> license_inv s -> license_inv s'.
Proof.
  intros H [Hbound Hidx] (Hwf & Hissued & Hzero & Hnd1 & Hnd2 & Hlog).
  pose proof H as Hcall.
  apply createLicense_Ok in H as (endTime & counter & Hchecks & Hend & -> & _).
  destruct Hchecks as (_ & _ & ->).
  set (id := _licenseIdCounter s) in *.
  assert (licenses s !! id = None) as Hfresh.
  { destruct (licenses s !! id) eqn:E; [|reflexivity].
    assert (id < id) by (apply Hbound; rewrite E; eauto). lia. }
  assert (to <> zero_address /\ to <> sender m) as [Hto Hself].
  { unfold createLicense in Hcall. cbn [fst snd] in Hcall.
    apply bind_Ok in Hcall as (? & _ & Hcall).
    apply bind_Ok in Hcall as (? & _ & Hcall).
    apply bind_Ok in Hcall as (? & _ & Hcall).
    apply bind_Ok in Hcall as (? & H1%require_Ok & Hcall).
    apply bind_Ok in Hcall as (? & H2%require_Ok & _).
    unfold zero_address in *. split; lia. }
  unfold license_inv.
  cbn [licenses userLicenses userIssuedLicenses licenseUsage
       LicenseManager._licenseIdCounter].
  refine (conj _ (conj _ (conj _ (conj _ (conj _ _))))).
  - intros id' l. rewrite lookup_insert.
    destruct (decide (id = id')) as [<- | _].
    + intros [= <-]. cbn. repeat split; try assumption; try lia.
    + intros Hl. destruct (Hwf _ _ Hl) as (? & ? & ? & ? & ? & ?).
      repeat split; try assumption. lia.
  - intros u id'. rewrite read_insert, lookup_insert.
    destruct (decide (sender m = u)) as [<- | Hother].
    + unfold push. rewrite elem_of_app, list_elem_of_singleton, Hissued.
      destruct (decide (id = id')) as [<- | Hne]; cbn.
      * split; [intros _; eexists; split; reflexivity | tauto].
      * split; [intros [Hold | ->]; [exact Hold | congruence] | tauto].
    + rewrite Hissued. destruct (decide (id = id')) as [<- | Hne]; cbn; [|reflexivity].
      split.
      * intros (l & Hl & _). congruence.
      * intros (l & [= <-] & Hl). cbn in Hl. congruence.
  - intros l. rewrite lookup_insert.
    destruct (decide (id = 0)) as [_ | _]; [intros [= <-]; reflexivity | apply Hzero].
  - intros u. rewrite read_insert.
    destruct (decide (to = u)) as [<- | _]; [|apply Hnd1].
    unfold push. apply NoDup_app. repeat split.
    + apply Hnd1.
    + intros x Hx Hx'. apply list_elem_of_singleton in Hx' as ->.
      apply Hidx in Hx as (l & Hl & _). congruence.
    + apply NoDup_singleton.
  - intros u. rewrite read_insert.
    destruct (decide (sender m = u)) as [<- | _]; [|apply Hnd2].
    unfold push. apply NoDup_app. repeat split.
    + apply Hnd2.
    + intros x Hx Hx'. apply list_elem_of_singleton in Hx' as ->.
      apply Hissued in Hx as (l & Hl & _). congruence.
    + apply NoDup_singleton.
  - intros id' r Hr. destruct (Hlog id' r Hr) as (l & Hl & Hrest).
    exists l. split; [|exact Hrest]. rewrite lookup_insert.
    destruct (decide (id = id')) as [<- | _]; [congruence | exact Hl].
Qed.

Lemma license_inv_record m id action details (s s' : State) :
  recordUsage m id action details s = Ok s' ->
  license_inv s -> license_inv s'.
Proof.
  intros H (Hwf & Hissued & Hzero & Hnd1 & Hnd2 & Hlog).
  apply recordUsage_state in H as (l & Hchecks & ->).
  destruct Hchecks as (Hl & Hid & _ & Htime & Hlic).
  assert (id <> 0) as Hnz by (destruct (Hwf _ _ Hl) as [<- _]; exact Hid).
  unfold license_inv.
  cbn [licenses userLicenses userIssuedLicenses licenseUsage
       LicenseManager._licenseIdCounter].
  refine (conj Hwf (conj Hissued (conj Hzero (conj Hnd1 (conj Hnd2 _))))).
  intros id' r. rewrite read_insert.
  destruct (decide (id = id')) as [<- | _]; [|apply Hlog].
  unfold push. rewrite elem_of_app, list_elem_of_singleton.
  intros [Hold | ->]; [apply Hlog, Hold|].
  exists l. cbn. repeat split; [exact Hl | exact Hnz | congruence | exact Htime].
Qed.

Lemma license_inv_deactivate m id (s s' : State) :
  deactivateLicense m id s = Ok s' ->
  license_inv s -> license_inv s'.
Proof.
  intros H (Hwf & Hissued & Hzero & Hnd1 & Hnd2 & Hlog).
  apply deactivateLicense_state in H as (l & Hchecks & ->).
  destruct Hchecks as (Hl & Hid & _).
  destruct (Hwf _ _ Hl) as (Hlid & Hrest).
  unfold license_inv.
  cbn [licenses userLicenses userIssuedLicenses licenseUsage
       LicenseManager._licenseIdCounter].
  refine (conj _ (conj _ (conj _ (conj Hnd1 (conj Hnd2 _))))).
  - intros id' l'. rewrite lookup_insert.
    destruct (decide (id = id')) as [<- | _]; [|apply Hwf].
    intros [= <-]. cbn. split; [exact Hlid | exact Hrest].
  - intros u id'. rewrite Hissued, lookup_insert.
    destruct (decide (id = id')) as [<- | _]; cbn; [|reflexivity].
    split.
    + intros (l0 & Hl0 & Hu). eexists. split; [reflexivity|]. cbn. congruence.
    + intros (l0 & [= <-] & Hu). exists l. split; [exact Hl | exact Hu].
  - intros l'. rewrite lookup_insert.
    destruct (decide (id = 0)) as [-> | _]; [|apply Hzero].
    exfalso. apply Hid. exact Hlid.
  - intros id' r Hr. destruct (Hlog id' r Hr) as (l0 & Hl0 & Hrest').
    rewrite lookup_insert. destruct (decide (id = id')) as [<- | _].
    + assert (l0 = l) as -> by congruence.
      eexists. split; [reflexivity|]. cbn. exact Hrest'.
    + exists l0. split; [exact Hl0 | exact Hrest'].
Qed.

Lemma license_inv_deploy (self deployer : address) :
  license_inv (deploy self deployer).
Proof.
  unfold license_inv, deploy. cbn.
  refine (conj _ (conj _ (conj _ (conj _ (conj _ _))))).
  - intros id l Hl. rewrite lookup_empty in Hl. discriminate.
  - intros u id. rewrite read_empty. split.
    + intros Hin. inversion Hin.
    + intros (l & Hl & _). rewrite lookup_empty in Hl. discriminate.
  - intros l Hl. rewrite lookup_empty in Hl. discriminate.
  - intros u. rewrite read_empty. constructor.
  - intros u. rewrite read_empty. constructor.
  - intros id r Hin. rewrite read_empty in Hin. inversion Hin.
Qed.

Lemma reachable_license_inv (s : State) : reachable s -> license_inv s.
Proof.
  induction 1 as [self deployer | s m c bal bal' s' Hreach IH Hstep].
  - apply license_inv_deploy.
  - pose proof (exec_admin_frame _ _ _ _ _ _ Hstep) as Hframe.
    destruct c; cbn [exec fst snd] in Hstep;
      try (destruct Hframe as (? & ? & ? & ? & ?);
           apply (license_inv_frame s); assumption).
    + eapply license_inv_create;
        [eassumption | apply reachable_licenses_indexed, Hreach | exact IH].
    + apply bind_Ok in Hstep as (s1 & Hcall & [= _ <-]).
      eapply license_inv_record; eassumption.
    + apply bind_Ok in Hstep as (s1 & Hcall & [= _ <-]).
      eapply license_inv_deactivate; eassumption.
Qed.

End LicenseRuns.

Section LicenseLookup.

Import LicenseManager.

(** X8. License ids start at 0 while [validLicense] takes the id 0 for
    "no license": in every state reached from deployment [getLicense],
    [isLicenseExpired], [recordUsage] and [deactivateLicense] revert with
    "License does not exist" on license 0, so the first license ever
    created stays active for good. *)
Theorem license_zero_locked (s : State) (m : Msg) :
  reachable s ->
  getLicense 0 s = Revert NotFound
  /\ (forall now, isLicenseExpired now 0 s = Revert NotFound)
  /\ (forall action details, recordUsage m 0 action details s = Revert NotFound)
  /\ deactivateLicense m 0 s = Revert NotFound
  /\ (forall l, licenses s !! 0 = Some l -> isActive l = true).
Proof.
  intros Hreach.
  apply reachable_license_inv in Hreach as (Hwf & _ & Hzero & _).
  assert (licenseId (licenses s !!0 0) = 0) as Hid.
  { destruct (licenses s !! 0) as [l|] eqn:E.
    - rewrite (read_Some _ _ _ E). apply (Hwf 0 l E).
    - rewrite (read_None _ _ E). reflexivity. }
  unfold getLicense, isLicenseExpired, recordUsage, deactivateLicense, validLicense.
  rewrite Hid. cbn. repeat split. exact Hzero.
Qed.

(** X9. For a license with a nonzero id, [isLicenseExpired] answers false
    exactly when [recordUsage] by the licensee goes through; when it answers
    true the licensee is turned away with "License not active" if the
    license was deactivated and with "License expired" otherwise. *)
Theorem isLicenseExpired_matches_recordUsage (s : State) (m : Msg) (id : N)
    (action details : string) :
  let l := licenses s !!0 id in
  licenseId l <> 0 ->
  licensee l = sender m ->
  (isLicenseExpired (timestamp m) id s = Ok false
   <-> exists s', recordUsage m id action details s = Ok s')
  /\ (isLicenseExpired (timestamp m) id s = Ok true
      <-> recordUsage m id action details s
          = Revert (if isActive l then LicenseExpired else LicenseInactive)).
Proof.
  intros l Hid Hlic.
  assert (negb (licenseId l =? 0) = true) as Hvalid by lia.
  unfold isLicenseExpired, recordUsage, validLicense, activeLicense, onlyLicensee.
  fold l. rewrite Hvalid. cbn.
  destruct (isActive l); cbn.
  - destruct (endTime l =? 0) eqn:E0; cbn.
    + assert ((0 <? endTime l) = false) as -> by lia. cbn.
      assert ((licensee l =? sender m) = true) as -> by lia. cbn.
      split; split; try discriminate; eauto.
    + assert ((0 <? endTime l) = true) as -> by lia. cbn.
      destruct (timestamp m <=? endTime l) eqn:Et; cbn.
      * assert ((endTime l <? timestamp m) = false) as -> by lia.
        assert ((licensee l =? sender m) = true) as -> by lia. cbn.
        split; split; try discriminate; eauto.
      * assert ((endTime l <? timestamp m) = true) as -> by lia.
        split; split; try discriminate; try reflexivity.
        intros [s' Hs']. discriminate.
  - split; split; try discriminate; try reflexivity.
    intros [s' Hs']. discriminate.
Qed.

(** X10. In every state reached from deployment, every record of a usage
    log was written by the licensee of the license it is filed under, names
    that license, and was written no later than the end time of the
    license when the license has one. *)
Theorem usage_log_sound (s : State) (id : N) (r : UsageRecord) :
  reachable s ->
  r ∈ getLicenseUsage id s ->
  exists l, licenses s !! id = Some l
            /\ id <> 0
            /\ u_licenseId r = id
            /\ u_user r = licensee l
            /\ (endTime l = 0 \/ u_timestamp r <= endTime l).
Proof.
  intros Hreach Hin.
  apply reachable_license_inv in Hreach as (_ & _ & _ & _ & _ & Hlog).
  apply Hlog, Hin.
Qed.

End LicenseLookup.

Section LicenseHistory.

Import LicenseManager.

(** X11. Right after a successful [createLicense], [hasValidLicense] holds
    for the licensee and the asset at every time up to the end time
    [block.timestamp + duration], the time before the start included, and
    at every time at all when the duration is 0. *)
Theorem createLicense_grants m value asset to ty pr dur tm bal s bal' s' :
  createLicense m value asset to ty pr dur tm (bal, s) = Ok (bal', s') ->
  forall now,
    (dur = 0 \/ now <= timestamp m + dur) ->
    hasValidLicense now to asset s' = true.
Proof.
  intros H now Hnow.
  apply createLicense_Ok in H as (endTime & counter & _ & Hend & -> & _).
  unfold hasValidLicense. cbn [licenses userLicenses].
  rewrite read_insert_eq.
  apply hasValidLicense_loop_true.
  exists (_licenseIdCounter s). rewrite read_insert_eq. cbn.
  split; [unfold push; apply elem_of_app; right; apply list_elem_of_singleton;
          reflexivity|].
  split; [reflexivity|]. split; [reflexivity|].
  destruct (0 <? dur) eqn:E; subst endTime; [right | left; reflexivity].
  destruct Hnow; lia.
Qed.

Lemma same_license_terms_refl (l : License) : same_license_terms l l.
Proof. reflexivity. Qed.

(** X12. A call never removes or rewrites a license: in any state reached
    from deployment, each call leaves every license in place with all its
    terms; only [isActive] can change, and only from true to false. *)
Theorem license_terms_immutable m c bal s bal' s' id l :
  reachable s ->
  exec m c (bal, s) = Ok (bal', s') ->
  licenses s !! id = Some l ->
  exists l', licenses s' !! id = Some l'
             /\ same_license_terms l l'
             /\ (isActive l = false -> isActive l' = false).
Proof.
  intros Hreach Hstep Hl.
  pose proof (reachable_licenses_indexed s Hreach) as [Hbound _].
  pose proof (exec_admin_frame _ _ _ _ _ _ Hstep) as Hframe.
  destruct c as [v a lic ty p d tm | lid act det | lid | a b | ids bs | | ];
    cbn [exec fst snd] in Hstep;
    try (destruct Hframe as (-> & _); exists l;
         split; [exact Hl | split; [reflexivity | tauto]]).
  - apply createLicense_Ok in Hstep as (? & ? & _ & _ & -> & _).
    cbn [licenses]. rewrite lookup_insert.
    destruct (decide (_licenseIdCounter s = id)) as [<- | _].
    + assert (_licenseIdCounter s < _licenseIdCounter s)
        by (apply Hbound; rewrite Hl; eauto). lia.
    + exists l. split; [exact Hl | split; [reflexivity | tauto]].
  - apply bind_Ok in Hstep as (s1 & Hcall & [= _ <-]).
    apply recordUsage_state in Hcall as (l0 & _ & ->).
    exists l. split; [exact Hl | split; [reflexivity | tauto]].
  - apply bind_Ok in Hstep as (s1 & Hcall & [= _ <-]).
    apply deactivateLicense_state in Hcall as (l0 & (Hl0 & _) & ->).
    cbn [licenses]. rewrite lookup_insert.
    destruct (decide (lid = id)) as [-> | _].
    + assert (l0 = l) as -> by congruence.
      eexists. split; [reflexivity|]. split; [|reflexivity].
      destruct l. reflexivity.
    + exists l. split; [exact Hl | split; [reflexivity | tauto]].
Qed.

(** X13. A call never removes or rewrites a usage record: each call leaves
    every usage log as a prefix of what it becomes, and [recordUsage] adds
    exactly one record, with the caller and the time of the call, to the
    log of its license. *)
Theorem usage_log_append_only m c bal s bal' s' id :
  exec m c (bal, s) = Ok (bal', s') ->
  getLicenseUsage id s `prefix_of` getLicenseUsage id s'
  /\ forall lid action details,
       c = RecordUsage lid action details ->
       getLicenseUsage lid s'
       = push (getLicenseUsage lid s)
           (mkUsageRecord lid (sender m) (timestamp m) action details).
Proof.
  intros Hstep. unfold getLicenseUsage.
  pose proof (exec_admin_frame _ _ _ _ _ _ Hstep) as Hframe.
  destruct c as [v a lic ty p d tm | lid0 act0 det0 | lid0 | a b | ids bs | | ];
    cbn [exec fst snd] in Hstep;
    try (destruct Hframe as (_ & -> & _); split; [reflexivity | discriminate]).
  - apply createLicense_Ok in Hstep as (? & ? & _ & _ & -> & _).
    split; [reflexivity | discriminate].
  - apply bind_Ok in Hstep as (s1 & Hcall & [= _ <-]).
    apply recordUsage_state in Hcall as (l0 & _ & ->).
    cbn [licenseUsage]. split.
    + rewrite read_insert. destruct (decide (lid0 = id)) as [<- | _];
        [|reflexivity].
      unfold push. apply prefix_app_r. reflexivity.
    + intros lid act det [= <- <- <-]. rewrite read_insert_eq. reflexivity.
  - apply bind_Ok in Hstep as (s1 & Hcall & [= _ <-]).
    apply deactivateLicense_state in Hcall as (l0 & _ & ->).
    split; [reflexivity | discriminate].
Qed.

Lemma batch_loop_set_each (m : Msg) (ids : list N) (flags : list bool) (s : State) :
  owner s = sender m ->
  set_each m ids flags s
  = Ok (set_assetLicensable (batch_loop ids flags (assetLicensable s)) s).
Proof.
  revert flags s. induction ids as [| id ids IH]; intros flags s Ho; cbn.
  - destruct s; reflexivity.
  - destruct flags as [| b flags]; [destruct s; reflexivity|].
    unfold setAssetLicensability, onlyOwner at 1. rewrite Ho, N.eqb_refl. cbn.
    rewrite IH by exact Ho. reflexivity.
Qed.

(** X14. For the owner of the contract, a batch update with as many flags
    as ids does what the single updates do one after the other, so a later
    entry for an id wins over an earlier one; with lists of different
    lengths it reverts with "Arrays length mismatch", and for any other
    caller it reverts with "Ownable: caller is not the owner". *)
Theorem batch_is_sequential (m : Msg) (ids : list N) (flags : list bool)
    (s : State) :
  (owner s = sender m ->
   length ids = length flags ->
   batchSetAssetLicensability m ids flags s = set_each m ids flags s)
  /\ (owner s = sender m ->
      length ids <> length flags ->
      batchSetAssetLicensability m ids flags s = Revert "Arrays length mismatch")
  /\ (owner s <> sender m ->
      batchSetAssetLicensability m ids flags s = Revert NotAdmin).
Proof.
  unfold batchSetAssetLicensability, onlyOwner. repeat split.
  - intros Ho Hlen. rewrite batch_loop_set_each by exact Ho.
    rewrite Ho, N.eqb_refl, Hlen, N.eqb_refl. reflexivity.
  - intros Ho Hlen. rewrite Ho, N.eqb_refl. cbn.
    destruct (N.of_nat (length ids) =? N.of_nat (length flags)) eqn:E;
      [lia | reflexivity].
  - intros Ho. destruct (owner s =? sender m) eqn:E; [lia | reflexivity].
Qed.

(** X15. [getUserLicenses(user)] returns, each once and without running out
    of its array, exactly the licenses granted to [user], and
    [getIssuedLicenses(user)] exactly the licenses [user] granted. *)
Theorem license_views_exact (s : State) (user : address) :
  reachable s ->
  (exists ids,
      NoDup ids
      /\ (forall id, id ∈ ids <-> exists l, licenses s !! id = Some l
                                            /\ licensee l = user)
      /\ getUserLicenses user s = Ok (map (fun id => licenses s !!0 id) ids))
  /\ (exists ids,
         NoDup ids
         /\ (forall id, id ∈ ids <-> exists l, licenses s !! id = Some l
                                               /\ licensor l = user)
         /\ getIssuedLicenses user s = Ok (map (fun id => licenses s !!0 id) ids)).
Proof.
  intros Hreach.
  pose proof (reachable_licenses_indexed s Hreach) as [_ Hidx].
  apply reachable_license_inv in Hreach as (_ & Hissued & _ & Hnd1 & Hnd2 & _).
  split.
  - exists (userLicenses s !!0 user). split; [apply Hnd1|]. split; [apply Hidx|].
    unfold getUserLicenses, new_array. rewrite Nat2N.id.
    exact (for_loop_map (fun id => licenses s !!0 id) _ [] _ eq_refl).
  - exists (userIssuedLicenses s !!0 user). split; [apply Hnd2|].
    split; [apply Hissued|].
    unfold getIssuedLicenses, new_array. rewrite Nat2N.id.
    exact (for_loop_map (fun id => licenses s !!0 id) _ [] _ eq_refl).
Qed.

End LicenseHistory.

(** ** Runs of the marketplace *)

Section MarketRuns.

Import Marketplace.

Lemma validOrder_Some (id : N) (s : State) (u : unit) :
  validOrder id s = Ok u ->
  exists o, orders s !! id = Some o /\ orders s !!0 id = o /\ orderId o <> 0.
Proof.
  unfold validOrder. intros Hvalid%require_Ok.
  destruct (orders s !! id) as [o|] eqn:E.
  - exists o. rewrite (read_Some _ _ _ E) in *. repeat split. lia.
  - rewrite (read_None _ _ E) in Hvalid. discriminate.
Qed.

Lemma onlyAssetOwner_Ok (m : Msg) (a : N) (w : World) (u : unit) :
  onlyAssetOwner m a w = Ok u ->
  AIAssetNFT.ownerOf a (nft w) = Ok (sender m) /\ sender m <> zero_address.
Proof.
  unfold onlyAssetOwner. intros H.
  apply bind_Ok in H as (o & Ho & Heq%require_Ok).
  assert (o = sender m) as -> by lia. split; [exact Ho|].
  unfold AIAssetNFT.ownerOf in Ho. apply ownerOf_Ok in Ho as [_ Hnz]. exact Hnz.
Qed.

Lemma createFixedPriceOrder_state (m : Msg) (a p : N) (w w' : World) :
  createFixedPriceOrder m a p w = Ok w' ->
  let s := market w in
  let id := _orderIdCounter s in
  (AIAssetNFT.ownerOf a (nft w) = Ok (sender m) /\ sender m <> zero_address
   /\ paused s = false /\ 0 < p /\ id + 1 < modulus)
  /\ w' = set_market
            (add_order m (mkOrder id a (sender m) zero_address p (timestamp m) 0
                            true false 0 zero_address) (id + 1) s) w.
Proof.
  intros H s id. unfold createFixedPriceOrder, whenNotPaused in H. fold s id in H.
  apply bind_Ok in H as (? & Hown%onlyAssetOwner_Ok & H).
  apply bind_Ok in H as (? & Hp%require_Ok & H).
  apply bind_Ok in H as (? & Hprice%require_Ok & H).
  apply bind_Ok in H as (counter & Hc & [= <-]).
  unfold checked_add in Hc. destruct (id + 1 <? modulus) eqn:E; [|discriminate].
  injection Hc as <-. destruct Hown as [Ho Hnz].
  split; [|reflexivity]. repeat split; try assumption; lia.
Qed.

Lemma createAuctionOrder_state (m : Msg) (a p d : N) (w w' : World) :
  createAuctionOrder m a p d w = Ok w' ->
  let s := market w in
  let id := _orderIdCounter s in
  (AIAssetNFT.ownerOf a (nft w) = Ok (sender m) /\ sender m <> zero_address
   /\ paused s = false /\ 0 < p /\ 0 < d /\ id + 1 < modulus
   /\ timestamp m + d < modulus)
  /\ w' = set_market
            (add_order m (mkOrder id a (sender m) zero_address p (timestamp m)
                            (timestamp m + d) true true 0 zero_address)
               (id + 1) s) w.
Proof.
  intros H s id. unfold createAuctionOrder, whenNotPaused in H. fold s id in H.
  apply bind_Ok in H as (? & Hown%onlyAssetOwner_Ok & H).
  apply bind_Ok in H as (? & Hp%require_Ok & H).
  apply bind_Ok in H as (? & Hprice%require_Ok & H).
  apply bind_Ok in H as (? & Hdur%require_Ok & H).
  apply bind_Ok in H as (counter & Hc & H).
  apply bind_Ok in H as (e & He & [= <-]).
  unfold checked_add in Hc, He.
  destruct (id + 1 <? modulus) eqn:E; [|discriminate].
  destruct (timestamp m + d <? modulus) eqn:E'; [|discriminate].
  injection Hc as <-. injection He as <-. destruct Hown as [Ho Hnz].
  split; [|reflexivity]. repeat split; try assumption; lia.
Qed.

Lemma placeBid_state (m : Msg) (value id : N) (w w' : World) :
  placeBid m value id w = Ok w' ->
  let s := market w in
  exists o,
    (orders s !! id = Some o /\ orderId o <> 0 /\ isActive o = true
     /\ timestamp m <= endTime o /\ isAuction o = true
     /\ sender m <> seller o /\ highestBid o < value /\ price o <= value
     /\ value <= balanceOf (balances w) (sender m))
    /\ exists bal',
        w' = mkWorld bal' (nft w)
               (mkState (this s) (owner s) (paused s) (marketplaceFee s)
                  (<[id := raise m value o]> (orders s))
                  (<[id := push (orderBids s !!0 id)
                             (mkBid (sender m) value (timestamp m))]>
                     (orderBids s))
                  (userOrders s)
                  (<[sender m := push (userBids s !!0 sender m) id]> (userBids s))
                  (_orderIdCounter s)).
Proof.
  intros H s. unfold placeBid, activeOrder in H. fold s in H.
  apply bind_Ok in H as (bal & Hrecv & H).
  apply receive_Ok in Hrecv as [Hfunds _].
  apply bind_Ok in H as (? & Hvalid & H).
  apply validOrder_Some in Hvalid as (o & Ho & Hread & Hid).
  rewrite Hread in H.
  apply bind_Ok in H as (? & Hactive & H).
  apply bind_Ok in Hactive as (? & Hact%require_Ok & Hexp%require_Ok).
  apply bind_Ok in H as (? & Hkind%require_Ok & H).
  apply bind_Ok in H as (? & Hself%require_Ok & H).
  apply bind_Ok in H as (? & Hhigh%require_Ok & H).
  apply bind_Ok in H as (? & Hstart%require_Ok & H).
  apply bind_Ok in H as (bal1 & _ & [= <-]).
  exists o. split; [repeat split; try assumption; lia|].
  exists bal1. reflexivity.
Qed.

Lemma _executeSale_state (id : N) (buyer : address) (p : N) (w w' : World) :
  _executeSale id buyer p w = Ok w' ->
  exists bal' nft',
    w' = mkWorld bal' nft'
           (set_orders (<[id := fill buyer (orders (market w) !!0 id)]>
                          (orders (market w))) (market w)).
Proof.
  intros H. unfold _executeSale in H.
  apply bind_Ok in H as ([[fee royalty] sellerAmount] & _ & H).
  apply bind_Ok in H as (nft1 & _ & H).
  apply bind_Ok in H as (bal1 & _ & H).
  apply bind_Ok in H as (bal2 & _ & H).
  apply bind_Ok in H as (bal3 & _ & [= <-]).
  eauto.
Qed.

Lemma buyFixedPriceOrder_state (m : Msg) (value id : N) (w w' : World) :
  buyFixedPriceOrder m value id w = Ok w' ->
  exists o,
    (orders (market w) !! id = Some o /\ orderId o <> 0 /\ isActive o = true
     /\ isAuction o = false /\ timestamp m <= endTime o)
    /\ exists bal' nft',
        w' = mkWorld bal' nft'
               (set_orders (<[id := fill (sender m) o]> (orders (market w)))
                  (market w)).
Proof.
  intros H. unfold buyFixedPriceOrder, activeOrder in H.
  apply bind_Ok in H as (bal & _ & H).
  apply bind_Ok in H as (? & Hvalid & H).
  apply validOrder_Some in Hvalid as (o & Ho & Hread & Hid).
  rewrite Hread in H.
  apply bind_Ok in H as (? & Hactive & H).
  apply bind_Ok in Hactive as (? & Hact%require_Ok & Hexp%require_Ok).
  apply bind_Ok in H as (? & Hkind%require_Ok & H).
  apply bind_Ok in H as (? & _ & H).
  apply bind_Ok in H as (? & _ & H).
  apply _executeSale_state in H as (bal' & nft' & ->).
  cbn [market]. rewrite Hread.
  exists o. split; [|eauto].
  repeat split; try assumption; lia.
Qed.

Lemma endAuction_state (m : Msg) (id : N) (w w' : World) :
  endAuction m id w = Ok w' ->
  exists o,
    (orders (market w) !! id = Some o /\ orderId o <> 0 /\ isActive o = true
     /\ isAuction o = true /\ endTime o <= timestamp m
     /\ highestBidder o <> zero_address)
    /\ _executeSale id (highestBidder o) (highestBid o) w = Ok w'
    /\ exists bal' nft',
        w' = mkWorld bal' nft'
               (set_orders (<[id := fill (highestBidder o) o]> (orders (market w)))
                  (market w)).
Proof.
  intros H. unfold endAuction in H.
  apply bind_Ok in H as (? & Hvalid & H).
  apply validOrder_Some in Hvalid as (o & Ho & Hread & Hid).
  rewrite Hread in H.
  apply bind_Ok in H as (? & Hkind%require_Ok & H).
  apply bind_Ok in H as (? & Hexp%require_Ok & H).
  apply bind_Ok in H as (? & Hact%require_Ok & H).
  apply bind_Ok in H as (? & Hbids%require_Ok & H).
  pose proof H as Hsale.
  apply _executeSale_state in H as (bal' & nft' & ->). rewrite Hread in *.
  exists o. split; [|split; [exact Hsale | eauto]].
  unfold zero_address in *. repeat split; try assumption; lia.
Qed.

Lemma cancelOrder_state (m : Msg) (id : N) (w w' : World) :
  cancelOrder m id w = Ok w' ->
  let s := market w in
  exists o,
    (orders s !! id = Some o /\ orderId o <> 0 /\ seller o = sender m
     /\ isActive o = true /\ buyer o = zero_address)
    /\ (isAuction o && negb (highestBidder o =? zero_address) = true ->
        highestBid o <= balanceOf (balances w) (this s))
    /\ w' = mkWorld
              (if isAuction o && negb (highestBidder o =? zero_address)
               then move (this s) (highestBidder o) (highestBid o) (balances w)
               else balances w)
              (nft w)
              (set_orders (<[id := deactivate o]> (orders s)) s).
Proof.
  intros H s. unfold cancelOrder in H. fold s in H.
  apply bind_Ok in H as (? & Hvalid & H).
  apply validOrder_Some in Hvalid as (o & Ho & Hread & Hid).
  rewrite Hread in H.
  apply bind_Ok in H as (? & Hseller%require_Ok & H).
  apply bind_Ok in H as (? & Hact%require_Ok & H).
  apply bind_Ok in H as (? & Hbuyer%require_Ok & H).
  apply bind_Ok in H as (bal & Hbal & [= <-]).
  exists o. split; [unfold zero_address in *; repeat split; try assumption; lia|].
  destruct (isAuction o && negb (highestBidder o =? zero_address)).
  - apply transfer_Ok in Hbal as [Hfunds ->]. split; [intros _; exact Hfunds | reflexivity].
  - injection Hbal as <-. split; [discriminate | reflexivity].
Qed.

End MarketRuns.

Section MarketBidLog.

Import Marketplace.

Local Open Scope list_scope.

Lemma sorted_snoc (l : list N) (v : N) :
  StronglySorted N.lt l -> Forall (fun x => x < v) l ->
  StronglySorted N.lt (l ++ [v]).
Proof.
  induction 1 as [| x l Hsorted IH Hx]; intros Hall; cbn.
  - repeat constructor.
  - apply Forall_cons in Hall as [Hxv Hall].
    constructor; [apply IH, Hall|].
    apply Forall_app. split; [exact Hx | repeat constructor; exact Hxv].
Qed.

Lemma sorted_last_max (l : list N) (y : N) :
  StronglySorted N.lt l -> last l = Some y -> Forall (fun x => x <= y) l.
Proof.
  induction 1 as [| x l Hsorted IH Hx]; intros Hlast; [constructor|].
  destruct l as [| x' l'].
  - cbn in Hlast. injection Hlast as <-. repeat constructor. lia.
  - change (last (x :: x' :: l')) with (last (x' :: l')) in Hlast.
    specialize (IH Hlast). constructor; [|exact IH].
    apply Forall_cons in Hx as [Hxx' _].
    apply Forall_cons in IH as [Hx'y _]. lia.
Qed.

Lemma last_map_amount (bids : list Bid) :
  last (map amount bids) = amount <$> last bids.
Proof.
  induction bids as [| b [| b' bids] IH]; cbn; try reflexivity. exact IH.
Qed.

Lemma bid_log_push (o : Order) (bids : list Bid) (m : Msg) (value : N) :
  bid_log_of o bids ->
  isAuction o = true -> highestBid o < value -> price o <= value ->
  sender m <> zero_address -> sender m <> seller o ->
  bid_log_of (raise m value o) (push bids (mkBid (sender m) value (timestamp m))).
Proof.
  intros (Hlast & Hsorted & Hall & _) Hkind Hhigh Hstart Hnz Hself.
  unfold bid_log_of, push. rewrite last_snoc. cbn.
  split; [split; reflexivity|]. split; [|split].
  - rewrite map_app. cbn. apply sorted_snoc; [exact Hsorted|].
    destruct (last bids) as [b|] eqn:E.
    + destruct Hlast as [_ Hb].
      assert (last (map amount bids) = Some (amount b)) as Hl
        by (rewrite last_map_amount, E; reflexivity).
      eapply Forall_impl; [apply (sorted_last_max _ _ Hsorted Hl)|].
      cbn. intros x Hx. lia.
    + apply last_None in E. subst bids. constructor.
  - apply Forall_app. split; [exact Hall|].
    repeat constructor; cbn; assumption.
  - rewrite Hkind. discriminate.
Qed.

Lemma market_inv_deploy (self deployer : address) :
  market_inv (deploy self deployer).
Proof.
  unfold market_inv, deploy, MAX_FEE. cbn.
  refine (conj _ (conj _ (conj _ (conj _ (conj _ _))))).
  - lia.
  - intros id o Ho. rewrite lookup_empty in Ho. discriminate.
  - intros id _. apply read_empty.
  - intros u id. rewrite read_empty. split.
    + intros Hin. inversion Hin.
    + intros (o & Ho & _). rewrite lookup_empty in Ho. discriminate.
  - intros u. rewrite read_empty. constructor.
  - intros u id. rewrite !read_empty. split.
    + intros Hin. inversion Hin.
    + intros (b & Hin & _). inversion Hin.
Qed.

Lemma market_inv_add_order (m : Msg) (o : Order) (s : State) :
  market_inv s ->
  orderId o = _orderIdCounter s -> 0 < price o ->
  seller o = sender m -> sender m <> zero_address ->
  buyer o = zero_address ->
  (isAuction o = false -> endTime o = 0) ->
  highestBidder o = zero_address -> highestBid o = 0 ->
  market_inv (add_order m o (_orderIdCounter s + 1) s).
Proof.
  intros (Hfee & Hwf & Hnone & Hidx & Hnd & Hbids)
         Hid Hprice Hseller Hnz Hbuyer Hfixed Hhb Hhv.
  set (id := _orderIdCounter s) in *.
  assert (orders s !! id = None) as Hfresh.
  { destruct (orders s !! id) as [o0|] eqn:E; [|reflexivity].
    destruct (Hwf _ _ E) as (_ & Hlt & _). lia. }
  unfold market_inv, add_order.
  cbn [marketplaceFee orders orderBids userOrders userBids
       Marketplace._orderIdCounter].
  rewrite Hid.
  refine (conj Hfee (conj _ (conj _ (conj _ (conj _ Hbids))))).
  - intros id' o'. rewrite lookup_insert.
    destruct (decide (id = id')) as [<- | _].
    + intros [= <-]. rewrite (Hnone _ Hfresh).
      split; [exact Hid|]. split; [lia|]. split; [exact Hprice|].
      split; [rewrite Hseller; exact Hnz|]. split; [intros _; exact Hbuyer|].
      split; [exact Hfixed|].
      unfold bid_log_of. cbn. repeat split; try assumption; constructor.
    + intros Ho'. destruct (Hwf _ _ Ho') as (? & ? & ? & ? & ? & ? & ?).
      split; [assumption|]. split; [lia|].
      repeat (split; [assumption|]). assumption.
  - intros id'. rewrite lookup_insert.
    destruct (decide (id = id')) as [<- | _]; [discriminate | apply Hnone].
  - intros u id'. rewrite read_insert, lookup_insert.
    destruct (decide (sender m = u)) as [<- | Hother].
    + unfold push. rewrite elem_of_app, list_elem_of_singleton, Hidx.
      destruct (decide (id = id')) as [<- | Hne]; cbn.
      * split; [intros _; eexists; split; [reflexivity | exact Hseller] | tauto].
      * split; [intros [Hold | ->]; [exact Hold | congruence] | tauto].
    + rewrite Hidx. destruct (decide (id = id')) as [<- | Hne]; cbn; [|reflexivity].
      split.
      * intros (o0 & Ho0 & _). congruence.
      * intros (o0 & [= <-] & Ho0). congruence.
  - intros u. rewrite read_insert.
    destruct (decide (sender m = u)) as [<- | _]; [|apply Hnd].
    unfold push. apply NoDup_app. repeat split.
    + apply Hnd.
    + intros x Hx Hx'. apply list_elem_of_singleton in Hx' as ->.
      apply Hidx in Hx as (o0 & Ho0 & _). congruence.
    + apply NoDup_singleton.
Qed.

(** Replacing an order by one that differs in [buyer] and [isActive]
    only. *)
Lemma market_inv_replace_order (s : State) (id : N) (o o' : Order) :
  market_inv s ->
  orders s !! id = Some o ->
  orderId o' = orderId o -> price o' = price o -> seller o' = seller o ->
  isAuction o' = isAuction o -> endTime o' = endTime o ->
  highestBid o' = highestBid o -> highestBidder o' = highestBidder o ->
  (isActive o' = true -> buyer o' = zero_address) ->
  market_inv (set_orders (<[id := o']> (orders s)) s).
Proof.
  intros (Hfee & Hwf & Hnone & Hidx & Hnd & Hbids)
         Ho Hid Hprice Hseller Hkind Hend Hhv Hhb Hact.
  destruct (Hwf _ _ Ho) as (Hoid & Hlt & Hp & Hs & _ & Hfixed & Hlog).
  unfold market_inv, set_orders.
  cbn [marketplaceFee orders orderBids userOrders userBids
       Marketplace._orderIdCounter].
  refine (conj Hfee (conj _ (conj _ (conj _ (conj Hnd Hbids))))).
  - intros id' o0. rewrite lookup_insert.
    destruct (decide (id = id')) as [<- | _]; [|apply Hwf].
    intros [= <-]. split; [congruence|]. split; [exact Hlt|].
    split; [congruence|]. split; [congruence|]. split; [exact Hact|].
    split; [rewrite Hkind, Hend; exact Hfixed|].
    unfold bid_log_of in *. rewrite Hhb, Hhv, Hprice, Hseller, Hkind. exact Hlog.
  - intros id'. rewrite lookup_insert.
    destruct (decide (id = id')) as [<- | _]; [discriminate | apply Hnone].
  - intros u id'. rewrite Hidx, lookup_insert.
    destruct (decide (id = id')) as [<- | _]; cbn; [|reflexivity].
    split.
    + intros (o0 & Ho0 & Hu). exists o'. split; [reflexivity | congruence].
    + intros (o0 & [= <-] & Hu). exists o. split; [exact Ho | congruence].
Qed.

Lemma market_inv_placeBid (m : Msg) (value id : N) (w w' : World) :
  market_inv (market w) ->
  sender m <> zero_address ->
  placeBid m value id w = Ok w' ->
  market_inv (market w').
Proof.
  intros (Hfee & Hwf & Hnone & Hidx & Hnd & Hbids) Hnz H.
  apply placeBid_state in H as (o & Hchecks & bal' & ->).
  destruct Hchecks as (Ho & _ & _ & _ & Hkind & Hself & Hhigh & Hstart & _).
  destruct (Hwf _ _ Ho) as (Hoid & Hlt & Hp & Hs & Hact & Hfixed & Hlog).
  unfold market_inv.
  cbn [market marketplaceFee orders orderBids userOrders userBids
       Marketplace._orderIdCounter].
  refine (conj Hfee (conj _ (conj _ (conj _ (conj Hnd _))))).
  - intros id' o0. rewrite lookup_insert, read_insert.
    destruct (decide (id = id')) as [<- | _]; [|apply Hwf].
    intros [= <-]. cbn [raise orderId price seller isActive buyer isAuction endTime].
    repeat (split; [assumption|]).
    apply bid_log_push; assumption.
  - intros id'. rewrite lookup_insert, read_insert.
    destruct (decide (id = id')) as [<- | _]; [discriminate | apply Hnone].
  - intros u id'. rewrite Hidx, lookup_insert.
    destruct (decide (id = id')) as [<- | _]; cbn; [|reflexivity].
    split.
    + intros (o0 & Ho0 & Hu). eexists. split; [reflexivity|]. cbn. congruence.
    + intros (o0 & [= <-] & Hu). exists o. split; [exact Ho | exact Hu].
  - intros u id'. rewrite !read_insert.
    destruct (decide (sender m = u)) as [<- | Hu];
      destruct (decide (id = id')) as [<- | Hid'].
    + split.
      * intros _. eexists. split; [unfold push; apply elem_of_app; right;
                                   apply list_elem_of_singleton; reflexivity|].
        reflexivity.
      * intros _. unfold push. apply elem_of_app. right.
        apply list_elem_of_singleton. reflexivity.
    + unfold push. rewrite elem_of_app, list_elem_of_singleton, Hbids.
      split; [intros [Hold | ->]; [exact Hold | congruence] | tauto].
    + rewrite Hbids. unfold push. split.
      * intros (b & Hb & Hbu). exists b. split; [|exact Hbu].
        apply elem_of_app. left. exact Hb.
      * intros (b & Hb & Hbu). apply elem_of_app in Hb as [Hb | Hb].
        -- exists b. split; assumption.
        -- apply list_elem_of_singleton in Hb as ->. cbn in Hbu. congruence.
    + apply Hbids.
Qed.

End MarketBidLog.

Section MarketInvariant.

Import Marketplace.

Lemma market_inv_exec (m : Msg) (c : Call) (w w' : World) :
  market_inv (market w) ->
  sender m <> zero_address ->
  exec m c w = Ok w' ->
  market_inv (market w').
Proof.
  intros Hinv Hnz H.
  destruct c as [a p | a p d | value id | value id | id | id | id | f | | | ];
    cbn [exec] in H.
  - apply createFixedPriceOrder_state in H as (Hchecks & ->).
    cbn [set_market market].
    destruct Hchecks as (_ & _ & _ & Hp & _).
    apply market_inv_add_order; try assumption; try reflexivity.
  - apply createAuctionOrder_state in H as (Hchecks & ->). cbn [set_market market].
    destruct Hchecks as (_ & _ & _ & Hp & _).
    apply market_inv_add_order; try assumption; try reflexivity. discriminate.
  - apply buyFixedPriceOrder_state in H as (o & (Ho & _) & bal' & nft' & ->).
    cbn [market].
    apply (market_inv_replace_order _ _ o); try assumption; try reflexivity.
    discriminate.
  - eapply market_inv_placeBid; eassumption.
  - apply withdrawBid_Ok in H as (_ & _ & _ & _ & _ & ->). exact Hinv.
  - apply endAuction_state in H as (o & (Ho & _) & _ & bal' & nft' & ->).
    cbn [market].
    apply (market_inv_replace_order _ _ o); try assumption; try reflexivity.
    discriminate.
  - apply cancelOrder_state in H as (o & (Ho & _) & _ & ->). cbn [market].
    apply (market_inv_replace_order _ _ o); try assumption; try reflexivity.
    discriminate.
  - apply bind_Ok in H as (s1 & H & [= <-]). cbn [set_market market].
    unfold setMarketplaceFee in H.
    apply bind_Ok in H as (? & _ & H).
    apply bind_Ok in H as (? & Hle%require_Ok & [= <-]).
    destruct Hinv as (_ & Hrest). split; [cbn; lia | exact Hrest].
  - apply bind_Ok in H as (s1 & H & [= <-]). cbn [set_market market].
    unfold pause in H.
    apply bind_Ok in H as (? & _ & H). apply bind_Ok in H as (? & _ & [= <-]).
    exact Hinv.
  - apply bind_Ok in H as (s1 & H & [= <-]). cbn [set_market market].
    unfold unpause in H.
    apply bind_Ok in H as (? & _ & H). apply bind_Ok in H as (? & _ & [= <-]).
    exact Hinv.
  - unfold withdraw in H.
    apply bind_Ok in H as (? & _ & H). apply bind_Ok in H as (? & _ & [= <-]).
    exact Hinv.
Qed.

Lemma market_reachable_inv (w : World) :
  market_reachable w -> market_inv (market w).
Proof.
  induction 1 as [bal nft self deployer | w m c w' _ IH Hnz Hstep | w bal nft _ IH].
  - apply market_inv_deploy.
  - eapply market_inv_exec; eassumption.
  - exact IH.
Qed.

End MarketInvariant.

Section OrderBookInvariants.

Import Marketplace.

(** X16. In every world reached from the deployment of the marketplace the
    fee rate is at most [MAX_FEE] = 1000 basis points: [setMarketplaceFee]
    takes a new rate from the owner only, and only up to that bound. *)
Theorem marketplace_fee_bounded (w : World) (m : Msg) (newFee : N) :
  market_reachable w ->
  let s := market w in
  marketplaceFee s <= 1000
  /\ setMarketplaceFee m newFee s
     = (if owner s =? sender m
        then if newFee <=? 1000
             then Ok (mkState (this s) (owner s) (paused s) newFee (orders s)
                        (orderBids s) (userOrders s) (userBids s)
                        (_orderIdCounter s))
             else Revert "Fee too high"
        else Revert NotAdmin).
Proof.
  intros Hreach s. apply market_reachable_inv in Hreach as (Hfee & _).
  split; [exact Hfee|].
  unfold setMarketplaceFee, onlyOwner, MAX_FEE. fold s.
  destruct (owner s =? sender m); cbn; [|reflexivity].
  destruct (newFee <=? 1000); reflexivity.
Qed.

(** X17. Order ids start at 0 while [validOrder] takes the id 0 for "no
    order": in every world reached from deployment each call on order 0,
    with its payment covered where it carries one, reverts with "Order does
    not exist", so the first order ever created can be neither read,
    bought, bid on, ended nor cancelled. *)
Theorem order_zero_unusable (w : World) (m : Msg) (value : N) :
  market_reachable w ->
  getOrder 0 (market w) = Revert NotFound
  /\ getOrderBids 0 (market w) = Revert NotFound
  /\ (value <= balanceOf (balances w) (sender m) ->
      buyFixedPriceOrder m value 0 w = Revert NotFound
      /\ placeBid m value 0 w = Revert NotFound)
  /\ withdrawBid m 0 w = Revert NotFound
  /\ endAuction m 0 w = Revert NotFound
  /\ cancelOrder m 0 w = Revert NotFound.
Proof.
  intros Hreach. apply market_reachable_inv in Hreach as (_ & Hwf & _).
  assert (orderId (orders (market w) !!0 0) = 0) as Hid.
  { destruct (orders (market w) !! 0) as [o|] eqn:E.
    - rewrite (read_Some _ _ _ E). apply (Hwf 0 o E).
    - rewrite (read_None _ _ E). reflexivity. }
  unfold getOrder, getOrderBids, buyFixedPriceOrder, placeBid, withdrawBid,
    endAuction, cancelOrder, validOrder.
  rewrite Hid. cbn. repeat split.
  - rewrite (receive_funded _ _ _ _ H). reflexivity.
  - rewrite (receive_funded _ _ _ _ H). reflexivity.
Qed.

(** X18. In a world reached from deployment a call never removes an order
    or changes its id, asset, seller, price, kind, start time or end time;
    the highest bid never goes down; and an order that is no longer active
    is never changed again. *)
Theorem order_terms_immutable (w w' : World) (m : Msg) (c : Call) (id : N)
    (o : Order) :
  market_reachable w ->
  exec m c w = Ok w' ->
  orders (market w) !! id = Some o ->
  exists o', orders (market w') !! id = Some o'
             /\ (orderId o' = orderId o /\ assetTokenId o' = assetTokenId o
                 /\ seller o' = seller o /\ price o' = price o
                 /\ isAuction o' = isAuction o /\ startTime o' = startTime o
                 /\ endTime o' = endTime o)
             /\ highestBid o <= highestBid o'
             /\ (isActive o = false -> o' = o).
Proof.
  intros Hreach H Ho.
  apply market_reachable_inv in Hreach as (_ & Hwf & _).
  assert (forall w1, market w1 = market w ->
                     exists o', orders (market w1) !! id = Some o'
             /\ (orderId o' = orderId o /\ assetTokenId o' = assetTokenId o
                 /\ seller o' = seller o /\ price o' = price o
                 /\ isAuction o' = isAuction o /\ startTime o' = startTime o
                 /\ endTime o' = endTime o)
             /\ highestBid o <= highestBid o'
             /\ (isActive o = false -> o' = o)) as Hsame.
  { intros w1 ->. exists o. repeat split; try assumption. lia. }
  assert (forall (f : Order -> Order) id0 o0 w1,
             orders (market w) !! id0 = Some o0 ->
             isActive o0 = true ->
             orders (market w1) = <[id0 := f o0]> (orders (market w)) ->
             (orderId (f o0) = orderId o0 /\ assetTokenId (f o0) = assetTokenId o0
              /\ seller (f o0) = seller o0 /\ price (f o0) = price o0
              /\ isAuction (f o0) = isAuction o0 /\ startTime (f o0) = startTime o0
              /\ endTime (f o0) = endTime o0) ->
             highestBid o0 <= highestBid (f o0) ->
                     exists o', orders (market w1) !! id = Some o'
             /\ (orderId o' = orderId o /\ assetTokenId o' = assetTokenId o
                 /\ seller o' = seller o /\ price o' = price o
                 /\ isAuction o' = isAuction o /\ startTime o' = startTime o
                 /\ endTime o' = endTime o)
             /\ highestBid o <= highestBid o'
             /\ (isActive o = false -> o' = o)) as Hupd.
  { intros f id0 o0 w1 Ho0 Hact Horders Hterms Hhigh. rewrite Horders, lookup_insert.
    destruct (decide (id0 = id)) as [-> | _].
    - assert (o0 = o) as -> by congruence.
      exists (f o). split; [reflexivity|]. split; [exact Hterms|].
      split; [exact Hhigh | congruence].
    - exists o. repeat split; try assumption. lia. }
  assert (forall o1 w1,
             orders (market w1)
             = <[_orderIdCounter (market w) := o1]> (orders (market w)) ->
                     exists o', orders (market w1) !! id = Some o'
             /\ (orderId o' = orderId o /\ assetTokenId o' = assetTokenId o
                 /\ seller o' = seller o /\ price o' = price o
                 /\ isAuction o' = isAuction o /\ startTime o' = startTime o
                 /\ endTime o' = endTime o)
             /\ highestBid o <= highestBid o'
             /\ (isActive o = false -> o' = o)) as Hnew.
  { intros o1 w1 Horders. rewrite Horders, lookup_insert.
    destruct (decide (_orderIdCounter (market w) = id)) as [<- | _].
    - destruct (Hwf _ _ Ho) as (_ & Hlt & _). lia.
    - exists o. repeat split; try assumption. lia. }
  destruct c as [a p | a p d | value id0 | value id0 | id0 | id0 | id0 | f | | | ];
    cbn [exec] in H.
  - apply createFixedPriceOrder_state in H as (_ & ->). eapply Hnew. reflexivity.
  - apply createAuctionOrder_state in H as (_ & ->). eapply Hnew. reflexivity.
  - apply buyFixedPriceOrder_state in H as (o0 & (Ho0 & _ & Hact & _) & ? & ? & ->).
    apply (Hupd (fill (sender m)) id0 o0); try assumption; try reflexivity.
    repeat split.
  - apply placeBid_state in H as (o0 & Hchecks & ? & ->).
    destruct Hchecks as (Ho0 & _ & Hact & _ & _ & _ & Hhigh & _).
    apply (Hupd (raise m value) id0 o0); try assumption; try reflexivity.
    + repeat split.
    + cbn. lia.
  - apply withdrawBid_Ok in H as (_ & _ & _ & _ & _ & ->). apply Hsame. reflexivity.
  - apply endAuction_state in H as (o0 & (Ho0 & _ & Hact & _) & _ & ? & ? & ->).
    apply (Hupd (fill (highestBidder o0)) id0 o0); try assumption; try reflexivity.
    repeat split.
  - apply cancelOrder_state in H as (o0 & (Ho0 & _ & _ & Hact & _) & _ & ->).
    apply (Hupd deactivate id0 o0); try assumption; try reflexivity.
    repeat split.
  - apply bind_Ok in H as (s1 & H & [= <-]). unfold setMarketplaceFee in H.
    apply bind_Ok in H as (? & _ & H). apply bind_Ok in H as (? & _ & [= <-]).
    exists o. repeat split; try assumption. lia.
  - apply bind_Ok in H as (s1 & H & [= <-]). unfold pause in H.
    apply bind_Ok in H as (? & _ & H). apply bind_Ok in H as (? & _ & [= <-]).
    exists o. repeat split; try assumption. lia.
  - apply bind_Ok in H as (s1 & H & [= <-]). unfold unpause in H.
    apply bind_Ok in H as (? & _ & H). apply bind_Ok in H as (? & _ & [= <-]).
    exists o. repeat split; try assumption. lia.
  - unfold withdraw in H.
    apply bind_Ok in H as (? & _ & H). apply bind_Ok in H as (? & _ & [= <-]).
    apply Hsame. reflexivity.
Qed.

(** X19. [cancelOrder] never fails with "Order already sold": in every
    world reached from deployment an active order has no buyer, so the
    check behind that message always passes. *)
Theorem cancel_never_already_sold (w : World) (m : Msg) (id : N) :
  market_reachable w ->
  cancelOrder m id w <> Revert AlreadySold.
Proof.
  intros Hreach. apply market_reachable_inv in Hreach as (_ & Hwf & _).
  unfold cancelOrder, validOrder, transfer,
    NotFound, NotSeller, OrderInactive, AlreadySold, OutOfFunds.
  destruct (orders (market w) !! id) as [o|] eqn:E.
  - rewrite (read_Some _ _ _ E).
    destruct (Hwf _ _ E) as (_ & _ & _ & _ & Hact & _).
    unfold mbind, Result_bind, bind, require.
    destruct (negb (orderId o =? 0)); [|discriminate].
    destruct (seller o =? sender m); [|discriminate].
    destruct (isActive o) eqn:Eact; [|discriminate].
    rewrite (Hact eq_refl). change (zero_address =? zero_address) with true.
    cbn iota.
    destruct (isAuction o && negb (highestBidder o =? zero_address));
      [|discriminate].
    destruct (highestBid o <=? balanceOf (balances w) (this (market w)));
      discriminate.
  - rewrite (read_None _ _ E). cbn. discriminate.
Qed.

(** X20. For every order of a world reached from deployment, the bids that
    [getOrderBids] returns have strictly increasing amounts, each at least
    the starting price and none by the seller; the last of them is the
    highest bid of the order by its highest bidder; there is no bid exactly
    when the order has no highest bidder, and a fixed-price order has
    none. *)
Theorem bid_log_consistent (w : World) (id : N) (o : Order) :
  market_reachable w ->
  orders (market w) !! id = Some o ->
  let bids := orderBids (market w) !!0 id in
  (id <> 0 -> getOrderBids id (market w) = Ok bids)
  /\ StronglySorted N.lt (map amount bids)
  /\ Forall (fun b => price o <= amount b /\ bidder b <> seller o) bids
  /\ (forall b, last bids = Some b ->
                highestBidder o = bidder b /\ highestBid o = amount b)
  /\ (bids = [] <-> highestBidder o = zero_address)
  /\ (isAuction o = false -> bids = []).
Proof.
  intros Hreach Ho bids.
  apply market_reachable_inv in Hreach as (_ & Hwf & _).
  destruct (Hwf _ _ Ho) as (Hid & _ & _ & _ & _ & _ & Hlog).
  fold bids in Hlog. destruct Hlog as (Hlast & Hsorted & Hall & Hfixed).
  split; [|split; [exact Hsorted|split; [|split; [|split; [|exact Hfixed]]]]].
  - intros Hnz. unfold getOrderBids, validOrder. rewrite (read_Some _ _ _ Ho), Hid.
    destruct (negb (id =? 0)) eqn:E; [reflexivity | lia].
  - eapply Forall_impl; [exact Hall|]. cbn. tauto.
  - intros b Hb. rewrite Hb in Hlast. exact Hlast.
  - split.
    + intros Hnil. rewrite Hnil in Hlast. cbn in Hlast. tauto.
    + intros Hz. destruct (last bids) as [b|] eqn:E.
      * exfalso. destruct Hlast as [Hb _].
        assert (b ∈ bids) as Hin.
        { rewrite last_lookup in E. eapply list_elem_of_lookup_2, E. }
        rewrite Forall_forall in Hall. destruct (Hall b Hin) as (_ & Hnz & _).
        congruence.
      * apply last_None. exact E.
Qed.

End OrderBookInvariants.

Section Escrow.

Import Marketplace.

Lemma placeBid_funds (m : Msg) (value id : N) (w w' : World) :
  placeBid m value id w = Ok w' ->
  let s := market w in
  let o := orders s !!0 id in
  value <= balanceOf (balances w) (sender m)
  /\ (highestBidder o <> zero_address ->
      highestBid o
      <= balanceOf (move (sender m) (this s) value (balances w)) (this s)).
Proof.
  intros H s o. unfold placeBid in H. fold s o in H.
  apply bind_Ok in H as (bal & Hrecv & H).
  apply receive_Ok in Hrecv as [Hfunds ->].
  apply bind_Ok in H as (? & _ & H). apply bind_Ok in H as (? & _ & H).
  apply bind_Ok in H as (? & _ & H). apply bind_Ok in H as (? & _ & H).
  apply bind_Ok in H as (? & _ & H). apply bind_Ok in H as (? & _ & H).
  apply bind_Ok in H as (bal1 & Hrefund & _).
  split; [exact Hfunds|]. intros Hnz.
  destruct (negb (highestBidder o =? zero_address)) eqn:E.
  - apply transfer_Ok in Hrefund as [Hf _]. exact Hf.
  - unfold zero_address in *. lia.
Qed.

(** X21. Along a run of accepted bids on an order that had no bidder
    before, made by accounts other than the marketplace itself, the
    marketplace holds exactly one bid more than before the run: its balance
    after the last bid is its balance before the first plus the highest
    bid. *)
Theorem bid_chain_escrow (id : N) (w0 : World) (bids : list (Msg * N * World))
    (m : Msg) (value : N) (w : World) :
  bid_chain id w0 bids ->
  Forall (fun e => sender e.1.1 <> zero_address
                   /\ sender e.1.1 <> this (market w0)) bids ->
  highestBidder (orders (market w0) !!0 id) = zero_address ->
  last bids = Some (m, value, w) ->
  highestBid (orders (market w) !!0 id) = value
  /\ balanceOf (balances w) (this (market w0))
     = balanceOf (balances w0) (this (market w0)) + value.
Proof.
  intros Hchain Hsenders Hfresh Hlast.
  set (self := this (market w0)).
  assert (forall bids w1,
             bid_chain id w1 bids ->
             this (market w1) = self ->
             Forall (fun e => sender e.1.1 <> zero_address
                              /\ sender e.1.1 <> self) bids ->
             (highestBidder (orders (market w1) !!0 id) <> zero_address ->
              highestBidder (orders (market w1) !!0 id) <> self) ->
             last bids = Some (m, value, w) ->
             highestBid (orders (market w) !!0 id) = value
             /\ balanceOf (balances w) self
                + (if highestBidder (orders (market w1) !!0 id) =? zero_address
                   then 0 else highestBid (orders (market w1) !!0 id))
                = balanceOf (balances w1) self + value) as Hgen.
  { clear. intros bids. induction bids as [| [[m1 v1] w2] rest IH];
      intros w1 Hchain Hself Hsenders Hprev Hlast; [discriminate|].
    destruct Hchain as [Hbid Hrest].
    apply Forall_cons in Hsenders as [[Hnz Hns] Hsenders]. cbn in Hnz, Hns.
    pose proof (placeBid_funds _ _ _ _ _ Hbid) as [Hfunds Hrefund].
    apply placeBid_Ok in Hbid as (_ & Horder & _ & Hthis & Hbal).
    rewrite Hself in *.
    assert (balanceOf (balances w2) self
            + (if highestBidder (orders (market w1) !!0 id) =? zero_address
               then 0 else highestBid (orders (market w1) !!0 id))
            = balanceOf (balances w1) self + v1) as Hstep.
    { rewrite Hbal.
      destruct (highestBidder (orders (market w1) !!0 id) =? zero_address) eqn:E;
        cbn [negb].
      - rewrite balanceOf_move. repeat case_decide; subst; try congruence; lia.
      - assert (highestBidder (orders (market w1) !!0 id) <> zero_address) as Hp
          by (unfold zero_address in *; lia).
        specialize (Hrefund Hp). specialize (Hprev Hp). revert Hrefund.
        rewrite !balanceOf_move. repeat case_decide; subst; try congruence; lia. }
    destruct rest as [| e rest'].
    - cbn in Hlast. injection Hlast as <- <- <-.
      split; [rewrite Horder; reflexivity | exact Hstep].
    - change (last ((m1, v1, w2) :: e :: rest')) with (last (e :: rest')) in Hlast.
      assert (highestBidder (orders (market w2) !!0 id) = sender m1) as Hb
        by (rewrite Horder; reflexivity).
      assert (highestBid (orders (market w2) !!0 id) = v1) as Hv
        by (rewrite Horder; reflexivity).
      destruct (IH w2 Hrest Hthis Hsenders ltac:(intros _; congruence) Hlast) as [Hhigh Hsum].
      split; [exact Hhigh|]. rewrite Hb, Hv in Hsum.
      assert ((sender m1 =? zero_address) = false) as E
        by (unfold zero_address in *; lia).
      rewrite E in Hsum. lia. }
  destruct (Hgen bids w0 Hchain eq_refl Hsenders) as [Hhigh Hsum]; try assumption.
  - rewrite Hfresh. intros Hne. congruence.
  - split; [exact Hhigh|]. rewrite Hfresh in Hsum. cbn in Hsum. lia.
Qed.

End Escrow.

Section AuctionTiming.

Import Marketplace.

(** X22. When the seller cancels an auction right after an accepted bid,
    the bidder has all of the bid back: every balance is what it was before
    the bid, but for the refund of the bidder the bid displaced; the asset
    registry is untouched and the order is closed. The marketplace itself
    is neither of the two bidders. *)
Theorem bid_then_cancel_refunds (m ms : Msg) (value id : N) (w w1 w2 : World) :
  placeBid m value id w = Ok w1 ->
  cancelOrder ms id w1 = Ok w2 ->
  sender m <> zero_address ->
  sender m <> this (market w) ->
  highestBidder (orders (market w) !!0 id) <> this (market w) ->
  let s := market w in
  let o := orders s !!0 id in
  sender ms = seller o
  /\ nft w2 = nft w
  /\ isActive (orders (market w2) !!0 id) = false
  /\ forall a,
      balanceOf (balances w2) a
      = balanceOf (if negb (highestBidder o =? zero_address)
                   then move (this s) (highestBidder o) (highestBid o) (balances w)
                   else balances w) a.
Proof.
  intros Hbid Hcancel Hnz Hself Hprev s o. fold s o in Hprev.
  pose proof (placeBid_funds _ _ _ _ _ Hbid) as [Hfunds Hrefund].
  pose proof (placeBid_state _ _ _ _ _ Hbid) as (o' & (Ho' & _) & bal' & Hw1).
  apply placeBid_Ok in Hbid as ((_ & _ & _ & Hkind & _) & Horder & _ & Hthis & Hbal).
  fold s o in Hkind, Horder, Hthis, Hbal, Hrefund.
  apply cancelOrder_state in Hcancel as (o1 & (Ho1 & _ & Hseller & _) & Hpaid & ->).
  assert (nft w1 = nft w) as Hnft by (rewrite Hw1; reflexivity).
  assert (o1 = raise m value o) as ->.
  { rewrite <- Horder. symmetry. apply read_Some. exact Ho1. }
  cbn [raise isAuction highestBidder highestBid seller] in *.
  assert ((sender m =? zero_address) = false) as E
    by (unfold zero_address in *; lia).
  rewrite Hkind, E in *. cbn [andb negb] in *. specialize (Hpaid eq_refl).
  rewrite Hthis in *. cbn [balances nft market set_orders orders].
  split; [auto|]. split; [exact Hnft|]. split.
  { rewrite read_insert_eq. reflexivity. }
  intros a. revert Hpaid. rewrite Hbal. clear Hbal Horder Ho1 Ho' Hw1 Hnft.
  revert Hfunds Hrefund Hself Hprev.
  generalize (sender m) (highestBidder o) (highestBid o) (this s) (balances w).
  clear. intros x p hb self bal Hfunds Hrefund Hself Hprev.
  destruct (negb (p =? zero_address)) eqn:Eprev.
  - assert (p <> zero_address) as Hp by (unfold zero_address in *; lia).
    specialize (Hrefund Hp). revert Hrefund.
    rewrite !balanceOf_move. repeat case_decide; subst; try congruence; lia.
  - rewrite !balanceOf_move. repeat case_decide; subst; try congruence; lia.
Qed.

(** X23. For an open auction with a nonzero id, the time to bid and the
    time to end overlap in one second: at the end time a bid is not turned
    away as expired and ending is not turned away as too early; before the
    end time ending fails with "Auction not ended yet", after it a funded
    bid fails with "Order expired", and at or after the end time an auction
    without a bid cannot be ended ("No bids placed"). *)
Theorem auction_windows (w : World) (m : Msg) (id : N) (o : Order) :
  orders (market w) !! id = Some o ->
  orderId o <> 0 ->
  isAuction o = true ->
  isActive o = true ->
  (timestamp m < endTime o -> endAuction m id w = Revert NotExpired)
  /\ (forall value,
         endTime o < timestamp m ->
         value <= balanceOf (balances w) (sender m) ->
         placeBid m value id w = Revert OrderExpired)
  /\ (endTime o <= timestamp m ->
      highestBidder o = zero_address ->
      endAuction m id w = Revert NoBids)
  /\ (timestamp m = endTime o ->
      (forall value, placeBid m value id w <> Revert OrderExpired)
      /\ endAuction m id w <> Revert NotExpired).
Proof.
  intros Ho Hid Hkind Hact.
  pose proof (read_Some _ _ _ Ho) as Hread.
  assert (negb (orderId o =? 0) = true) as Hvalid by lia.
  repeat split.
  - intros Hearly. unfold endAuction, validOrder. rewrite Hread, Hvalid, Hkind.
    cbn. destruct (endTime o <=? timestamp m) eqn:E; [lia | reflexivity].
  - intros value Hlate Hfunds. unfold placeBid, validOrder, activeOrder.
    rewrite (receive_funded _ _ _ _ Hfunds), Hread, Hvalid, Hact. cbn.
    destruct (timestamp m <=? endTime o) eqn:E; [lia | reflexivity].
  - intros Hlate Hnone. unfold endAuction, validOrder.
    rewrite Hread, Hvalid, Hkind, Hact, Hnone. cbn.
    destruct (endTime o <=? timestamp m) eqn:E; [reflexivity | lia].
  - intros value. unfold placeBid, validOrder, activeOrder, receive, transfer,
      OrderExpired, OutOfFunds, WrongOrderKind_fixed, SelfTrade_bid,
      BidTooLow_highest, BidTooLow_start.
    rewrite Hread, Hvalid, Hact, Hkind, H, N.leb_refl.
    unfold mbind, Result_bind, bind, require.
    repeat (match goal with
            | |- context [if ?b then _ else _] => destruct b
            end; try discriminate).
  - unfold endAuction, validOrder, NotExpired, NoBids.
    rewrite Hread, Hvalid, Hkind, Hact, H, N.leb_refl.
    unfold mbind, Result_bind, bind, require. cbn iota.
    destruct (negb (highestBidder o =? zero_address)); [|discriminate].
    unfold _executeSale, saleAmounts, checked_mul, checked_sub, transfer,
      AIAssetNFT.transferFrom, ERC721.transferFrom, ERC721._transfer,
      ERC721._isApprovedOrOwner, ERC721.ownerOf.
    unfold mbind, Result_bind, bind, require, Panic, OutOfFunds.
    repeat (match goal with
            | |- context [if ?b then _ else _] => destruct b
            | |- context [match ?x with Ok _ => _ | Revert _ => _ end] =>
                destruct x eqn:?
            end; try discriminate).
Qed.

End AuctionTiming.

Section AuctionSettlement.

Import Marketplace.

Local Open Scope list_scope.

(** What a settlement paid, and that the marketplace held each amount
    when it paid it. *)
Lemma _executeSale_paid (id : N) (buyer : address) (p : N) (w w' : World) :
  _executeSale id buyer p w = Ok w' ->
  let s := market w in
  let o := orders s !!0 id in
  let asset := AIAssetNFT.getAsset (assetTokenId o) (nft w) in
  exists fee royalty sellerAmount bal1 bal2,
    sellerAmount + royalty + fee = p
    /\ bal1 = move (this s) (AIAssetNFT.creator asset) royalty (balances w)
    /\ bal2 = move (this s) (seller o) sellerAmount bal1
    /\ royalty <= balanceOf (balances w) (this s)
    /\ sellerAmount <= balanceOf bal1 (this s)
    /\ fee <= balanceOf bal2 (this s)
    /\ forall a, balanceOf (balances w') a
                 = balanceOf (move (this s) (owner s) fee bal2) a.
Proof.
  intros H s o asset. unfold _executeSale in H. fold s o asset in H.
  apply bind_Ok in H as ([[fee royalty] sellerAmount] & Hamounts & H).
  apply bind_Ok in H as (nft1 & _ & H).
  apply bind_Ok in H as (bal1 & Hb1 & H).
  apply bind_Ok in H as (bal2 & Hb2 & H).
  apply bind_Ok in H as (bal3 & Hb3 & [= <-]).
  unfold saleAmounts in Hamounts.
  apply bind_Ok in Hamounts as (pf & _ & Hamounts).
  apply bind_Ok in Hamounts as (pr & _ & Hamounts).
  apply bind_Ok in Hamounts as (d & Hd & Hamounts).
  apply bind_Ok in Hamounts as (sa & Hsa & [= <- <- <-]).
  unfold checked_sub in Hd, Hsa.
  destruct (pf / 10000 <=? p) eqn:E1; [|discriminate]. injection Hd as <-.
  destruct (pr / 10000 <=? p - pf / 10000) eqn:E2; [|discriminate].
  injection Hsa as <-.
  apply transfer_Ok in Hb2 as [Hf2 ->].
  exists (pf / 10000), (pr / 10000), (p - pf / 10000 - pr / 10000).
  exists (move (this s) (AIAssetNFT.creator asset) (pr / 10000) (balances w)).
  eexists. split; [lia|]. split; [reflexivity|]. split; [reflexivity|].
  cbn [balances].
  destruct (0 <? pr / 10000) eqn:Er.
  - apply transfer_Ok in Hb1 as [Hf1 ->]. split; [exact Hf1|]. split; [exact Hf2|].
    destruct (0 <? pf / 10000) eqn:Ef.
    + apply transfer_Ok in Hb3 as [Hf3 ->]. split; [exact Hf3|]. reflexivity.
    + injection Hb3 as <-. assert (pf / 10000 = 0) as -> by lia.
      split; [lia|]. intros a. rewrite balanceOf_move_0. reflexivity.
  - injection Hb1 as <-. assert (pr / 10000 = 0) as Hz by lia. rewrite Hz in *.
    split; [lia|].
    assert (forall a, balanceOf (move (this s) (AIAssetNFT.creator asset) 0
                                   (balances w)) a = balanceOf (balances w) a)
      as Hext by (intros; apply balanceOf_move_0).
    split; [rewrite Hext; exact Hf2|].
    destruct (0 <? pf / 10000) eqn:Ef.
    + apply transfer_Ok in Hb3 as [Hf3 ->]. split.
      * rewrite (balanceOf_move_ext _ _ _ _ _ Hext). exact Hf3.
      * intros a. apply balanceOf_move_ext. intros b.
        apply balanceOf_move_ext. intros c. symmetry. apply Hext.
    + injection Hb3 as <-. assert (pf / 10000 = 0) as -> by lia.
      split; [lia|]. intros a. rewrite balanceOf_move_0.
      apply balanceOf_move_ext. intros b. symmetry. apply Hext.
Qed.

(** X24. A successful [endAuction] gives the same result whoever calls it
    and whenever after the end time: the seller owned the asset, the
    highest bidder owns it afterwards and is recorded as the buyer, and,
    when the marketplace is not itself the creator, the seller or the
    platform owner, it pays out exactly the highest bid. *)
Theorem endAuction_settles (m : Msg) (id : N) (w w' : World) :
  endAuction m id w = Ok w' ->
  let s := market w in
  let o := orders s !!0 id in
  let asset := AIAssetNFT.getAsset (assetTokenId o) (nft w) in
  (forall m', endTime o <= timestamp m' -> endAuction m' id w = Ok w')
  /\ AIAssetNFT.ownerOf (assetTokenId o) (nft w) = Ok (seller o)
  /\ AIAssetNFT.ownerOf (assetTokenId o) (nft w') = Ok (highestBidder o)
  /\ buyer (orders (market w') !!0 id) = highestBidder o
  /\ isActive (orders (market w') !!0 id) = false
  /\ (this s <> AIAssetNFT.creator asset ->
      this s <> seller o ->
      this s <> owner s ->
      balanceOf (balances w') (this s) + highestBid o
      = balanceOf (balances w) (this s)).
Proof.
  intros H s o asset. split.
  { intros m' Hlate. revert H. unfold endAuction. fold s o.
    unfold mbind, Result_bind, bind, require.
    destruct (validOrder id s); [|discriminate].
    destruct (isAuction o); [|discriminate].
    destruct (endTime o <=? timestamp m); [|discriminate].
    destruct (endTime o <=? timestamp m') eqn:E; [|lia].
    auto. }
  pose proof (endAuction_state _ _ _ _ H) as (o' & (Ho' & _) & Hsale & _).
  apply read_Some in Ho'. fold s o in Ho'. subst o'.
  pose proof (_executeSale_Ok _ _ _ _ _ Hsale) as (Hfill & _ & Hfrom & Hto).
  fold s o in Hfill, Hfrom, Hto.
  split; [exact Hfrom|]. split; [exact Hto|].
  rewrite Hfill. split; [reflexivity|]. split; [reflexivity|].
  intros Hc Hs Ho.
  apply _executeSale_paid in Hsale
    as (fee & royalty & sa & bal1 & bal2 & Hsum & -> & -> & Hf1 & Hf2 & Hf3 & Hbal).
  fold s o asset in Hf1, Hf2, Hf3, Hbal. rewrite Hbal.
  revert Hf1 Hf2 Hf3 Hc Hs Ho Hsum.
  generalize (this s) (AIAssetNFT.creator asset) (seller o) (owner s)
    (highestBid o) (balances w).
  clear. intros self c sl ow hb bal.
  rewrite !balanceOf_move. repeat case_decide; subst; try congruence; lia.
Qed.

(** X25. [getActiveOrders] never runs out of its array: at time [now] it
    returns, in id order, the orders below the counter that are active
    with [now <= endTime]. In a reachable world at any positive time none
    of them is a fixed-price order, since those are stored with end time
    0. *)
Theorem getActiveOrders_exact (w : World) (now : N) :
  let s := market w in
  let listed (o : Order) := isActive o && (now <=? endTime o) in
  _orderIdCounter s < modulus ->
  getActiveOrders now s
  = Ok (List.filter listed
          (map (fun i => orders s !!0 i) (ids_below (_orderIdCounter s))))
  /\ (market_reachable w -> 0 < now ->
      forall l o, getActiveOrders now s = Ok l -> o ∈ l -> isAuction o = true).
Proof.
  intros s listed Hbound.
  assert (getActiveOrders now s
          = Ok (List.filter listed
                  (map (fun i => orders s !!0 i) (ids_below (_orderIdCounter s)))))
    as Hview.
  { unfold getActiveOrders, new_array, ids_below.
    pose proof (for_loop_count (fun i => listed (orders s !!0 i))
                  (N.to_nat (_orderIdCounter s)) 0 0) as Hcount.
    pose proof (filter_length_le (fun i => listed (orders s !!0 i))
                  (map N.of_nat (seq 0 (N.to_nat (_orderIdCounter s))))) as Hle.
    rewrite length_map, length_seq in Hle.
    pose proof (for_loop_fill (fun i => listed (orders s !!0 i))
                  (fun i => orders s !!0 i)
                  (N.to_nat (_orderIdCounter s)) 0 []) as Hfill.
    rewrite <- (filter_map_comm listed).
    cbn [app length] in Hfill. change (N.of_nat 0) with 0 in Hfill, Hcount.
    subst listed. cbv beta in Hcount, Hfill, Hle |- *.
    rewrite Hcount by lia.
    cbn [mbind Result_bind bind]. rewrite N.add_0_l, Nat2N.id.
    rewrite Hfill by lia.
    cbn [mbind Result_bind bind fst]. reflexivity. }
  split; [exact Hview|].
  intros Hreach Hnow l o Hl Hin. rewrite Hview in Hl. injection Hl as <-.
  apply market_reachable_inv in Hreach as (_ & Hwf & _).
  apply list_elem_of_In, filter_In in Hin as [Hin Hlisted].
  apply in_map_iff in Hin as (i & <- & _).
  unfold listed in Hlisted. apply andb_true_iff in Hlisted as [Hact Hend].
  destruct (orders s !! i) as [o|] eqn:E.
  - rewrite (read_Some _ _ _ E) in *.
    destruct (Hwf _ _ E) as (_ & _ & _ & _ & _ & Hfixed & _).
    destruct (isAuction o); [reflexivity|]. specialize (Hfixed eq_refl). lia.
  - rewrite (read_None _ _ E) in Hact. discriminate.
Qed.

End AuctionSettlement.

Section MarketViews.

Import Marketplace.

Local Open Scope list_scope.

(** X26. [withdraw] is for the platform owner only and sends the whole
    balance of the marketplace to the owner, escrowed bids included, while
    the order book is untouched: with an owner other than the marketplace
    itself, the marketplace is left with nothing, and afterwards the seller
    cannot cancel an open auction that has a bid, nor can an outbid bidder
    withdraw, both failing for lack of funds. *)
Theorem withdraw_drains_escrow (w w' : World) (m : Msg) :
  withdraw m w = Ok w' ->
  let s := market w in
  owner s <> this s ->
  sender m = owner s
  /\ market w' = s
  /\ nft w' = nft w
  /\ balanceOf (balances w') (this s) = 0
  /\ balanceOf (balances w') (owner s)
     = balanceOf (balances w) (owner s) + balanceOf (balances w) (this s)
  /\ forall id o,
      orders s !! id = Some o ->
      orderId o <> 0 ->
      isAuction o = true ->
      (forall ms,
          sender ms = seller o ->
          isActive o = true ->
          buyer o = zero_address ->
          highestBidder o <> zero_address ->
          0 < highestBid o ->
          cancelOrder ms id w' = Revert OutOfFunds)
      /\ (forall mb,
             sender mb <> highestBidder o ->
             0 < findBid (orderBids s !!0 id) (sender mb) ->
             withdrawBid mb id w' = Revert OutOfFunds).
Proof.
  intros H s Hown. unfold withdraw, onlyOwner in H. fold s in H.
  apply bind_Ok in H as (? & Hcaller%require_Ok & H).
  apply bind_Ok in H as (bal & Hbal & [= <-]).
  apply transfer_Ok in Hbal as [_ ->]. cbn [market nft balances].
  assert (balanceOf (move (this s) (owner s) (balanceOf (balances w) (this s))
                       (balances w)) (this s) = 0) as Hzero.
  { rewrite balanceOf_move. repeat case_decide; try congruence; lia. }
  split; [lia|]. split; [reflexivity|]. split; [reflexivity|].
  split; [exact Hzero|]. split.
  { rewrite balanceOf_move. repeat case_decide; try congruence; lia. }
  intros id o Ho Hid Hkind. pose proof (read_Some _ _ _ Ho) as Hread.
  assert (negb (orderId o =? 0) = true) as Hvalid by lia.
  split.
  - intros ms Hseller Hact Hbuyer Hbidder Hbid.
    unfold cancelOrder, validOrder. cbn [market balances]. fold s.
    rewrite Hread, Hvalid, Hseller, Hact, Hbuyer, Hkind, !N.eqb_refl.
    assert (negb (highestBidder o =? zero_address) = true) as ->
      by (unfold zero_address in *; lia).
    cbn. unfold transfer. rewrite Hzero.
    destruct (highestBid o <=? 0) eqn:E; [lia | reflexivity].
  - intros mb Hnot Hfound.
    unfold withdrawBid, validOrder. cbn [market balances]. fold s.
    rewrite Hread, Hvalid, Hkind.
    assert (negb (highestBidder o =? sender mb) = true) as -> by lia.
    assert ((0 <? findBid (orderBids s !!0 id) (sender mb)) = true) as -> by lia.
    cbn. unfold transfer. rewrite Hzero.
    destruct (findBid (orderBids s !!0 id) (sender mb) <=? 0) eqn:E;
      [lia | reflexivity].
Qed.

(** X27. In a reachable world [getUserOrders] returns each order created
    by the user exactly once, in its current state, and [getUserBids]
    returns the current state of exactly the orders on which the user has a
    recorded bid; neither runs out of its array. *)
Theorem user_views_exact (w : World) (u : address) :
  market_reachable w ->
  let s := market w in
  exists created bidOn,
    getUserOrders u s = Ok created
    /\ getUserBids u s = Ok bidOn
    /\ NoDup created
    /\ (forall o, o ∈ created
                  <-> orders s !! orderId o = Some o /\ seller o = u)
    /\ (forall o, o ∈ bidOn
                  <-> orders s !! orderId o = Some o
                      /\ exists b, b ∈ orderBids s !!0 orderId o /\ bidder b = u).
Proof.
  intros Hreach s.
  apply market_reachable_inv in Hreach as (_ & Hwf & Hnone & Hidx & Hnodup & Hbids).
  fold s in Hwf, Hnone, Hidx, Hnodup, Hbids.
  exists (map (fun id => orders s !!0 id) (userOrders s !!0 u)),
         (map (fun id => orders s !!0 id) (userBids s !!0 u)).
  split.
  { unfold getUserOrders, new_array. rewrite Nat2N.id.
    exact (for_loop_map (fun id => orders s !!0 id) (userOrders s !!0 u) []
             (userOrders s !!0 u) eq_refl). }
  split.
  { unfold getUserBids, new_array. rewrite Nat2N.id.
    exact (for_loop_map (fun id => orders s !!0 id) (userBids s !!0 u) []
             (userBids s !!0 u) eq_refl). }
  split.
  { apply (NoDup_fmap_2_strong (fun id => orders s !!0 id)); [|apply Hnodup].
    intros id1 id2 H1 H2 Heq.
    apply Hidx in H1 as (o1 & Ho1 & _). apply Hidx in H2 as (o2 & Ho2 & _).
    rewrite (read_Some _ _ _ Ho1), (read_Some _ _ _ Ho2) in Heq. subst o2.
    destruct (Hwf _ _ Ho1) as (<- & _). destruct (Hwf _ _ Ho2) as (<- & _).
    reflexivity. }
  split.
  - intros o. rewrite list_elem_of_fmap. split.
    + intros (id & -> & Hin). apply Hidx in Hin as (o & Ho & Hseller).
      rewrite (read_Some _ _ _ Ho). destruct (Hwf _ _ Ho) as (-> & _). auto.
    + intros [Ho Hseller]. exists (orderId o). rewrite (read_Some _ _ _ Ho).
      split; [reflexivity|]. apply Hidx. eauto.
  - intros o. rewrite list_elem_of_fmap. split.
    + intros (id & -> & Hin). apply Hbids in Hin as (b & Hb & Hbidder).
      destruct (orders s !! id) as [o|] eqn:Ho.
      * rewrite (read_Some _ _ _ Ho). destruct (Hwf _ _ Ho) as (-> & _).
        split; [exact Ho|]. eauto.
      * rewrite (Hnone _ Ho) in Hb. apply elem_of_nil in Hb. contradiction.
    + intros [Ho (b & Hb & Hbidder)]. exists (orderId o).
      rewrite (read_Some _ _ _ Ho). split; [reflexivity|]. apply Hbids. eauto.
Qed.

End MarketViews.

Section MarketPause.

Import Marketplace.

Ltac fields :=
  cbn [market balances nft set_market set_paused set_orders this owner paused
       marketplaceFee orders orderBids userOrders userBids _orderIdCounter].

Ltac split_results :=
  repeat match goal with
         | |- context [match ?x with _ => _ end] =>
             lazymatch x with
             | context [match _ with _ => _ end] => fail
             | _ => destruct x eqn:?; fields
             end
         end.

(** X28. Pausing the marketplace stops the creation of orders and nothing
    else: while it is paused no order can be created, and bids, purchases,
    bid withdrawals, auction settlement and cancellation succeed or fail
    exactly as they do when it is not paused, with the same effect. *)
Theorem marketplace_pause_scope (w : World) (m : Msg) (b : bool) :
  let wp := set_market (set_paused b (market w)) w in
  let lift (r : Result World) : Result World :=
    w' ← r ; Ok (set_market (set_paused b (market w')) w') in
  (b = true ->
   forall a p d w',
     createFixedPriceOrder m a p wp <> Ok w'
     /\ createAuctionOrder m a p d wp <> Ok w')
  /\ (forall value id, placeBid m value id wp = lift (placeBid m value id w))
  /\ (forall value id,
         buyFixedPriceOrder m value id wp = lift (buyFixedPriceOrder m value id w))
  /\ (forall id, withdrawBid m id wp = lift (withdrawBid m id w))
  /\ (forall id, endAuction m id wp = lift (endAuction m id w))
  /\ (forall id, cancelOrder m id wp = lift (cancelOrder m id w)).
Proof.
  intros wp lift. subst wp lift. split.
  { intros -> a p d w'. split; intros H.
    - apply createFixedPriceOrder_state in H as ((_ & _ & Hp & _) & _).
      discriminate Hp.
    - apply createAuctionOrder_state in H as ((_ & _ & Hp & _) & _).
      discriminate Hp. }
  repeat split; intros.
  - unfold placeBid, validOrder, activeOrder, require, receive, transfer.
    unfold mbind, Result_bind, bind. fields. split_results; reflexivity.
  - unfold buyFixedPriceOrder, _executeSale, validOrder, activeOrder, require,
      receive, transfer.
    unfold mbind, Result_bind, bind. fields. split_results; reflexivity.
  - unfold withdrawBid, validOrder, require, transfer.
    unfold mbind, Result_bind, bind. fields. split_results; reflexivity.
  - unfold endAuction, _executeSale, validOrder, require, transfer.
    unfold mbind, Result_bind, bind. fields. split_results; reflexivity.
  - unfold cancelOrder, validOrder, require, transfer.
    unfold mbind, Result_bind, bind. fields. split_results; reflexivity.
Qed.

End MarketPause.

(** ** The runs on the scenario *)

Section ScenarioRuns.

Import Scenario.

Lemma reg_minted_state : registry_state reg_minted.2.
Proof.
  apply (rs_call (AIAssetNFT.deploy nftAddr admin) (mkMsg alice 10)
           (AIAssetNFT.MintAsset AIAssetNFT.MODEL "Model" "A model" "1.0.0"
              "QmHash1" true 250 500 true) funds funds).
  - apply rs_deploy.
  - vm_compute. reflexivity.
Qed.

Lemma reg_run_bought : registry_run reg_minted.2 reg_bought.2.
Proof.
  apply (run_cons _ (mkMsg bob 20)
           (AIAssetNFT.MintAsset AIAssetNFT.DATASET "Data" "A dataset" "1.0.0"
              "QmHash2" false 0 0 false) reg_minted.1 reg_second.1 reg_second.2);
    [vm_compute; reflexivity|].
  apply (run_cons _ (mkMsg alice 30)
           (AIAssetNFT.UpdateAsset 0 "1.1.0" "QmHash3" "Retrained")
           reg_second.1 reg_updated.1 reg_updated.2);
    [vm_compute; reflexivity|].
  apply (run_cons _ (mkMsg carol 40) (AIAssetNFT.BuyAsset 600 0)
           reg_updated.1 reg_bought.1 reg_bought.2);
    [vm_compute; reflexivity|].
  apply run_nil.
Qed.

Lemma registry_run_state (s s' : AIAssetNFT.State) :
  registry_state s -> registry_run s s' -> registry_state s'.
Proof.
  intros Hs Hrun. induction Hrun as [s | s m c bal bal' s1 s2 Hstep _ IH].
  - exact Hs.
  - apply IH. exact (rs_call _ _ _ _ _ _ Hs Hstep).
Qed.

Lemma reg_bought_state : registry_state reg_bought.2.
Proof. exact (registry_run_state _ _ reg_minted_state reg_run_bought). Qed.

Lemma lic_granted_reachable : LicenseManager.reachable lic_granted.2.
Proof.
  apply (LicenseManager.reach_step lic_enabled.2 (mkMsg bob 1000)
           (LicenseManager.CreateLicense 700 0 carol LicenseManager.RESEARCH
              500 100 "") lic_enabled.1 lic_granted.1).
  - apply (LicenseManager.reach_step lic_init.2 (mkMsg admin 5)
             (LicenseManager.SetAssetLicensability 0 true)
             lic_init.1 lic_enabled.1).
    + apply (LicenseManager.reach_deploy licenseAddr admin).
    + vm_compute. reflexivity.
  - vm_compute. reflexivity.
Qed.

Lemma lic_second_reachable : LicenseManager.reachable lic_second.2.
Proof.
  apply (LicenseManager.reach_step lic_granted.2 (mkMsg bob 1200)
           (LicenseManager.CreateLicense 500 0 alice LicenseManager.COMMERCIAL
              500 0 "") lic_granted.1 lic_second.1).
  - exact lic_granted_reachable.
  - vm_compute. reflexivity.
Qed.

Lemma lic_used_reachable : LicenseManager.reachable lic_used.2.
Proof.
  apply (LicenseManager.reach_step lic_second.2 (mkMsg alice 1300)
           (LicenseManager.RecordUsage 1 "inference" "batch 1")
           lic_second.1 lic_used.1).
  - exact lic_second_reachable.
  - vm_compute. reflexivity.
Qed.

Lemma w_auction_reachable : market_reachable w_auction.
Proof.
  apply (mr_call w_order0 (mkMsg alice 50)
           (Marketplace.CreateAuctionOrder 0 1000 100));
    [|vm_compute; discriminate | vm_compute; reflexivity].
  apply (mr_call w_approved (mkMsg alice 30)
           (Marketplace.CreateFixedPriceOrder 0 1000));
    [|vm_compute; discriminate | vm_compute; reflexivity].
  exact (mr_deploy (Marketplace.balances w_approved) (Marketplace.nft w_approved)
           marketAddr admin).
Qed.

Lemma w_bid1_reachable : market_reachable w_bid1.
Proof.
  apply (mr_call w_auction (mkMsg bob 60) (Marketplace.PlaceBid 1000 1));
    [exact w_auction_reachable | vm_compute; discriminate
    | vm_compute; reflexivity].
Qed.

Lemma w_bid2_reachable : market_reachable w_bid2.
Proof.
  apply (mr_call w_bid1 (mkMsg carol 70) (Marketplace.PlaceBid 1500 1));
    [exact w_bid1_reachable | vm_compute; discriminate
    | vm_compute; reflexivity].
Qed.

End ScenarioRuns.

(** ** The registry on the scenario *)

Section RegistryChecks.

Import Scenario.

(** After the run of the scenario only asset 1 has the hash "QmHash2". *)
Lemma content_hashes_unique_witness :
  registry_state reg_bought.2
  /\ forall t a,
       AIAssetNFT.assets reg_bought.2 !! t = Some a ->
       AIAssetNFT.ipfsHash a = "QmHash2" -> t = 1.
Proof.
  split; [exact reg_bought_state|]. intros t a Ha Hhash.
  destruct (content_hashes_unique reg_bought.2 reg_bought_state) as [_ Huniq].
  apply (Huniq t a 1 (AIAssetNFT.assets reg_bought.2 !!0 1) Ha);
    [vm_compute; reflexivity | rewrite Hhash; vm_compute; reflexivity].
Defined.

(** Asset 0, now owned by [carol], after its version update. *)
Lemma history_matches_asset_witness :
  registry_state reg_bought.2
  /\ AIAssetNFT.ownerOf 0 reg_bought.2 = Ok carol
  /\ last (AIAssetNFT.getAssetVersions 0 reg_bought.2)
     = Some (AIAssetNFT.mkVersion "1.1.0" "QmHash3" 30 "Retrained")
  /\ exists v, last (AIAssetNFT.getAssetVersions 0 reg_bought.2) = Some v
               /\ AIAssetNFT.v_ipfsHash v
                  = AIAssetNFT.ipfsHash (AIAssetNFT.getAsset 0 reg_bought.2).
Proof.
  assert (AIAssetNFT.ownerOf 0 reg_bought.2 = Ok carol) as Howner
    by (vm_compute; reflexivity).
  destruct (history_matches_asset reg_bought.2 0 carol reg_bought_state Howner)
    as (_ & _ & v & Hlast & Hhash & _).
  split; [exact reg_bought_state|]. split; [exact Howner|].
  split; [vm_compute; reflexivity|].
  exists v. split; [exact Hlast | exact Hhash].
Defined.

(** Asset 0 over the run of the scenario: a second mint, a version update
    and its sale. *)
Lemma asset_terms_immutable_witness :
  registry_state reg_minted.2
  /\ registry_run reg_minted.2 reg_bought.2
  /\ exists a', AIAssetNFT.assets reg_bought.2 !! 0 = Some a'
                /\ AIAssetNFT.creator a' = alice
                /\ AIAssetNFT.royaltyPercentage a' <= 1000.
Proof.
  split; [exact reg_minted_state|]. split; [exact reg_run_bought|].
  destruct (asset_terms_immutable reg_minted.2 reg_bought.2 0
              (AIAssetNFT.assets reg_minted.2 !!0 0)
              reg_minted_state reg_run_bought ltac:(vm_compute; reflexivity))
    as (a' & Ha' & Hsame & Hroy & _).
  exists a'. split; [exact Ha'|]. split; [|exact Hroy].
  destruct Hsame as (_ & _ & _ & _ & Hcreator & _). rewrite Hcreator.
  vm_compute. reflexivity.
Defined.

(** [alice] created asset 0 and sold it; it is still listed as hers. *)
Lemma getCreatorAssets_exact_witness :
  registry_state reg_bought.2
  /\ AIAssetNFT.ownerOf 0 reg_bought.2 = Ok carol
  /\ 0 ∈ AIAssetNFT.getCreatorAssets alice reg_bought.2
  /\ 1 ∉ AIAssetNFT.getCreatorAssets alice reg_bought.2.
Proof.
  destruct (getCreatorAssets_exact reg_bought.2 alice reg_bought_state)
    as [_ Hexact].
  split; [exact reg_bought_state|]. split; [vm_compute; reflexivity|]. split.
  - apply Hexact. exists (AIAssetNFT.assets reg_bought.2 !!0 0).
    split; vm_compute; reflexivity.
  - intros Hin. apply Hexact in Hin as (a & Ha & Hcreator).
    assert (a = AIAssetNFT.assets reg_bought.2 !!0 1) as ->
      by (symmetry; apply read_Some; exact Ha).
    vm_compute in Hcreator. discriminate Hcreator.
Defined.

(** [carol] sends 600 for asset 0, listed at 500 with a royalty of 2.5%:
    [alice], creator and owner, gets 12 and 488, and [carol] pays 500. *)
Lemma buyAsset_payment_split_witness :
  AIAssetNFT.buyAsset (mkMsg carol 40) 600 0 (reg_updated.1, reg_updated.2)
  = Ok (reg_bought.1, reg_bought.2)
  /\ balanceOf reg_bought.1 alice = balanceOf reg_updated.1 alice + 12 + 488
  /\ balanceOf reg_bought.1 carol + 500 = balanceOf reg_updated.1 carol
  /\ balanceOf reg_bought.1 nftAddr = balanceOf reg_updated.1 nftAddr.
Proof.
  assert (AIAssetNFT.buyAsset (mkMsg carol 40) 600 0
            (reg_updated.1, reg_updated.2)
          = Ok (reg_bought.1, reg_bought.2)) as Hbuy
    by (vm_compute; reflexivity).
  destruct (buyAsset_payment_split _ _ _ _ _ _ _ Hbuy)
    as (seller & Hseller & _ & _ & _ & Hbal).
  vm_compute in Hseller. injection Hseller as <-.
  split; [exact Hbuy|]. rewrite !Hbal. vm_compute. repeat split.
Defined.

(** Of the two assets of the scenario none is for sale after [carol]
    bought asset 0. *)
Lemma registry_views_exact_witness :
  AIAssetNFT._tokenIdCounter reg_bought.2 < modulus
  /\ AIAssetNFT.getAllAssets reg_bought.2
     = Ok [AIAssetNFT.assets reg_bought.2 !!0 0;
           AIAssetNFT.assets reg_bought.2 !!0 1]
  /\ AIAssetNFT.getAssetsForSale reg_bought.2 = Ok []
  /\ AIAssetNFT.getAssetsForSale reg_minted.2
     = Ok [AIAssetNFT.assets reg_minted.2 !!0 0].
Proof.
  assert (AIAssetNFT._tokenIdCounter reg_bought.2 < modulus) as Hbound
    by (vm_compute; reflexivity).
  destruct (registry_views_exact reg_bought.2 Hbound) as [Hall Hsale].
  destruct (registry_views_exact reg_minted.2 ltac:(vm_compute; reflexivity))
    as [_ Hsale0].
  split; [exact Hbound|]. split; [rewrite Hall; vm_compute; reflexivity|].
  split; [rewrite Hsale; vm_compute; reflexivity|].
  rewrite Hsale0. vm_compute. reflexivity.
Defined.

(** The registry of the scenario, paused by [admin]. *)
Lemma registry_pause_witness :
  AIAssetNFT.paused reg_minted.2 = false
  /\ AIAssetNFT.pause (mkMsg admin 50) reg_minted.2
     = Ok (AIAssetNFT.set_paused true reg_minted.2)
  /\ AIAssetNFT.pause (mkMsg alice 50) reg_minted.2 = Revert AIAssetNFT.NotAdmin
  /\ AIAssetNFT.buyAsset (mkMsg carol 60) 600 0
       (funds, AIAssetNFT.set_paused true reg_minted.2)
     = Revert AIAssetNFT.Paused
  /\ AIAssetNFT.unpause (mkMsg admin 70) (AIAssetNFT.set_paused true reg_minted.2)
     = Ok reg_minted.2.
Proof.
  assert (AIAssetNFT.paused reg_minted.2 = false) as Hp by (vm_compute; reflexivity).
  destruct (registry_pause reg_minted.2 (mkMsg admin 50)) as [_ Hrun].
  destruct (Hrun Hp) as [Hpause Hunpause].
  destruct (registry_pause reg_minted.2 (mkMsg alice 50)) as [_ Hrun'].
  destruct (Hrun' Hp) as [Hpause' _].
  destruct (registry_pause (AIAssetNFT.set_paused true reg_minted.2)
              (mkMsg carol 60)) as [Hpaused _].
  destruct (Hpaused eq_refl) as (_ & _ & _ & Hbuy).
  split; [exact Hp|]. split; [exact Hpause|]. split; [exact Hpause'|].
  split; [apply Hbuy; vm_compute; discriminate|].
  apply Hunpause. vm_compute. reflexivity.
Defined.

End RegistryChecks.

(** ** The license registry on the scenario *)

Section LicenseChecks.

Import Scenario.

(** License 0, granted to [carol] by [bob], cannot be read, used or
    deactivated. *)
Lemma license_zero_locked_witness :
  LicenseManager.reachable lic_granted.2
  /\ LicenseManager.licenses lic_granted.2 !! 0 = Some carol_license
  /\ LicenseManager.getLicense 0 lic_granted.2 = Revert LicenseManager.NotFound
  /\ LicenseManager.recordUsage (mkMsg carol 1050) 0 "inference" "" lic_granted.2
     = Revert LicenseManager.NotFound
  /\ LicenseManager.deactivateLicense (mkMsg bob 1050) 0 lic_granted.2
     = Revert LicenseManager.NotFound.
Proof.
  destruct (license_zero_locked lic_granted.2 (mkMsg carol 1050)
              lic_granted_reachable) as (Hget & _ & Huse & _).
  destruct (license_zero_locked lic_granted.2 (mkMsg bob 1050)
              lic_granted_reachable) as (_ & _ & _ & Hoff & _).
  split; [exact lic_granted_reachable|]. split; [vm_compute; reflexivity|].
  split; [exact Hget|]. split; [apply Huse | exact Hoff].
Defined.

(** License 1 of [alice] has no end: it is not expired and she can record
    a use of it. *)
Lemma isLicenseExpired_matches_recordUsage_witness :
  LicenseManager.licenseId (LicenseManager.licenses lic_second.2 !!0 1) <> 0
  /\ LicenseManager.licensee (LicenseManager.licenses lic_second.2 !!0 1)
     = sender (mkMsg alice 1300)
  /\ LicenseManager.isLicenseExpired 1300 1 lic_second.2 = Ok false
  /\ exists s', LicenseManager.recordUsage (mkMsg alice 1300) 1 "inference"
                  "batch 1" lic_second.2 = Ok s'.
Proof.
  assert (LicenseManager.licenseId (LicenseManager.licenses lic_second.2 !!0 1)
          <> 0) as Hid by (vm_compute; discriminate).
  assert (LicenseManager.licensee (LicenseManager.licenses lic_second.2 !!0 1)
          = sender (mkMsg alice 1300)) as Hwho by (vm_compute; reflexivity).
  destruct (isLicenseExpired_matches_recordUsage lic_second.2
              (mkMsg alice 1300) 1 "inference" "batch 1" Hid Hwho)
    as [Hlive _].
  assert (LicenseManager.isLicenseExpired 1300 1 lic_second.2 = Ok false)
    as Hview by (vm_compute; reflexivity).
  split; [exact Hid|]. split; [exact Hwho|]. split; [exact Hview|].
  apply Hlive. exact Hview.
Defined.

(** The one usage record of the scenario. *)
Lemma usage_log_sound_witness :
  LicenseManager.reachable lic_used.2
  /\ LicenseManager.mkUsageRecord 1 alice 1300 "inference" "batch 1"
     ∈ LicenseManager.getLicenseUsage 1 lic_used.2
  /\ exists l, LicenseManager.licenses lic_used.2 !! 1 = Some l
               /\ LicenseManager.licensee l = alice.
Proof.
  assert (LicenseManager.mkUsageRecord 1 alice 1300 "inference" "batch 1"
          ∈ LicenseManager.getLicenseUsage 1 lic_used.2) as Hin
    by (vm_compute; left).
  destruct (usage_log_sound lic_used.2 1 _ lic_used_reachable Hin)
    as (l & Hl & _ & _ & Huser & _).
  split; [exact lic_used_reachable|]. split; [exact Hin|].
  exists l. split; [exact Hl|]. rewrite <- Huser. reflexivity.
Defined.

(** The license of [carol], created at 1000 for 100 seconds. *)
Lemma createLicense_grants_witness :
  LicenseManager.createLicense (mkMsg bob 1000) 700 0 carol
    LicenseManager.RESEARCH 500 100 "" (lic_enabled.1, lic_enabled.2)
  = Ok (lic_granted.1, lic_granted.2)
  /\ LicenseManager.hasValidLicense 1100 carol 0 lic_granted.2 = true
  /\ LicenseManager.hasValidLicense 0 carol 0 lic_granted.2 = true.
Proof.
  assert (LicenseManager.createLicense (mkMsg bob 1000) 700 0 carol
            LicenseManager.RESEARCH 500 100 "" (lic_enabled.1, lic_enabled.2)
          = Ok (lic_granted.1, lic_granted.2)) as Hcall
    by (vm_compute; reflexivity).
  split; [exact Hcall|]. split.
  - apply (createLicense_grants _ _ _ _ _ _ _ _ _ _ _ _ Hcall 1100).
    right. vm_compute. discriminate.
  - apply (createLicense_grants _ _ _ _ _ _ _ _ _ _ _ _ Hcall 0).
    right. vm_compute. discriminate.
Defined.

(** The license of [carol] when [bob] grants the second license. *)
Lemma license_terms_immutable_witness :
  LicenseManager.reachable lic_granted.2
  /\ LicenseManager.exec (mkMsg bob 1200)
       (LicenseManager.CreateLicense 500 0 alice LicenseManager.COMMERCIAL
          500 0 "") (lic_granted.1, lic_granted.2)
     = Ok (lic_second.1, lic_second.2)
  /\ LicenseManager.licenses lic_granted.2 !! 0 = Some carol_license
  /\ exists l', LicenseManager.licenses lic_second.2 !! 0 = Some l'
                /\ same_license_terms carol_license l'.
Proof.
  assert (LicenseManager.exec (mkMsg bob 1200)
            (LicenseManager.CreateLicense 500 0 alice LicenseManager.COMMERCIAL
               500 0 "") (lic_granted.1, lic_granted.2)
          = Ok (lic_second.1, lic_second.2)) as Hcall
    by (vm_compute; reflexivity).
  assert (LicenseManager.licenses lic_granted.2 !! 0 = Some carol_license)
    as Hl by (vm_compute; reflexivity).
  destruct (license_terms_immutable _ _ _ _ _ _ _ _
              lic_granted_reachable Hcall Hl) as (l' & Hl' & Hsame & _).
  split; [exact lic_granted_reachable|]. split; [exact Hcall|].
  split; [exact Hl|]. exists l'. split; [exact Hl' | exact Hsame].
Defined.

(** [alice] records a use of license 1. *)
Lemma usage_log_append_only_witness :
  LicenseManager.exec (mkMsg alice 1300)
    (LicenseManager.RecordUsage 1 "inference" "batch 1")
    (lic_second.1, lic_second.2)
  = Ok (lic_used.1, lic_used.2)
  /\ LicenseManager.getLicenseUsage 1 lic_used.2
     = [LicenseManager.mkUsageRecord 1 alice 1300 "inference" "batch 1"].
Proof.
  assert (LicenseManager.exec (mkMsg alice 1300)
            (LicenseManager.RecordUsage 1 "inference" "batch 1")
            (lic_second.1, lic_second.2)
          = Ok (lic_used.1, lic_used.2)) as Hcall
    by (vm_compute; reflexivity).
  destruct (usage_log_append_only _ _ _ _ _ _ 1 Hcall) as [_ Hpush].
  split; [exact Hcall|].
  rewrite (Hpush 1 "inference" "batch 1" eq_refl). vm_compute. reflexivity.
Defined.

(** [admin] sets asset 0 twice in one batch: the later entry wins. *)
Lemma batch_is_sequential_witness :
  LicenseManager.owner lic_init.2 = sender (mkMsg admin 5)
  /\ (s ← LicenseManager.batchSetAssetLicensability (mkMsg admin 5) [0; 1; 0]
            [true; true; false] lic_init.2 ;
      Ok (LicenseManager.assetLicensable s !!0 0,
          LicenseManager.assetLicensable s !!0 1))
     = Ok (false, true)
  /\ LicenseManager.batchSetAssetLicensability (mkMsg admin 5) [0; 1] [true]
       lic_init.2 = Revert "Arrays length mismatch"
  /\ LicenseManager.batchSetAssetLicensability (mkMsg bob 5) [0] [true]
       lic_init.2 = Revert LicenseManager.NotAdmin.
Proof.
  assert (LicenseManager.owner lic_init.2 = sender (mkMsg admin 5)) as Hown
    by (vm_compute; reflexivity).
  destruct (batch_is_sequential (mkMsg admin 5) [0; 1; 0] [true; true; false]
              lic_init.2) as (Hseq & _ & _).
  destruct (batch_is_sequential (mkMsg admin 5) [0; 1] [true] lic_init.2)
    as (_ & Hlen & _).
  destruct (batch_is_sequential (mkMsg bob 5) [0] [true] lic_init.2)
    as (_ & _ & Hadmin).
  split; [exact Hown|]. split.
  - rewrite (Hseq Hown eq_refl). vm_compute. reflexivity.
  - split.
    + apply (Hlen Hown). vm_compute. discriminate.
    + apply Hadmin. vm_compute. discriminate.
Defined.

(** [bob] granted the two licenses of the scenario. *)
Lemma license_views_exact_witness :
  LicenseManager.reachable lic_second.2
  /\ (exists ids,
         NoDup ids
         /\ (forall id, id ∈ ids
                        <-> exists l,
                              LicenseManager.licenses lic_second.2 !! id = Some l
                              /\ LicenseManager.licensor l = bob)
         /\ LicenseManager.getIssuedLicenses bob lic_second.2
            = Ok (map (fun id => LicenseManager.licenses lic_second.2 !!0 id) ids))
  /\ LicenseManager.getIssuedLicenses bob lic_second.2
     = Ok [LicenseManager.licenses lic_second.2 !!0 0;
           LicenseManager.licenses lic_second.2 !!0 1].
Proof.
  destruct (license_views_exact lic_second.2 bob lic_second_reachable)
    as [_ Hissued].
  split; [exact lic_second_reachable|]. split; [exact Hissued|].
  vm_compute. reflexivity.
Defined.

End LicenseChecks.

(** ** The marketplace on the scenario *)

Section MarketChecks.

Import Marketplace Scenario.

Lemma w_sold_reachable : market_reachable w_sold.
Proof.
  apply (mr_call w_bid2 (mkMsg bob 150) (EndAuction 1));
    [exact w_bid2_reachable | vm_compute; discriminate
    | vm_compute; reflexivity].
Qed.

(** [admin] cannot raise the fee of the scenario to 10.01%. *)
Lemma marketplace_fee_bounded_witness :
  market_reachable w_bid2
  /\ marketplaceFee (market w_bid2) <= 1000
  /\ setMarketplaceFee (mkMsg admin 200) 1001 (market w_bid2)
     = Revert "Fee too high"
  /\ setMarketplaceFee (mkMsg alice 200) 100 (market w_bid2) = Revert NotAdmin.
Proof.
  destruct (marketplace_fee_bounded w_bid2 (mkMsg admin 200) 1001
              w_bid2_reachable) as [Hfee Hset].
  destruct (marketplace_fee_bounded w_bid2 (mkMsg alice 200) 100
              w_bid2_reachable) as [_ Hset'].
  split; [exact w_bid2_reachable|]. split; [exact Hfee|]. split.
  - rewrite Hset. vm_compute. reflexivity.
  - rewrite Hset'. vm_compute. reflexivity.
Defined.

(** Order 0 of the scenario, the fixed-price order of [alice]. *)
Lemma order_zero_unusable_witness :
  market_reachable w_bid2
  /\ is_Some (orders (market w_bid2) !! 0)
  /\ 1000 <= balanceOf (balances w_bid2) (sender (mkMsg bob 75))
  /\ getOrder 0 (market w_bid2) = Revert NotFound
  /\ buyFixedPriceOrder (mkMsg bob 75) 1000 0 w_bid2 = Revert NotFound
  /\ cancelOrder (mkMsg alice 75) 0 w_bid2 = Revert NotFound.
Proof.
  assert (1000 <= balanceOf (balances w_bid2) (sender (mkMsg bob 75)))
    as Hfunds by (vm_compute; discriminate).
  destruct (order_zero_unusable w_bid2 (mkMsg bob 75) 1000 w_bid2_reachable)
    as (Hget & _ & Hpay & _).
  destruct (order_zero_unusable w_bid2 (mkMsg alice 75) 1000 w_bid2_reachable)
    as (_ & _ & _ & _ & _ & Hcancel).
  split; [exact w_bid2_reachable|]. split; [vm_compute; eauto|].
  split; [exact Hfunds|]. split; [exact Hget|].
  split; [apply (Hpay Hfunds) | exact Hcancel].
Defined.

(** The auction of the scenario when [carol] outbids [bob]. *)
Lemma order_terms_immutable_witness :
  market_reachable w_bid1
  /\ exec (mkMsg carol 70) (PlaceBid 1500 1) w_bid1 = Ok w_bid2
  /\ exists o', orders (market w_bid2) !! 1 = Some o'
                /\ price o' = 1000 /\ seller o' = alice
                /\ 1000 <= highestBid o'.
Proof.
  assert (exec (mkMsg carol 70) (PlaceBid 1500 1) w_bid1 = Ok w_bid2) as Hcall
    by (vm_compute; reflexivity).
  destruct (order_terms_immutable w_bid1 w_bid2 (mkMsg carol 70)
              (PlaceBid 1500 1) 1 (orders (market w_bid1) !!0 1)
              w_bid1_reachable Hcall ltac:(vm_compute; reflexivity))
    as (o' & Ho' & (_ & _ & Hseller & Hprice & _) & Hbid & _).
  split; [exact w_bid1_reachable|]. split; [exact Hcall|].
  exists o'. split; [exact Ho'|].
  split; [rewrite Hprice; vm_compute; reflexivity|].
  split; [rewrite Hseller; vm_compute; reflexivity | exact Hbid].
Defined.

(** The settled auction has a buyer, and cancelling it fails with "Order
    not active". *)
Lemma cancel_never_already_sold_witness :
  market_reachable w_sold
  /\ buyer (orders (market w_sold) !!0 1) = carol
  /\ cancelOrder (mkMsg alice 160) 1 w_sold = Revert OrderInactive
  /\ cancelOrder (mkMsg alice 160) 1 w_sold <> Revert AlreadySold.
Proof.
  split; [exact w_sold_reachable|]. split; [vm_compute; reflexivity|].
  split; [vm_compute; reflexivity|].
  exact (cancel_never_already_sold w_sold (mkMsg alice 160) 1 w_sold_reachable).
Defined.

(** The two bids on the auction of the scenario. *)
Lemma bid_log_consistent_witness :
  market_reachable w_bid2
  /\ getOrderBids 1 (market w_bid2)
     = Ok [mkBid bob 1000 60; mkBid carol 1500 70]
  /\ highestBidder (orders (market w_bid2) !!0 1) = carol
  /\ highestBid (orders (market w_bid2) !!0 1) = 1500.
Proof.
  destruct (bid_log_consistent w_bid2 1 (orders (market w_bid2) !!0 1)
              w_bid2_reachable ltac:(vm_compute; reflexivity))
    as (Hget & _ & _ & Hlast & _).
  destruct (Hlast (mkBid carol 1500 70) ltac:(vm_compute; reflexivity))
    as [Hbidder Hbid].
  split; [exact w_bid2_reachable|]. split.
  - rewrite Hget by (vm_compute; discriminate). vm_compute. reflexivity.
  - split; [exact Hbidder | exact Hbid].
Defined.

(** After the three bids of the scenario the marketplace holds the last
    one, 2000. *)
Lemma bid_chain_escrow_witness :
  bid_chain 1 w_auction bids3
  /\ Forall (fun e => sender e.1.1 <> zero_address
                      /\ sender e.1.1 <> this (market w_auction)) bids3
  /\ highestBidder (orders (market w_auction) !!0 1) = zero_address
  /\ balanceOf (balances w_bid3) marketAddr
     = balanceOf (balances w_auction) marketAddr + 2000.
Proof.
  assert (bid_chain 1 w_auction bids3) as Hchain
    by (cbn; repeat split; vm_compute; reflexivity).
  assert (Forall (fun e => sender e.1.1 <> zero_address
                           /\ sender e.1.1 <> this (market w_auction)) bids3)
    as Hsenders by (repeat constructor; vm_compute; discriminate).
  assert (highestBidder (orders (market w_auction) !!0 1) = zero_address)
    as Hfresh by (vm_compute; reflexivity).
  destruct (bid_chain_escrow 1 w_auction bids3 (mkMsg bob 80) 2000 w_bid3
              Hchain Hsenders Hfresh eq_refl) as [_ Hescrow].
  split; [exact Hchain|]. split; [exact Hsenders|]. split; [exact Hfresh|].
  exact Hescrow.
Defined.

(** [alice] cancels the auction after the bid of [carol]: [carol] has her
    1500 back and [bob], refunded by her bid, his 1000. *)
Lemma bid_then_cancel_refunds_witness :
  placeBid (mkMsg carol 70) 1500 1 w_bid1 = Ok w_bid2
  /\ cancelOrder (mkMsg alice 100) 1 w_bid2 = Ok w_cancelled
  /\ balanceOf (balances w_cancelled) carol = balanceOf (balances w_bid1) carol
  /\ balanceOf (balances w_cancelled) bob
     = balanceOf (balances w_bid1) bob + 1000
  /\ balanceOf (balances w_cancelled) marketAddr + 1000
     = balanceOf (balances w_bid1) marketAddr.
Proof.
  assert (placeBid (mkMsg carol 70) 1500 1 w_bid1 = Ok w_bid2) as Hbid
    by (vm_compute; reflexivity).
  assert (cancelOrder (mkMsg alice 100) 1 w_bid2 = Ok w_cancelled) as Hcancel
    by (vm_compute; reflexivity).
  destruct (bid_then_cancel_refunds (mkMsg carol 70) (mkMsg alice 100) 1500 1
              w_bid1 w_bid2 w_cancelled Hbid Hcancel
              ltac:(vm_compute; discriminate) ltac:(vm_compute; discriminate)
              ltac:(vm_compute; discriminate)) as (_ & _ & _ & Hbal).
  split; [exact Hbid|]. split; [exact Hcancel|].
  rewrite !Hbal. vm_compute. repeat split.
Defined.

(** The auction of the scenario ends at 150. *)
Lemma auction_windows_witness :
  orders (market w_bid2) !! 1 = Some (orders (market w_bid2) !!0 1)
  /\ endTime (orders (market w_bid2) !!0 1) = 150
  /\ endAuction (mkMsg bob 149) 1 w_bid2 = Revert NotExpired
  /\ placeBid (mkMsg bob 151) 3000 1 w_bid2 = Revert OrderExpired
  /\ placeBid (mkMsg bob 150) 3000 1 w_bid2 <> Revert OrderExpired
  /\ endAuction (mkMsg bob 150) 1 w_bid2 <> Revert NotExpired.
Proof.
  assert (orders (market w_bid2) !! 1 = Some (orders (market w_bid2) !!0 1))
    as Ho by (vm_compute; reflexivity).
  destruct (auction_windows w_bid2 (mkMsg bob 149) 1 _ Ho
              ltac:(vm_compute; discriminate) ltac:(vm_compute; reflexivity)
              ltac:(vm_compute; reflexivity)) as (Hearly & _).
  destruct (auction_windows w_bid2 (mkMsg bob 151) 1 _ Ho
              ltac:(vm_compute; discriminate) ltac:(vm_compute; reflexivity)
              ltac:(vm_compute; reflexivity)) as (_ & Hlate & _).
  destruct (auction_windows w_bid2 (mkMsg bob 150) 1 _ Ho
              ltac:(vm_compute; discriminate) ltac:(vm_compute; reflexivity)
              ltac:(vm_compute; reflexivity)) as (_ & _ & _ & Hat).
  destruct (Hat ltac:(vm_compute; reflexivity)) as [Hbid Hend].
  split; [exact Ho|]. split; [vm_compute; reflexivity|].
  split; [apply Hearly; vm_compute; reflexivity|].
  split; [apply Hlate; [vm_compute; reflexivity | vm_compute; discriminate]|].
  split; [apply Hbid | exact Hend].
Defined.

(** [bob] ends the auction of the scenario at 150; [alice] calling later
    would have got the same. *)
Lemma endAuction_settles_witness :
  endAuction (mkMsg bob 150) 1 w_bid2 = Ok w_sold
  /\ endAuction (mkMsg alice 9999) 1 w_bid2 = Ok w_sold
  /\ AIAssetNFT.ownerOf 0 (nft w_sold) = Ok carol
  /\ balanceOf (balances w_sold) marketAddr + 1500
     = balanceOf (balances w_bid2) marketAddr.
Proof.
  assert (endAuction (mkMsg bob 150) 1 w_bid2 = Ok w_sold) as Hend
    by (vm_compute; reflexivity).
  destruct (endAuction_settles (mkMsg bob 150) 1 w_bid2 w_sold Hend)
    as (Hany & _ & Howner & _ & _ & Hpaid).
  split; [exact Hend|].
  split; [apply Hany; vm_compute; discriminate|].
  split; [exact Howner|].
  apply Hpaid; vm_compute; discriminate.
Defined.

(** At time 60 the fixed-price order 0 of the scenario, though active, is
    not listed; the auction is. *)
Lemma getActiveOrders_exact_witness :
  _orderIdCounter (market w_bid2) < modulus
  /\ isActive (orders (market w_bid2) !!0 0) = true
  /\ getActiveOrders 60 (market w_bid2) = Ok [orders (market w_bid2) !!0 1].
Proof.
  assert (_orderIdCounter (market w_bid2) < modulus) as Hbound
    by (vm_compute; reflexivity).
  destruct (getActiveOrders_exact w_bid2 60 Hbound) as [Hview _].
  split; [exact Hbound|]. split; [vm_compute; reflexivity|].
  rewrite Hview. vm_compute. reflexivity.
Defined.

(** [admin] withdraws while the 1500 of [carol] are in escrow. *)
Lemma withdraw_drains_escrow_witness :
  withdraw (mkMsg admin 120) w_bid2 = Ok w_drained
  /\ owner (market w_bid2) <> this (market w_bid2)
  /\ balanceOf (balances w_bid2) marketAddr = 1500
  /\ balanceOf (balances w_drained) marketAddr = 0
  /\ cancelOrder (mkMsg alice 130) 1 w_drained = Revert OutOfFunds
  /\ withdrawBid (mkMsg bob 130) 1 w_drained = Revert OutOfFunds.
Proof.
  assert (withdraw (mkMsg admin 120) w_bid2 = Ok w_drained) as Hcall
    by (vm_compute; reflexivity).
  assert (owner (market w_bid2) <> this (market w_bid2)) as Hown
    by (vm_compute; discriminate).
  destruct (withdraw_drains_escrow w_bid2 w_drained (mkMsg admin 120) Hcall Hown)
    as (_ & _ & _ & Hzero & _ & Hlocked).
  destruct (Hlocked 1 (orders (market w_bid2) !!0 1)
              ltac:(vm_compute; reflexivity) ltac:(vm_compute; discriminate)
              ltac:(vm_compute; reflexivity)) as [Hcancel Hwithdraw].
  split; [exact Hcall|]. split; [exact Hown|].
  split; [vm_compute; reflexivity|]. split; [exact Hzero|]. split.
  - apply Hcancel; vm_compute; first [reflexivity | discriminate].
  - apply Hwithdraw; vm_compute; first [reflexivity | discriminate].
Defined.

(** The orders of [alice] and the orders [bob] bid on. *)
Lemma user_views_exact_witness :
  market_reachable w_bid2
  /\ getUserOrders alice (market w_bid2)
     = Ok [orders (market w_bid2) !!0 0; orders (market w_bid2) !!0 1]
  /\ getUserBids bob (market w_bid2) = Ok [orders (market w_bid2) !!0 1]
  /\ exists created bidOn,
       getUserOrders alice (market w_bid2) = Ok created
       /\ getUserBids alice (market w_bid2) = Ok bidOn
       /\ NoDup created.
Proof.
  destruct (user_views_exact w_bid2 alice w_bid2_reachable)
    as (created & bidOn & Hcreated & HbidOn & Hnodup & _).
  split; [exact w_bid2_reachable|]. split; [vm_compute; reflexivity|].
  split; [vm_compute; reflexivity|].
  exists created, bidOn. repeat split; assumption.
Defined.

(** The bid of [carol] on the paused marketplace. *)
Lemma marketplace_pause_scope_witness :
  placeBid (mkMsg carol 70) 1500 1
    (set_market (set_paused true (market w_bid1)) w_bid1)
  = Ok (set_market (set_paused true (market w_bid2)) w_bid2)
  /\ forall w',
       createAuctionOrder (mkMsg alice 50) 0 1000 100
         (set_market (set_paused true (market w_order0)) w_order0) <> Ok w'.
Proof.
  destruct (marketplace_pause_scope w_bid1 (mkMsg carol 70) true)
    as (_ & Hbid & _).
  destruct (marketplace_pause_scope w_order0 (mkMsg alice 50) true)
    as (Hcreate & _).
  split.
  - rewrite Hbid. vm_compute. reflexivity.
  - intros w'. exact (proj2 (Hcreate eq_refl 0 1000 100 w')).
Defined.

End MarketChecks.
